(** * Sun & Skin: the UV + melanoma wrangling script, embedded in Rocq

    A shallow embedding of [data_wrangling_script.py].  A pandas DataFrame is
    a list of rows; a column of floats that went through [dropna] is a list
    of exact rationals ([Qc], canonical fractions, so that equal numbers are
    equal terms); a column that may still hold NaN is a list of [option Qc].
    Rounding of binary64 sums and the sign of zero are not modelled; what
    is proved of sums and means is what rounding leaves intact: bounds,
    order, maxima, the mean of a single value, sums and means of small whole
    numbers.
    [groupby] has pandas' default [sort=True]: one group per distinct key,
    groups in ascending key order, rows of a group in their original order.
    Exceptions are values of [outcome].  The HTTP calls ([requests.get]) and
    the reading of files ([pd.read_csv], [pd.read_excel]) are outside the
    model: the functions start from the resource lists and the frames these
    calls deliver. *)

From Stdlib Require Import List ZArith QArith Qcanon String Ascii Bool Lia.
From Stdlib Require Import Permutation Sorting.Sorted.
Import ListNotations.

Set Implicit Arguments.

(** ** Exceptions *)

Inductive exn : Type :=
| ValueError      (* parse_uv_csv: "Could not locate UV or time columns" *)
| RuntimeError    (* read_book7_filtered / main: explicit raise RuntimeError *)
| KeyError        (* df["..."] on an absent column, dict[...] on an absent key *)
| TypeError.      (* astype("Int64") on a number that is no 64-bit integer *)

Inductive outcome (A : Type) : Type :=
| Returned (a : A)
| Raised (e : exn).

Arguments Raised {A} e.

Definition bind {A B} (m : outcome A) (k : A -> outcome B) : outcome B :=
  match m with
  | Returned a => k a
  | Raised e => Raised e
  end.

Notation "'do' x <- m ; k" := (bind m (fun x => k))
  (at level 10, x name, m at level 100, k at level 200).

(** ** Ordered keys *)

Class Ord (K : Type) := cmp : K -> K -> comparison.

Class OrdLaws (K : Type) {O : Ord K} : Prop := {
  cmp_eq : forall a b : K, cmp a b = Eq -> a = b;
  cmp_refl : forall a : K, cmp a a = Eq;
  cmp_antisym : forall a b : K, cmp b a = CompOpp (cmp a b);
  cmp_trans : forall a b c : K, cmp a b = Lt -> cmp b c = Lt -> cmp a c = Lt
}.

Arguments OrdLaws K {O}.

#[export] Instance Ord_Z : Ord Z := Z.compare.
#[export] Instance Ord_string : Ord string := String.compare.

(** Tuples compare lexicographically, as Python tuples do. *)
#[export] Instance Ord_pair {A B} `{Ord A} `{Ord B} : Ord (A * B) :=
  fun x y =>
    match cmp (fst x) (fst y) with
    | Eq => cmp (snd x) (snd y)
    | c => c
    end.

(** A missing key (NaN) sorts after every present one ([na_position="last"]). *)
#[export] Instance Ord_option {A} `{Ord A} : Ord (option A) :=
  fun x y =>
    match x, y with
    | Some a, Some b => cmp a b
    | Some _, None => Lt
    | None, Some _ => Gt
    | None, None => Eq
    end.

Definition keyb {K} `{Ord K} (a b : K) : bool :=
  match cmp a b with Eq => true | _ => false end.

Definition cmp_leb {K} `{Ord K} (a b : K) : bool :=
  match cmp a b with Gt => false | _ => true end.

Definition klt {K} `{Ord K} (a b : K) : Prop := cmp a b = Lt.

(** ** groupby and sort_values *)

Section GroupBy.
Context {K : Type} `{Ord K}.

Fixpoint insert_key (k : K) (ks : list K) : list K :=
  match ks with
  | [] => [k]
  | k' :: ks' =>
      match cmp k k' with
      | Lt => k :: ks
      | Eq => ks
      | Gt => k' :: insert_key k ks'
      end
  end.

(** The distinct keys of a column, ascending. *)
Definition group_keys (ks : list K) : list K := fold_right insert_key [] ks.

(** [df.groupby(key)]: the groups, in key order, each with its rows in the
    order they have in [df]. *)
Definition groupby {A} (key : A -> K) (rows : list A) : list (K * list A) :=
  map (fun k => (k, filter (fun r => keyb (key r) k) rows))
      (group_keys (map key rows)).

(** [df.sort_values(key)] with a stable sort: insertion after the equal keys. *)
Fixpoint insert_row {A} (key : A -> K) (r : A) (rs : list A) : list A :=
  match rs with
  | [] => [r]
  | r' :: rs' =>
      if cmp_leb (key r) (key r') then r :: rs
      else r' :: insert_row key r rs'
  end.

Definition sort_values {A} (key : A -> K) (rows : list A) : list A :=
  fold_right (insert_row key) [] rows.

(** Row [a] may stand before row [b] in a table sorted by [key]. *)
Definition key_le {A} (key : A -> K) (a b : A) : Prop :=
  cmp_leb (key a) (key b) = true.
End GroupBy.

(** ** Numbers *)

#[export] Instance Ord_Qc : Ord Qc := Qccompare.

Definition Qcleb (a b : Qc) : bool := Qle_bool a b.
Definition Qcltb (a b : Qc) : bool := negb (Qle_bool b a).

Definition Qc_of_Z (z : Z) : Qc := Q2Qc (inject_Z z).
Definition Qc_of_nat (n : nat) : Qc := Qc_of_Z (Z.of_nat n).

(** The running maximum of a group: a later value replaces the current one
    only when it is strictly greater. *)
Definition max_step (acc v : Qc) : Qc := if Qcltb acc v then v else acc.

(** [.max()] of a group.  A group of [groupby] is never empty; the empty
    case is there only to make the function total. *)
Definition agg_max (l : list Qc) : Qc :=
  match l with
  | [] => 0%Qc
  | x :: xs => fold_left max_step xs x
  end.

Definition agg_sum (l : list Qc) : Qc := fold_left Qcplus l 0%Qc.

(** [.mean()] of a group: the sum over the count. *)
Definition agg_mean (l : list Qc) : Qc :=
  (agg_sum l / Qc_of_nat (List.length l))%Qc.

(** The same reductions on a column that may hold NaN ([skipna=True]):
    the mean of no value is NaN, the sum of no value is 0. *)
Fixpoint dropna_values (l : list (option Qc)) : list Qc :=
  match l with
  | [] => []
  | Some q :: l' => q :: dropna_values l'
  | None :: l' => dropna_values l'
  end.

Definition nan_mean (l : list (option Qc)) : option Qc :=
  match dropna_values l with
  | [] => None
  | vs => Some (agg_mean vs)
  end.

Definition nan_sum (l : list (option Qc)) : Qc := agg_sum (dropna_values l).

(** ** Dates *)

Record date : Type := { year : Z; month : Z; day : Z }.

Record timestamp : Type := { ts_date : date; ts_time : Z }.

(** Dates compare as the tuples (year, month, day). *)
Definition date_key (d : date) : Z * (Z * Z) := (year d, (month d, day d)).

#[export] Instance Ord_date : Ord date :=
  fun a b => cmp (date_key a) (date_key b).

(** ** Raw tables *)

Inductive cell : Type :=
| CStr (s : string)
| CNum (q : Qc)
| CNaN.

Record frame : Type := { columns : list string; rows : list (list cell) }.

Fixpoint col_index (c : string) (cols : list string) : option nat :=
  match cols with
  | [] => None
  | c' :: cols' =>
      if String.eqb c' c then Some O
      else option_map S (col_index c cols')
  end.

Definition cell_at (i : nat) (row : list cell) : cell := nth i row CNaN.

(** Position of the column [df[c]] reads; [KeyError] when there is none. *)
Definition col_pos (df : frame) (c : string) : outcome nat :=
  match col_index c (columns df) with
  | Some i => Returned i
  | None => Raised KeyError
  end.

Definition cell_is (s : string) (c : cell) : bool :=
  match c with
  | CStr s' => String.eqb s' s
  | _ => false
  end.

(** ** Strings *)

Definition lower (a : ascii) : ascii :=
  let n := N_of_ascii a in
  if (65 <=? n)%N && (n <=? 90)%N then ascii_of_N (n + 32) else a.

Definition is_lower_alnum (a : ascii) : bool :=
  let n := N_of_ascii a in
  ((48 <=? n)%N && (n <=? 57)%N) || ((97 <=? n)%N && (n <=? 122)%N).

(** [norm]: lower-case, then delete every run of characters outside
    [a-z0-9]. *)
Fixpoint norm (s : string) : string :=
  match s with
  | EmptyString => EmptyString
  | String a s' =>
      if is_lower_alnum (lower a) then String (lower a) (norm s')
      else norm s'
  end.

(** [sub in s]. *)
Fixpoint contains (sub s : string) : bool :=
  String.prefix sub s ||
  match s with
  | EmptyString => false
  | String _ s' => contains sub s'
  end.

Definition startswith (s pre : string) : bool := String.prefix pre s.

Fixpoint dict_get {V} (d : list (string * V)) (k : string) : option V :=
  match d with
  | [] => None
  | (k', v) :: d' => if String.eqb k' k then Some v else dict_get d' k
  end.

(** ** Settings *)

Definition RATE_STANDARD : string := "2001".

Definition PACKAGES : list (string * string) :=
  [ ("Adelaide",  "ultraviolet-radiation-index-adelaide");
    ("Brisbane",  "ultraviolet-radiation-index-brisbane");
    ("Canberra",  "ultraviolet-radiation-index-canberra");
    ("Darwin",    "ultraviolet-radiation-index-darwin");
    ("Hobart",    "ultraviolet-radiation-index-kingston");
    ("Melbourne", "ultraviolet-radiation-index-melbourne");
    ("Perth",     "ultraviolet-radiation-index-perth");
    ("Sydney",    "ultraviolet-radiation-index-sydney") ]%string.

Definition CAP_TO_STATE : list (string * (string * string)) :=
  [ ("Adelaide",  ("SA",  "South Australia"));
    ("Brisbane",  ("QLD", "Queensland"));
    ("Canberra",  ("ACT", "Australian Capital Territory"));
    ("Darwin",    ("NT",  "Northern Territory"));
    ("Hobart",    ("TAS", "Tasmania"));
    ("Melbourne", ("VIC", "Victoria"));
    ("Perth",     ("WA",  "Western Australia"));
    ("Sydney",    ("NSW", "New South Wales")) ]%string.

Definition NAME_TO_CODE : list (string * string) :=
  [ ("New South Wales", "NSW");
    ("Victoria", "VIC");
    ("Queensland", "QLD");
    ("South Australia", "SA");
    ("Western Australia", "WA");
    ("Tasmania", "TAS");
    ("Northern Territory", "NT");
    ("Australian Capital Territory", "ACT") ]%string.

(** ** Output tables *)

(** A Reading: one row of the frame [parse_uv_csv] returns. *)
Record reading : Type := { r_date : date; r_uv : Qc }.

Record daily_row : Type := { d_date : date; d_uv : Qc }.

Record monthly_row : Type :=
  { m_year : Z; m_month : Z; mean_daily_max_uvi : Qc }.

Record uv_monthly_row : Type :=
  { um_city : string; um_year : Z; um_month : Z; um_uvi : Qc }.

Record clim_row : Type :=
  { cl_city : string; cl_month : Z; mean_daily_max_uvi_clim : Qc }.

Record annual_row : Type := { an_city : string; annual_mean_uvi : Qc }.

Record peak_row : Type :=
  { pk_city : string; peak_month : Z; peak_uvi : Qc }.

Record uv_state_row : Type :=
  { us_state_code : string; us_state_name : string; us_capital : string;
    us_annual_mean_uvi : Qc; us_peak_month : Z; us_peak_uvi : Qc }.

Record yearly_row : Type :=
  { y_state_code : option string; y_state_name : cell; y_year : Z;
    asr_per_100k : option Qc; y_count : option Qc }.

Record mean_row : Type :=
  { mn_state_code : string; mn_state_name : string;
    asr_2017_2021_mean : option Qc; count_sum : Qc }.

Record scatter_row : Type :=
  { sc_state_code : string; sc_state_name : string; sc_annual_mean_uvi : Qc;
    sc_asr_2017_2021_mean : option Qc; sc_count_sum : Qc }.

(** ** parse_uv_csv: column resolution *)

Definition uv_keys : list string :=
  [ "uvindex"; "uv_index"; "uv"; "uvi"; "uv1min"; "uvindex1min";
    "uvindexminute" ]%string.

Definition t_keys : list string :=
  [ "utctime"; "utc"; "timestamp"; "datetime"; "datetimeutc"; "date_time";
    "datetimelocal"; "date"; "time"; "datetimeaest"; "datetimeaedt";
    "datetimeacst"; "datetimeawst"; "datetimeawdt"; "datetimeacdt" ]%string.

(** [inv[key]]: [inv] maps a normalised name to its column, and a later
    column with the same normalised name overwrites an earlier one. *)
Definition inv_get (cols : list string) (key : string) : option string :=
  find (fun c => String.eqb (norm c) key) (rev cols).

(** The [for key in [...]: if key in inv: ...; break] loop. *)
Fixpoint first_key (cols : list string) (keys : list string) : option string :=
  match keys with
  | [] => None
  | key :: keys' =>
      match inv_get cols key with
      | Some c => Some c
      | None => first_key cols keys'
      end
  end.

Definition uv_guess (cols : list string) : list string :=
  filter (fun c => startswith (norm c) "uv") cols.

Definition maybe (cols : list string) : list string :=
  filter (fun c => contains "time" (norm c) || contains "date" (norm c)) cols.

Definition resolve_uv_col (cols : list string) : option string :=
  match first_key cols uv_keys with
  | Some c => Some c
  | None => hd_error (uv_guess cols)
  end.

Definition resolve_t_col (cols : list string) : option string :=
  match first_key cols t_keys with
  | Some c => Some c
  | None => hd_error (maybe cols)
  end.

(** The resolution the specification describes for the value column: the
    fallback takes the first column whose normalised name merely contains
    "uv".  Stated here only to be compared with [resolve_uv_col]. *)
Definition spec_resolve_uv_col (cols : list string) : option string :=
  match first_key cols uv_keys with
  | Some c => Some c
  | None => hd_error (filter (fun c => contains "uv" (norm c)) cols)
  end.

(** ** monthly_mean_of_daily_max *)

Definition daily_max (df : list reading) : list daily_row :=
  map (fun g => {| d_date := fst g; d_uv := agg_max (map r_uv (snd g)) |})
      (groupby r_date df).

Definition monthly_mean (daily : list daily_row) : list monthly_row :=
  map (fun g => {| m_year := fst (fst g); m_month := snd (fst g);
                   mean_daily_max_uvi := agg_mean (map d_uv (snd g)) |})
      (groupby (fun d => (year (d_date d), month (d_date d))) daily).

Definition monthly_mean_of_daily_max (df : list reading) : list monthly_row :=
  monthly_mean (daily_max df).

(** ** main, UV part: climatology, annual mean, peak month *)

Definition climatology (uv_monthly : list uv_monthly_row) : list clim_row :=
  map (fun g => {| cl_city := fst (fst g); cl_month := snd (fst g);
                   mean_daily_max_uvi_clim := agg_mean (map um_uvi (snd g)) |})
      (groupby (fun r => (um_city r, um_month r)) uv_monthly).

Definition annual_means (clim : list clim_row) : list annual_row :=
  map (fun g => {| an_city := fst g;
                   annual_mean_uvi :=
                     agg_mean (map mean_daily_max_uvi_clim (snd g)) |})
      (groupby cl_city clim).

(** Rows with their index label (a fresh RangeIndex). *)
Definition enumerate {A} (l : list A) : list (nat * A) :=
  combine (seq 0 (List.length l)) l.

Definition idx_step (best cur : nat * Qc) : nat * Qc :=
  if Qcltb (snd best) (snd cur) then cur else best.

(** [.idxmax()] of a group: the label of the first row holding the maximum. *)
Definition idxmax (g : list (nat * Qc)) : nat :=
  match g with
  | [] => O
  | x :: xs => fst (fold_left idx_step xs x)
  end.

Definition peak_index (clim : list clim_row) : list nat :=
  map (fun g =>
         idxmax (map (fun ir => (fst ir, mean_daily_max_uvi_clim (snd ir)))
                     (snd g)))
      (groupby (fun ir => cl_city (snd ir)) (enumerate clim)).

(** [clim.loc[idx, ...]] with the columns renamed. *)
Definition peak_rows (clim : list clim_row) : list peak_row :=
  flat_map (fun i =>
              match nth_error clim i with
              | Some r => [ {| pk_city := cl_city r; peak_month := cl_month r;
                               peak_uvi := mean_daily_max_uvi_clim r |} ]
              | None => []
              end)
           (peak_index clim).

(** [annual.merge(peak, on="city")]: the default inner join. *)
Definition merge_annual_peak (annual : list annual_row) (peak : list peak_row)
  : list (annual_row * peak_row) :=
  flat_map (fun a =>
              map (fun p => (a, p))
                  (filter (fun p => String.eqb (pk_city p) (an_city a)) peak))
           annual.

Fixpoint mapM {A B} (f : A -> outcome B) (l : list A) : outcome (list B) :=
  match l with
  | [] => Returned []
  | a :: l' => do b <- f a; do bs <- mapM f l'; Returned (b :: bs)
  end.

(** [CAP_TO_STATE[c]]; [KeyError] for a city that is not a key. *)
Definition state_of (ap : annual_row * peak_row) : outcome uv_state_row :=
  match dict_get CAP_TO_STATE (an_city (fst ap)) with
  | Some (code, name) =>
      Returned {| us_state_code := code; us_state_name := name;
                  us_capital := an_city (fst ap);
                  us_annual_mean_uvi := annual_mean_uvi (fst ap);
                  us_peak_month := peak_month (snd ap);
                  us_peak_uvi := peak_uvi (snd ap) |}
  | None => Raised KeyError
  end.

(** The state summary, sorted by descending annual mean (rows with equal
    means keep their order here; pandas does not promise one). *)
Definition uv_state_metric (clim : list clim_row) : outcome (list uv_state_row) :=
  do rows <- mapM state_of (merge_annual_peak (annual_means clim) (peak_rows clim));
  Returned (sort_values (fun r => (- us_annual_mean_uvi r)%Qc) rows).

(** ** main, the join for the scatter *)

Definition scatter_join (uv_state : list uv_state_row) (mean : list mean_row)
  : list scatter_row :=
  flat_map (fun u =>
              map (fun m => {| sc_state_code := us_state_code u;
                               sc_state_name := us_state_name u;
                               sc_annual_mean_uvi := us_annual_mean_uvi u;
                               sc_asr_2017_2021_mean := asr_2017_2021_mean m;
                               sc_count_sum := count_sum m |})
                  (filter (fun m => String.eqb (mn_state_code m) (us_state_code u))
                          mean))
           uv_state.

(** ** The functions that call pandas' tolerant parsers

    [pd.to_datetime(..., errors="coerce")] and the string case of
    [pd.to_numeric(..., errors="coerce")] belong to pandas, not to the script:
    they are parameters.  [None] stands for NaT / NaN. *)

Section Pandas.
Variable to_datetime : cell -> option timestamp.
Variable numeric_of_string : string -> option Qc.

Definition to_numeric (c : cell) : option Qc :=
  match c with
  | CStr s => numeric_of_string s
  | CNum q => Some q
  | CNaN => None
  end.

(** *** parse_uv_csv *)

(** One row of [pd.DataFrame({"__ts": ts, "uv": uv})]. *)
Definition coerce_row (it iu : nat) (row : list cell)
  : option timestamp * option Qc :=
  (to_datetime (cell_at it row), to_numeric (cell_at iu row)).

Definition dropna (l : list (option timestamp * option Qc))
  : list (timestamp * Qc) :=
  flat_map (fun r =>
              match r with
              | (Some ts, Some uv) => [(ts, uv)]
              | _ => []
              end) l.

(** [(out["uv"] >= 0) & (out["uv"] <= 25)] *)
Definition plausible (uv : Qc) : bool := Qcleb 0 uv && Qcleb uv (Qc_of_Z 25).

Definition parse_uv_csv (df : frame) : outcome (list reading) :=
  match resolve_uv_col (columns df), resolve_t_col (columns df) with
  | Some uv_col, Some t_col =>
      do it <- col_pos df t_col;
      do iu <- col_pos df uv_col;
      let out := dropna (map (coerce_row it iu) (rows df)) in
      let out := filter (fun r => plausible (snd r)) out in
      Returned (map (fun r => {| r_date := ts_date (fst r); r_uv := snd r |})
                    out)
  | _, _ => Raised ValueError
  end.

(** What one raw row contributes to the result, read row by row: its
    Reading when the timestamp parses and the value coerces to a number
    between 0 and 25, nothing otherwise. *)
Definition row_reading (it iu : nat) (row : list cell) : list reading :=
  match to_datetime (cell_at it row), to_numeric (cell_at iu row) with
  | Some ts, Some uv =>
      if plausible uv then [ {| r_date := ts_date ts; r_uv := uv |} ] else []
  | _, _ => []
  end.

(** *** read_book7_filtered *)

Definition rate_token (rate_standard : string) : string :=
  if String.eqb rate_standard "2025" then "2025"%string else "2001"%string.

Definition rate_cols (df : frame) (rate_standard : string) : list string :=
  filter (fun c => contains "Age-standardised rate" c
                   && contains (rate_token rate_standard) c)
         (columns df).

Definition is_integral (q : Qc) : bool := Pos.eqb (Qden q) 1.

(** The values of a 64-bit signed integer. *)
Definition int64_min : Z := (- 2 ^ 63)%Z.
Definition int64_max : Z := (2 ^ 63 - 1)%Z.

Definition fits_Int64 (q : Qc) : bool :=
  is_integral q && (int64_min <=? Qnum q)%Z && (Qnum q <=? int64_max)%Z.

(** [.astype("Int64")]: the cast has to give back the value it was given, so
    a number that is not whole, or is too large for 64 bits, cannot be cast;
    a blank stays blank. *)
Definition as_Int64 (o : option Qc) : outcome (option Z) :=
  match o with
  | None => Returned None
  | Some q => if fits_Int64 q then Returned (Some (Qnum q))
              else Raised TypeError
  end.

(** [.between(2017, 2021, inclusive="both")]; a missing year is not kept. *)
Definition between_2017_2021 (y : option Z) : bool :=
  match y with
  | Some z => (2017 <=? z)%Z && (z <=? 2021)%Z
  | None => false
  end.

Definition name_to_code (name : cell) : option string :=
  match name with
  | CStr s => dict_get NAME_TO_CODE s
  | _ => None
  end.

Definition year_of (y : option Z) : Z :=
  match y with Some z => z | None => 0%Z end.

(** The key of [groupby(["state_code","state_name"])]; rows with a missing
    key are left out of every group ([dropna=True]). *)
Definition mean_key (r : yearly_row) : option (string * string) :=
  match y_state_code r, y_state_name r with
  | Some c, CStr n => Some (c, n)
  | _, _ => None
  end.

Definition five_year_mean (yearly : list yearly_row) : list mean_row :=
  let keyed :=
    flat_map (fun r => match mean_key r with
                       | Some k => [(k, r)]
                       | None => []
                       end) yearly in
  map (fun g =>
         {| mn_state_code := fst (fst g); mn_state_name := snd (fst g);
            asr_2017_2021_mean :=
              nan_mean (map (fun kr => asr_per_100k (snd kr)) (snd g));
            count_sum := nan_sum (map (fun kr => y_count (snd kr)) (snd g)) |})
      (groupby fst keyed).

(** The year a sheet row reports, when its "Year" cell is a whole number
    of 64 bits. *)
Definition stat_year (i_year : nat) (row : list cell) : option Z :=
  match to_numeric (cell_at i_year row) with
  | Some q => if fits_Int64 q then Some (Qnum q) else None
  | None => None
  end.

(** The row filter, read row by row: data type, cancer site, sex, year
    between 2017 and 2021, and not the "Australia" total. *)
Definition stat_keep (i_type i_site i_sex i_year i_state : nat)
           (row : list cell) : bool :=
  cell_is "Incidence" (cell_at i_type row)
  && cell_is "Melanoma of the skin" (cell_at i_site row)
  && cell_is "Persons" (cell_at i_sex row)
  && between_2017_2021 (stat_year i_year row)
  && negb (cell_is "Australia" (cell_at i_state row)).

(** The StatRecord of a sheet row. *)
Definition stat_record (i_year i_state i_rate i_count : nat)
           (row : list cell) : yearly_row :=
  {| y_state_code := name_to_code (cell_at i_state row);
     y_state_name := cell_at i_state row;
     y_year := year_of (stat_year i_year row);
     asr_per_100k := to_numeric (cell_at i_rate row);
     y_count := to_numeric (cell_at i_count row) |}.

(** The body of [read_book7_filtered] once the rate column is chosen. *)
Definition book7_with_rate_col (df : frame) (rate_col : string)
  : outcome (list yearly_row * list mean_row) :=
  do i_type <- col_pos df "Data type";
  do i_site <- col_pos df "Cancer group/site";
  do i_sex <- col_pos df "Sex";
  let sub := filter (fun row => cell_is "Incidence" (cell_at i_type row)
                                && cell_is "Melanoma of the skin" (cell_at i_site row)
                                && cell_is "Persons" (cell_at i_sex row))
                    (rows df) in
  do i_year <- col_pos df "Year";
  do years <- mapM (fun row => as_Int64 (to_numeric (cell_at i_year row))) sub;
  let sub := filter (fun ry => between_2017_2021 (snd ry)) (combine sub years) in
  do i_state <- col_pos df "State or Territory";
  let sub := filter (fun ry => negb (cell_is "Australia" (cell_at i_state (fst ry))))
                    sub in
  do i_rate <- col_pos df rate_col;
  do i_count <- col_pos df "Count";
  let yearly :=
    map (fun ry =>
           {| y_state_code := name_to_code (cell_at i_state (fst ry));
              y_state_name := cell_at i_state (fst ry);
              y_year := year_of (snd ry);
              asr_per_100k := to_numeric (cell_at i_rate (fst ry));
              y_count := to_numeric (cell_at i_count (fst ry)) |}) sub in
  let yearly := sort_values (fun r => (y_state_code r, y_year r)) yearly in
  Returned (yearly, five_year_mean yearly).

Definition read_book7_filtered (df : frame) (rate_standard : string)
  : outcome (list yearly_row * list mean_row) :=
  match rate_cols df rate_standard with
  | [] => Raised RuntimeError
  | rate_col :: _ => book7_with_rate_col df rate_col
  end.

(** *** main *)

Record outputs : Type :=
  { uv_monthly_by_year : list uv_monthly_row;
    uv_climatology_selected_years : list clim_row;
    uv_state_metric_csv : list uv_state_row;
    melanoma : option (list yearly_row * list mean_row * list scatter_row) }.

Definition with_city (city : string) (m : monthly_row) : uv_monthly_row :=
  {| um_city := city; um_year := m_year m; um_month := m_month m;
     um_uvi := mean_daily_max_uvi m |}.

(** The inner loop of [main]: one monthly table per downloaded file. *)
Definition city_tables (download : string -> list frame) (city : string)
  : outcome (list (list uv_monthly_row)) :=
  mapM (fun csv => do df_raw <- parse_uv_csv csv;
                   Returned (map (with_city city)
                                 (monthly_mean_of_daily_max df_raw)))
       (download city).

Definition all_rows (download : string -> list frame)
  : outcome (list (list uv_monthly_row)) :=
  do per_city <- mapM (city_tables download) (map fst PACKAGES);
  Returned (List.concat per_city).

(** [download city] is the list of files [main] fetches for [city], each
    already read by [pd.read_csv]; [book] is the sheet "Table S7.1" of the
    workbook, or [None] when the file is not there. *)
Definition main (download : string -> list frame) (book : option frame)
  : outcome outputs :=
  do tables <- all_rows download;
  match tables with
  | [] => Raised RuntimeError
  | _ =>
      let uv_monthly :=
        sort_values (fun r => (um_city r, (um_year r, um_month r)))
                    (List.concat tables) in
      let clim := climatology uv_monthly in
      do uv_state <- uv_state_metric clim;
      match book with
      | None =>
          Returned {| uv_monthly_by_year := uv_monthly;
                      uv_climatology_selected_years := clim;
                      uv_state_metric_csv := uv_state;
                      melanoma := None |}
      | Some sheet =>
          do ym <- read_book7_filtered sheet RATE_STANDARD;
          Returned {| uv_monthly_by_year := uv_monthly;
                      uv_climatology_selected_years := clim;
                      uv_state_metric_csv := uv_state;
                      melanoma := Some (fst ym, snd ym,
                                        scatter_join uv_state (snd ym)) |}
      end
  end.
End Pandas.

(** The plausible UV range of the script, [0, 25]. *)
Definition in_range (uv : Qc) : Prop := (0 <= uv)%Qc /\ (uv <= Qc_of_Z 25)%Qc.

(** ** Inputs of the scenarios *)

(** The Reading sequence [(d1,3.0),(d1,5.0),(d2,1.0)] and the daily table
    [(d1,5.0),(d2,1.0)]. *)
Definition scenario_readings (d1 d2 : date) : list reading :=
  [ {| r_date := d1; r_uv := Qc_of_Z 3 |};
    {| r_date := d1; r_uv := Qc_of_Z 5 |};
    {| r_date := d2; r_uv := Qc_of_Z 1 |} ].

Definition scenario_daily_max (d1 d2 : date) : list daily_row :=
  [ {| d_date := d1; d_uv := Qc_of_Z 5 |};
    {| d_date := d2; d_uv := Qc_of_Z 1 |} ].

Definition jan5 : date := {| year := 2023; month := 1; day := 5 |}.
Definition jan9 : date := {| year := 2023; month := 1; day := 9 |}.

(** *** Stand-ins for pandas' parsers

    Small parsers used to run the script on concrete tables: dates written
    YYYY-MM-DD, numbers written as unsigned decimals. *)

Definition digit_of (a : ascii) : option Z :=
  let n := N_of_ascii a in
  if (48 <=? n)%N && (n <=? 57)%N then Some (Z.of_N (n - 48)) else None.

Fixpoint digits_from (acc : Z) (s : string) : option Z :=
  match s with
  | EmptyString => Some acc
  | String a s' =>
      match digit_of a with
      | Some d => digits_from (10 * acc + d) s'
      | None => None
      end
  end.

Definition nat_of_string (s : string) : option Z :=
  match s with
  | EmptyString => None
  | _ => digits_from 0 s
  end.

Definition example_to_datetime (c : cell) : option timestamp :=
  match c with
  | CStr s =>
      match nat_of_string (substring 0 4 s), nat_of_string (substring 5 2 s),
            nat_of_string (substring 8 2 s) with
      | Some y, Some m, Some d =>
          if String.eqb (substring 4 1 s) "-" && String.eqb (substring 7 1 s) "-"
          then Some {| ts_date := {| year := y; month := m; day := d |};
                       ts_time := 0 |}
          else None
      | _, _, _ => None
      end
  | _ => None
  end.

Definition example_numeric_of_string (s : string) : option Qc :=
  option_map Qc_of_Z (nat_of_string s).

(** *** Tables *)

(** A UV file with two readings on 5 January 2023, one on 9 January, and
    four rows the reader must drop. *)
Definition example_csv : frame :=
  {| columns := [ "Date-Time"; "UV_Index" ]%string;
     rows := [ [ CStr "2023-01-05"; CNum (Qc_of_Z 3) ];
               [ CStr "2023-01-05"; CStr "5" ];
               [ CStr "2023-01-09"; CNum (Qc_of_Z 1) ];
               [ CStr "yesterday";  CNum (Qc_of_Z 2) ];
               [ CStr "2023-01-10"; CStr "n/a" ];
               [ CStr "2023-01-11"; CNum (Qc_of_Z 30) ];
               [ CStr "2023-01-12"; CNum (Qc_of_Z (-1)) ] ] |}.

(** A file whose value column is named "Max UV". *)
Definition max_uv_csv : frame :=
  {| columns := [ "Date"; "Max UV" ]%string;
     rows := [ [ CStr "2023-01-05"; CNum (Qc_of_Z 3) ] ] |}.

Definition example_download (city : string) : list frame :=
  if String.eqb city "Melbourne" then [ example_csv ] else [].

(** Two months of one city with the same monthly value. *)
Definition tie_monthly : list uv_monthly_row :=
  [ {| um_city := "Sydney"; um_year := 2023; um_month := 2; um_uvi := Qc_of_Z 9 |};
    {| um_city := "Sydney"; um_year := 2023; um_month := 1; um_uvi := Qc_of_Z 9 |};
    {| um_city := "Sydney"; um_year := 2023; um_month := 3; um_uvi := Qc_of_Z 4 |} ].

(** A sheet of the workbook: two rows the filter keeps and five it drops. *)
Definition example_book : frame :=
  {| columns :=
       [ "Data type"; "Cancer group/site"; "Year"; "Sex";
         "State or Territory"; "Count";
         "Age-standardised rate (2001 Australian Standard Population)";
         "Age-standardised rate (2025 Australian population)" ]%string;
     rows :=
       [ [ CStr "Incidence"; CStr "Melanoma of the skin"; CNum (Qc_of_Z 2018);
           CStr "Persons"; CStr "Victoria"; CNum (Qc_of_Z 15);
           CNum (Qc_of_Z 20); CNum (Qc_of_Z 22) ];
         [ CStr "Incidence"; CStr "Melanoma of the skin"; CStr "2017";
           CStr "Persons"; CStr "Victoria"; CNum (Qc_of_Z 5);
           CNum (Qc_of_Z 10); CNum (Qc_of_Z 11) ];
         [ CStr "Incidence"; CStr "Melanoma of the skin"; CNum (Qc_of_Z 2017);
           CStr "Persons"; CStr "Australia"; CNum (Qc_of_Z 90);
           CNum (Qc_of_Z 50); CNum (Qc_of_Z 55) ];
         [ CStr "Mortality"; CStr "Melanoma of the skin"; CNum (Qc_of_Z 2017);
           CStr "Persons"; CStr "Victoria"; CNum (Qc_of_Z 1);
           CNum (Qc_of_Z 2); CNum (Qc_of_Z 3) ];
         [ CStr "Incidence"; CStr "Melanoma of the skin"; CNum (Qc_of_Z 2016);
           CStr "Persons"; CStr "Victoria"; CNum (Qc_of_Z 4);
           CNum (Qc_of_Z 9); CNum (Qc_of_Z 9) ];
         [ CStr "Incidence"; CStr "Melanoma of the skin"; CNum (Qc_of_Z 2019);
           CStr "Males"; CStr "Victoria"; CNum (Qc_of_Z 7);
           CNum (Qc_of_Z 30); CNum (Qc_of_Z 31) ];
         [ CStr "Incidence"; CStr "All cancers combined"; CNum (Qc_of_Z 2019);
           CStr "Persons"; CStr "Victoria"; CNum (Qc_of_Z 70);
           CNum (Qc_of_Z 300); CNum (Qc_of_Z 310) ] ] |}.

(** What [main] writes for [example_download] and [example_book]. *)
Definition no_outputs : outputs :=
  {| uv_monthly_by_year := []; uv_climatology_selected_years := [];
     uv_state_metric_csv := []; melanoma := None |}.

Definition example_outputs : outputs :=
  match main example_to_datetime example_numeric_of_string
             example_download (Some example_book) with
  | Returned out => out
  | Raised _ => no_outputs
  end.

(** ** list_year_resources and the download loop of main

    The CKAN query itself is outside the model: [list_year_resources] starts
    from the "resources" list of the package's JSON answer.  Names are read
    as ASCII text. *)

Definition YEARS : list Z := [2022; 2023; 2024]%Z.

(** One entry of "resources", as far as the function reads it. *)
Record resource : Type := { res_name : option string; res_url : string }.

(** The ASCII characters [str.strip()] removes. *)
Definition is_space (a : ascii) : bool :=
  let n := N_of_ascii a in
  ((9 <=? n)%N && (n <=? 13)%N) || ((28 <=? n)%N && (n <=? 32)%N).

Fixpoint lstrip_chars (l : list ascii) : list ascii :=
  match l with
  | [] => []
  | a :: l' => if is_space a then lstrip_chars l' else l
  end.

Definition strip (s : string) : string :=
  string_of_list_ascii
    (rev (lstrip_chars (rev (lstrip_chars (list_ascii_of_string s))))).

(** [strip_prefix_ci p l]: what follows [p] at the head of [l], letters
    compared without regard to case ([re.I]). *)
Fixpoint strip_prefix_ci (p l : list ascii) : option (list ascii) :=
  match p, l with
  | [], _ => Some l
  | a :: p', b :: l' =>
      if Ascii.eqb (lower a) (lower b) then strip_prefix_ci p' l' else None
  | _ :: _, [] => None
  end.

(** [re.search(rf"{re.escape(city)}-(\d{4})\.csv$", name, re.I)] followed by
    [int(m.group(1))].  The pattern is anchored at the end of the name and
    has a fixed length, so a match can only be the end of the name; it is
    read here from the last character backwards: ".csv", four digits, "-",
    the city. *)
Definition match_city_year (city name : string) : option Z :=
  match strip_prefix_ci (rev (list_ascii_of_string ".csv"))
                        (rev (list_ascii_of_string name)) with
  | Some (d4 :: d3 :: d2 :: d1 :: dash :: rest) =>
      if Ascii.eqb dash "-" then
        match strip_prefix_ci (rev (list_ascii_of_string city)) rest with
        | Some _ => digits_from 0 (string_of_list_ascii [d1; d2; d3; d4])
        | None => None
        end
      else None
  | _ => None
  end.

(** The body of the loop over the resources: the tuple appended to [out],
    if any. *)
Definition resource_entries (city_name_for_files : string) (years : list Z)
           (res : resource) : list (Z * (string * string)) :=
  let name := strip (match res_name res with
                     | Some s => s
                     | None => EmptyString
                     end) in
  match match_city_year city_name_for_files name with
  | Some y =>
      if existsb (Z.eqb y) years then [ (y, (res_url res, name)) ] else []
  | None => []
  end.

(** The tuples (year, url, name), sorted as Python sorts tuples. *)
Definition list_year_resources (resources : list resource)
           (city_name_for_files : string) (years : list Z)
  : list (Z * (string * string)) :=
  sort_values (fun t => t)
              (flat_map (resource_entries city_name_for_files years) resources).



(** A package listing: two Sydney files of selected years, one of 2019,
    and a file of another city. *)
Definition example_resources : list resource :=
  [ {| res_name := Some "uv-sydney-2023.csv "; res_url := "https://b" |};
    {| res_name := Some "Sydney-2019.csv"; res_url := "https://c" |};
    {| res_name := Some "UV Sydney-2022.CSV"; res_url := "https://a" |};
    {| res_name := Some "Perth-2022.csv"; res_url := "https://d" |};
    {| res_name := None; res_url := "https://e" |} ]%string.

(** [example_csv] with its headers spelt differently. *)
Definition respelled_csv : frame :=
  {| columns := [ "date time"; "uv index" ]%string; rows := rows example_csv |}.

(** The melanoma tables of [example_outputs]. *)
Definition example_tables
  : list yearly_row * list mean_row * list scatter_row :=
  match melanoma example_outputs with
  | Some t => t
  | None => ([], [], [])
  end.

(** * Properties *)

(** ** The orders on keys are lawful *)

Lemma OrdLaws_Z : OrdLaws Z.
Proof.
  split; unfold cmp, Ord_Z.
  - intros a b. apply Z.compare_eq.
  - apply Z.compare_refl.
  - intros a b. apply Z.compare_antisym.
  - intros a b c. rewrite !Z.compare_lt_iff. lia.
Qed.

Lemma ascii_compare_trans (a b c : ascii) :
  Ascii.compare a b = Lt -> Ascii.compare b c = Lt -> Ascii.compare a c = Lt.
Proof.
  unfold Ascii.compare. rewrite !N.compare_lt_iff. lia.
Qed.

Lemma ascii_compare_refl (a : ascii) : Ascii.compare a a = Eq.
Proof. unfold Ascii.compare. apply N.compare_refl. Qed.

Lemma string_compare_refl (s : string) : String.compare s s = Eq.
Proof.
  induction s as [|a s IH]; simpl; [reflexivity|].
  now rewrite ascii_compare_refl.
Qed.

Lemma string_compare_trans (s1 s2 s3 : string) :
  String.compare s1 s2 = Lt -> String.compare s2 s3 = Lt ->
  String.compare s1 s3 = Lt.
Proof.
  revert s2 s3.
  induction s1 as [|a s1 IH]; intros [|b s2] [|c s3]; simpl;
    try discriminate; try reflexivity.
  destruct (Ascii.compare a b) eqn:Eab; try discriminate;
    destruct (Ascii.compare b c) eqn:Ebc; try discriminate; intros H1 H2.
  - apply Ascii.compare_eq_iff in Eab, Ebc. subst.
    rewrite ascii_compare_refl. eauto.
  - apply Ascii.compare_eq_iff in Eab. subst. now rewrite Ebc.
  - apply Ascii.compare_eq_iff in Ebc. subst. now rewrite Eab.
  - now rewrite (ascii_compare_trans _ _ _ Eab Ebc).
Qed.

Lemma OrdLaws_string : OrdLaws string.
Proof.
  split; unfold cmp, Ord_string.
  - apply String.compare_eq_iff.
  - apply string_compare_refl.
  - intros a b. apply String.compare_antisym.
  - apply string_compare_trans.
Qed.

Lemma OrdLaws_pair {A B} {OA : Ord A} {OB : Ord B} :
  OrdLaws A -> OrdLaws B -> OrdLaws (A * B).
Proof.
  intros LA LB. split; unfold cmp, Ord_pair.
  - intros [a1 b1] [a2 b2]; simpl.
    destruct (cmp a1 a2) eqn:E; try discriminate.
    intros H. apply cmp_eq in E, H. now subst.
  - intros [a b]; simpl. now rewrite !cmp_refl.
  - intros [a1 b1] [a2 b2]; simpl.
    rewrite (cmp_antisym a1 a2).
    destruct (cmp a1 a2); simpl; auto using cmp_antisym.
  - intros [a1 b1] [a2 b2] [a3 b3]; simpl.
    destruct (cmp a1 a2) eqn:E12; try discriminate;
      destruct (cmp a2 a3) eqn:E23; try discriminate; intros H1 H2.
    + apply cmp_eq in E12, E23. subst. rewrite cmp_refl. eauto using cmp_trans.
    + apply cmp_eq in E12. subst. now rewrite E23.
    + apply cmp_eq in E23. subst. now rewrite E12.
    + now rewrite (cmp_trans _ _ _ E12 E23).
Qed.

Lemma OrdLaws_option {A} {OA : Ord A} : OrdLaws A -> OrdLaws (option A).
Proof.
  intros LA. split; unfold cmp, Ord_option.
  - intros [a|] [b|]; try discriminate; auto.
    intros H. apply cmp_eq in H. now subst.
  - intros [a|]; auto. apply cmp_refl.
  - intros [a|] [b|]; auto. apply cmp_antisym.
  - intros [a|] [b|] [c|]; try discriminate; auto. apply cmp_trans.
Qed.

Lemma OrdLaws_date : OrdLaws date.
Proof.
  pose proof (OrdLaws_pair OrdLaws_Z (OrdLaws_pair OrdLaws_Z OrdLaws_Z)) as L.
  assert (E : forall a b : date, cmp a b = cmp (date_key a) (date_key b))
    by reflexivity.
  split.
  - intros [y1 m1 d1] [y2 m2 d2] H. rewrite E in H. apply cmp_eq in H.
    unfold date_key in H. simpl in H. congruence.
  - intros a. rewrite E. apply cmp_refl.
  - intros a b. rewrite !E. apply cmp_antisym.
  - intros a b c. rewrite !E. apply cmp_trans.
Qed.

#[export] Existing Instances OrdLaws_Z OrdLaws_string OrdLaws_pair
  OrdLaws_option OrdLaws_date.

(** ** groupby and sort_values *)

Section GroupByFacts.
Context {K : Type} {O : Ord K} {L : OrdLaws K}.

Lemma keyb_true (a b : K) : keyb a b = true <-> a = b.
Proof.
  unfold keyb. split.
  - destruct (cmp a b) eqn:E; try discriminate. intros _. now apply cmp_eq.
  - intros ->. now rewrite cmp_refl.
Qed.

Lemma keyb_refl (a : K) : keyb a a = true.
Proof. now apply keyb_true. Qed.

Lemma klt_irrefl (a : K) : ~ klt a a.
Proof. unfold klt. now rewrite cmp_refl. Qed.

Lemma klt_trans (a b c : K) : klt a b -> klt b c -> klt a c.
Proof. apply cmp_trans. Qed.

Lemma cmp_gt_lt (a b : K) : cmp a b = Gt -> klt b a.
Proof. unfold klt. intros E. now rewrite cmp_antisym, E. Qed.

Lemma klt_neq (a b : K) : klt a b -> a <> b.
Proof. intros H ->. now apply klt_irrefl in H. Qed.

Lemma In_insert_key (x k : K) (ks : list K) :
  In x (insert_key k ks) <-> x = k \/ In x ks.
Proof.
  induction ks as [|k' ks IH]; simpl.
  - intuition.
  - destruct (cmp k k') eqn:E; simpl.
    + apply cmp_eq in E. subst. intuition.
    + intuition.
    + rewrite IH. intuition.
Qed.

Lemma insert_key_sorted (k : K) (ks : list K) :
  StronglySorted klt ks -> StronglySorted klt (insert_key k ks).
Proof.
  induction 1 as [|k' ks Hs IH Hall]; simpl.
  - repeat constructor.
  - destruct (cmp k k') eqn:E.
    + now constructor.
    + constructor; [now constructor|].
      constructor; [exact E|].
      eapply Forall_impl; [|exact Hall]. intros x. now apply klt_trans.
    + constructor; [exact IH|].
      apply Forall_forall. intros x Hx. apply In_insert_key in Hx.
      destruct Hx as [->|Hx]; [now apply cmp_gt_lt|].
      rewrite Forall_forall in Hall. now apply Hall.
Qed.

Lemma group_keys_In (x : K) (ks : list K) : In x (group_keys ks) <-> In x ks.
Proof.
  induction ks as [|k ks IH]; simpl; [tauto|].
  rewrite In_insert_key, IH. intuition.
Qed.

Lemma group_keys_sorted (ks : list K) : StronglySorted klt (group_keys ks).
Proof.
  induction ks; simpl; [constructor|]. now apply insert_key_sorted.
Qed.

Lemma sorted_NoDup (l : list K) : StronglySorted klt l -> NoDup l.
Proof.
  induction 1 as [|a l Hs IH Hall]; constructor; auto.
  intros Hin. rewrite Forall_forall in Hall.
  now apply (klt_irrefl (Hall _ Hin)).
Qed.

(** An ascending list without repetition is determined by its elements. *)
Lemma sorted_unique (l l' : list K) :
  StronglySorted klt l -> StronglySorted klt l' ->
  (forall x, In x l <-> In x l') -> l = l'.
Proof.
  intros Hl. revert l'.
  induction Hl as [|a l Hs IH Ha]; intros l' Hl' Hin.
  - destruct l' as [|b l']; [reflexivity|].
    exfalso. apply (proj2 (Hin b)). now left.
  - destruct Hl' as [|b l' Hs' Hb].
    + exfalso. apply (proj1 (Hin a)). now left.
    + rewrite Forall_forall in Ha, Hb.
      assert (a = b) as <-.
      { destruct (proj1 (Hin a) (or_introl eq_refl)) as [E|Hab]; [now symmetry|].
        destruct (proj2 (Hin b) (or_introl eq_refl)) as [E|Hba]; [assumption|].
        exfalso. apply (@klt_irrefl a).
        eapply klt_trans; [apply Ha, Hba | apply Hb, Hab]. }
      f_equal. apply IH; [assumption|].
      intros x. split; intros Hx.
      * destruct (proj1 (Hin x) (or_intror Hx)) as [E|H']; [|assumption].
        subst x. exfalso. now apply (klt_irrefl (Ha _ Hx)).
      * destruct (proj2 (Hin x) (or_intror Hx)) as [E|H']; [|assumption].
        subst x. exfalso. now apply (klt_irrefl (Hb _ Hx)).
Qed.

Lemma group_keys_same (ks ks' : list K) :
  (forall x, In x ks <-> In x ks') -> group_keys ks = group_keys ks'.
Proof.
  intros H. apply sorted_unique; auto using group_keys_sorted.
  intros x. now rewrite !group_keys_In.
Qed.

Lemma group_keys_perm (ks ks' : list K) :
  Permutation ks ks' -> group_keys ks = group_keys ks'.
Proof.
  intros P. apply group_keys_same. intros x.
  split; apply Permutation_in; [assumption | now symmetry].
Qed.

Lemma groupby_keys {A} (key : A -> K) (rows : list A) :
  map fst (groupby key rows) = group_keys (map key rows).
Proof.
  unfold groupby. rewrite map_map. simpl. apply map_id.
Qed.

Lemma In_groupby {A} (key : A -> K) (rows : list A) (g : K * list A) :
  In g (groupby key rows) <->
  In (fst g) (map key rows) /\
  snd g = filter (fun r => keyb (key r) (fst g)) rows.
Proof.
  unfold groupby. rewrite in_map_iff. split.
  - intros (k & <- & Hk). simpl. rewrite group_keys_In in Hk.
    split; [assumption | reflexivity].
  - intros [Hk E]. exists (fst g). rewrite <- group_keys_In in Hk.
    split; [|assumption]. destruct g; simpl in *. now subst.
Qed.

Lemma In_group {A} (key : A -> K) (rows : list A) (k : K) (r : A) :
  In r (filter (fun r => keyb (key r) k) rows) <-> In r rows /\ key r = k.
Proof. now rewrite filter_In, keyb_true. Qed.

(** A group is never empty. *)
Lemma group_nonempty {A} (key : A -> K) (rows : list A) (g : K * list A) :
  In g (groupby key rows) -> snd g <> [].
Proof.
  rewrite In_groupby. intros [Hk E] Hnil.
  apply in_map_iff in Hk. destruct Hk as (r & Hr & Hin).
  assert (In r (snd g)) as Hg by (rewrite E; now apply In_group).
  now rewrite Hnil in Hg.
Qed.

Lemma filter_perm {A} (f : A -> bool) (l l' : list A) :
  Permutation l l' -> Permutation (filter f l) (filter f l').
Proof.
  induction 1; simpl.
  - constructor.
  - destruct (f x); auto.
  - destruct (f x), (f y); auto using perm_swap, Permutation_refl.
  - eauto using Permutation_trans.
Qed.

(** Reducing every group with an order-insensitive function gives a table
    that does not depend on the order of the input rows. *)
Lemma groupby_agg_perm {A B} (key : A -> K) (agg : K -> list A -> B)
      (rows rows' : list A) :
  (forall k l l', Permutation l l' -> agg k l = agg k l') ->
  Permutation rows rows' ->
  map (fun g => agg (fst g) (snd g)) (groupby key rows) =
  map (fun g => agg (fst g) (snd g)) (groupby key rows').
Proof.
  intros Hagg P. unfold groupby. rewrite !map_map. simpl.
  rewrite (group_keys_perm (Permutation_map key P)).
  apply map_ext. intros k. apply Hagg. now apply filter_perm.
Qed.

Lemma insert_row_perm {A} (key : A -> K) (r : A) (rs : list A) :
  Permutation (insert_row key r rs) (r :: rs).
Proof.
  induction rs as [|r' rs IH]; simpl; [auto|].
  destruct (cmp_leb (key r) (key r')); [auto|].
  rewrite IH. constructor.
Qed.

Lemma sort_values_perm {A} (key : A -> K) (rows : list A) :
  Permutation (sort_values key rows) rows.
Proof.
  induction rows as [|r rows IH]; simpl; [auto|].
  rewrite insert_row_perm. now constructor.
Qed.

Lemma In_sort_values {A} (key : A -> K) (rows : list A) (r : A) :
  In r (sort_values key rows) <-> In r rows.
Proof.
  split; apply Permutation_in;
    [apply sort_values_perm | symmetry; apply sort_values_perm].
Qed.

Lemma cmp_leb_total (a b : K) : cmp_leb a b = false -> cmp_leb b a = true.
Proof.
  unfold cmp_leb. rewrite (cmp_antisym a b).
  destruct (cmp a b); simpl; congruence.
Qed.

Lemma insert_row_sorted {A} (key : A -> K) (r : A) (rs : list A) :
  Sorted (key_le key) rs -> Sorted (key_le key) (insert_row key r rs).
Proof.
  induction 1 as [|r' rs Hs IH Hhd]; simpl.
  - repeat constructor.
  - destruct (cmp_leb (key r) (key r')) eqn:E.
    + constructor; [now constructor|]. now constructor.
    + constructor; [exact IH|].
      destruct rs as [|r'' rs]; simpl.
      * constructor. now apply cmp_leb_total.
      * destruct (cmp_leb (key r) (key r'')).
        -- constructor. now apply cmp_leb_total.
        -- constructor. now inversion Hhd.
Qed.

Lemma sort_values_sorted {A} (key : A -> K) (rows : list A) :
  Sorted (key_le key) (sort_values key rows).
Proof.
  induction rows; simpl; [constructor|]. now apply insert_row_sorted.
Qed.
End GroupByFacts.

(** ** max and mean of a group *)

Lemma Qcleb_le (a b : Qc) : Qcleb a b = true <-> (a <= b)%Qc.
Proof. unfold Qcleb, Qcle. apply Qle_bool_iff. Qed.

Lemma Qcltb_lt (a b : Qc) : Qcltb a b = true <-> (a < b)%Qc.
Proof.
  unfold Qcltb. rewrite negb_true_iff. split.
  - intros H. apply Qcnot_le_lt. intros Hle.
    apply Qcleb_le in Hle. unfold Qcleb in Hle. congruence.
  - intros H. destruct (Qle_bool b a) eqn:E; [|reflexivity].
    apply Qle_bool_iff in E. exfalso. now apply (Qclt_not_le _ _ H).
Qed.

Lemma Qcltb_ge (a b : Qc) : Qcltb a b = false <-> (b <= a)%Qc.
Proof.
  unfold Qcltb. rewrite negb_false_iff. apply Qle_bool_iff.
Qed.

Lemma max_step_cases (acc v : Qc) :
  (max_step acc v = v /\ (acc < v)%Qc) \/ (max_step acc v = acc /\ (v <= acc)%Qc).
Proof.
  unfold max_step. destruct (Qcltb acc v) eqn:E.
  - left. split; [reflexivity|]. now apply Qcltb_lt.
  - right. split; [reflexivity|]. now apply Qcltb_ge.
Qed.

Lemma fold_max_spec (xs : list Qc) (x : Qc) :
  In (fold_left max_step xs x) (x :: xs) /\
  Forall (fun y => (y <= fold_left max_step xs x)%Qc) (x :: xs).
Proof.
  revert x. induction xs as [|v xs IH]; intros x; simpl.
  - split; [now left|]. repeat constructor. apply Qcle_refl.
  - destruct (IH (max_step x v)) as [Hin Hall].
    inversion Hall as [|? ? Hm Hxs]; subst.
    destruct (max_step_cases x v) as [[E Hlt]|[E Hle]]; rewrite E in *.
    + split.
      * right. exact Hin.
      * constructor; [|now constructor].
        eapply Qcle_trans; [apply Qclt_le_weak, Hlt | exact Hm].
    + split.
      * destruct Hin as [Hin|Hin]; [now left | right; now right].
      * constructor; [exact Hm|]. constructor; [|exact Hxs].
        eapply Qcle_trans; [exact Hle | exact Hm].
Qed.

Lemma agg_max_In (l : list Qc) : l <> [] -> In (agg_max l) l.
Proof.
  destruct l as [|x xs]; [congruence|]. intros _. apply fold_max_spec.
Qed.

Lemma agg_max_ge (l : list Qc) (y : Qc) : In y l -> (y <= agg_max l)%Qc.
Proof.
  destruct l as [|x xs]; [contradiction|]. intros Hy.
  destruct (fold_max_spec xs x) as [_ Hall].
  rewrite Forall_forall in Hall. now apply Hall.
Qed.

(** The maximum does not depend on the order of the rows. *)
Lemma agg_max_perm (l l' : list Qc) :
  Permutation l l' -> agg_max l = agg_max l'.
Proof.
  intros P. destruct l as [|x xs].
  - apply Permutation_nil in P. now subst.
  - assert (l' <> []) as Hne.
    { intros ->. apply Permutation_sym, Permutation_nil in P. discriminate. }
    apply Qcle_antisym; apply agg_max_ge.
    + eapply Permutation_in; [exact P|]. now apply agg_max_In.
    + eapply Permutation_in; [symmetry; exact P|]. now apply agg_max_In.
Qed.

Lemma Qc_of_Z_add (a b : Z) : Qc_of_Z (a + b) = (Qc_of_Z a + Qc_of_Z b)%Qc.
Proof.
  unfold Qc_of_Z, Qcplus. apply Q2Qc_eq_iff. unfold Q2Qc, this.
  rewrite !Qred_correct, inject_Z_plus. reflexivity.
Qed.

Lemma Qc_of_nat_S (n : nat) : Qc_of_nat (S n) = (Qc_of_nat n + 1)%Qc.
Proof.
  unfold Qc_of_nat. rewrite Nat2Z.inj_succ, <- Z.add_1_r, Qc_of_Z_add.
  reflexivity.
Qed.

Lemma Qc_of_nat_pos (n : nat) : (0 < Qc_of_nat (S n))%Qc.
Proof.
  unfold Qc_of_nat, Qc_of_Z, Qclt.
  change (0 < Qred (inject_Z (Z.of_nat (S n))))%Q.
  rewrite Qred_correct. unfold Qlt, inject_Z, Qnum, Qden. lia.
Qed.

Lemma fold_plus_acc (l : list Qc) (acc : Qc) :
  fold_left Qcplus l acc = (acc + fold_left Qcplus l 0)%Qc.
Proof.
  revert acc. induction l as [|x l IH]; intros acc; simpl.
  - now rewrite Qcplus_0_r.
  - rewrite (IH (acc + x)%Qc), (IH (0 + x)%Qc). ring.
Qed.

Lemma agg_sum_cons (x : Qc) (l : list Qc) :
  agg_sum (x :: l) = (x + agg_sum l)%Qc.
Proof.
  unfold agg_sum. simpl. rewrite fold_plus_acc. ring.
Qed.

Lemma agg_sum_bounds (a b : Qc) (l : list Qc) :
  Forall (fun x => (a <= x)%Qc /\ (x <= b)%Qc) l ->
  (Qc_of_nat (List.length l) * a <= agg_sum l)%Qc /\
  (agg_sum l <= Qc_of_nat (List.length l) * b)%Qc.
Proof.
  induction 1 as [|x l [Ha Hb] _ [IHa IHb]].
  - unfold agg_sum; simpl.
    replace (Qc_of_nat 0) with 0%Qc by (now apply Qc_is_canon).
    rewrite !Qcmult_0_l. split; apply Qcle_refl.
  - simpl List.length. rewrite Qc_of_nat_S, agg_sum_cons.
    rewrite !Qcmult_plus_distr_l, !Qcmult_1_l.
    split.
    + rewrite (Qcplus_comm _ a). now apply Qcplus_le_compat.
    + rewrite (Qcplus_comm _ b). now apply Qcplus_le_compat.
Qed.

(** The mean of a non-empty group lies between any bounds of its values. *)
Lemma agg_mean_bounds (a b : Qc) (l : list Qc) :
  l <> [] ->
  Forall (fun x => (a <= x)%Qc /\ (x <= b)%Qc) l ->
  (a <= agg_mean l)%Qc /\ (agg_mean l <= b)%Qc.
Proof.
  intros Hne Hall. destruct (agg_sum_bounds Hall) as [Hlo Hhi].
  destruct l as [|x l]; [congruence|].
  set (n := Qc_of_nat (List.length (x :: l))) in *.
  assert (Hn : (0 < n)%Qc) by apply Qc_of_nat_pos.
  assert (Hn0 : n <> 0%Qc) by (intros E; rewrite E in Hn; now apply Qclt_not_eq in Hn).
  assert (E : (agg_mean (x :: l) * n)%Qc = agg_sum (x :: l)).
  { unfold agg_mean. fold n. rewrite Qcmult_comm. now apply Qcmult_div_r. }
  split; apply Qcmult_lt_0_le_reg_r with (z := n); try assumption; rewrite E.
  - now rewrite Qcmult_comm.
  - now rewrite (Qcmult_comm b).
Qed.

(** ** The temporal reduction *)

Lemma daily_max_dates (df : list reading) :
  map d_date (daily_max df) = group_keys (map r_date df).
Proof.
  unfold daily_max. rewrite map_map. simpl. apply groupby_keys.
Qed.

Lemma daily_max_perm (df df' : list reading) :
  Permutation df df' -> daily_max df = daily_max df'.
Proof.
  intros P. unfold daily_max.
  apply (groupby_agg_perm r_date
           (fun k l => {| d_date := k; d_uv := agg_max (map r_uv l) |})); auto.
  intros k l l' Pl. f_equal. apply agg_max_perm. now apply Permutation_map.
Qed.

(** A row of the daily table holds a value read on that date, and no
    reading of that date exceeds it. *)
Lemma daily_max_row (df : list reading) (dr : daily_row) :
  In dr (daily_max df) ->
  (exists r, In r df /\ r_date r = d_date dr /\ r_uv r = d_uv dr) /\
  (forall r, In r df -> r_date r = d_date dr -> (r_uv r <= d_uv dr)%Qc).
Proof.
  unfold daily_max. rewrite in_map_iff. intros (g & <- & Hg). simpl.
  pose proof (group_nonempty _ _ _ Hg) as Hne.
  apply In_groupby in Hg. destruct Hg as [_ Eg]. split.
  - assert (In (agg_max (map r_uv (snd g))) (map r_uv (snd g))) as Hin.
    { apply agg_max_In. destruct (snd g); [congruence | discriminate]. }
    apply in_map_iff in Hin. destruct Hin as (r & Er & Hr).
    rewrite Eg in Hr. apply In_group in Hr. exists r. tauto.
  - intros r Hr Ed. apply agg_max_ge. apply in_map. rewrite Eg.
    now apply In_group.
Qed.

Lemma daily_max_covers (df : list reading) (r : reading) :
  In r df -> exists dr, In dr (daily_max df) /\ d_date dr = r_date r.
Proof.
  intros Hr.
  assert (In (r_date r) (map d_date (daily_max df))) as Hin.
  { rewrite daily_max_dates, group_keys_In. now apply in_map. }
  apply in_map_iff in Hin. destruct Hin as (dr & E & Hdr). eauto.
Qed.

(** C4: the temporal reduction does not depend on the order of the input
    rows (daily maxima and monthly means of a permuted Reading sequence are
    the same tables), and the daily table has exactly one row per date read,
    holding the maximum over the readings of that date. *)
Theorem temporal_reduction_order_independent (df df' : list reading) :
  Permutation df df' ->
  daily_max df = daily_max df' /\
  monthly_mean_of_daily_max df = monthly_mean_of_daily_max df' /\
  (forall dr, In dr (daily_max df) ->
     (exists r, In r df /\ r_date r = d_date dr /\ r_uv r = d_uv dr) /\
     (forall r, In r df -> r_date r = d_date dr -> (r_uv r <= d_uv dr)%Qc)) /\
  (forall r, In r df -> exists dr, In dr (daily_max df) /\ d_date dr = r_date r) /\
  NoDup (map d_date (daily_max df)).
Proof.
  intros P. pose proof (daily_max_perm P) as E. repeat split.
  - exact E.
  - unfold monthly_mean_of_daily_max. now rewrite E.
  - now apply daily_max_row.
  - now apply daily_max_row.
  - now apply daily_max_covers.
  - rewrite daily_max_dates. apply sorted_NoDup, group_keys_sorted.
Qed.

Section Scenario.
Variables d1 d2 : date.
Hypothesis distinct : d1 <> d2.
Hypothesis same_year : year d1 = year d2.
Hypothesis same_month : month d1 = month d2.

Lemma scenario_keyb :
  keyb d1 d1 = true /\ keyb d2 d2 = true /\
  keyb d1 d2 = false /\ keyb d2 d1 = false.
Proof.
  repeat split; try apply keyb_refl.
  - destruct (keyb d1 d2) eqn:E; [|reflexivity].
    apply keyb_true in E. contradiction.
  - destruct (keyb d2 d1) eqn:E; [|reflexivity].
    apply keyb_true in E. now symmetry in E.
Qed.

Lemma scenario_daily :
  daily_max (scenario_readings d1 d2) =
  match cmp d1 d2 with
  | Gt => rev (scenario_daily_max d1 d2)
  | _ => scenario_daily_max d1 d2
  end.
Proof.
  destruct scenario_keyb as (K11 & K22 & K12 & K21).
  unfold daily_max, groupby, group_keys, scenario_readings, scenario_daily_max.
  cbn [map fold_right insert_key r_date].
  destruct (cmp d1 d2) eqn:E.
  - apply cmp_eq in E. contradiction.
  - cbn [insert_key]. rewrite cmp_refl. cbn [map filter r_date fst snd].
    rewrite K11, K21, K12, K22. reflexivity.
  - cbn [insert_key]. rewrite E, cmp_refl.
    cbn [map filter r_date fst snd].
    rewrite K11, K21, K12, K22. reflexivity.
Qed.

Lemma scenario_mean :
  agg_mean [Qc_of_Z 5; Qc_of_Z 1] = Qc_of_Z 3 /\
  agg_mean [Qc_of_Z 1; Qc_of_Z 5] = Qc_of_Z 3.
Proof. split; apply Qc_is_canon; vm_compute; reflexivity. Qed.

Lemma scenario_monthly (daily : list daily_row) :
  daily = scenario_daily_max d1 d2 \/ daily = rev (scenario_daily_max d1 d2) ->
  monthly_mean daily =
  [ {| m_year := year d1; m_month := month d1;
       mean_daily_max_uvi := Qc_of_Z 3 |} ].
Proof.
  destruct scenario_mean as [M51 M15].
  assert (Kb : keyb (year d1, month d1) (year d1, month d1) = true)
    by apply keyb_refl.
  assert (Kc : cmp (year d1, month d1) (year d1, month d1) = Eq)
    by apply cmp_refl.
  intros [-> | ->]; unfold monthly_mean, groupby, group_keys, scenario_daily_max;
    cbn [rev app map fold_right d_date]; rewrite <- same_year, <- same_month;
    cbn [insert_key]; rewrite Kc; cbn [map filter d_date d_uv fst snd];
    rewrite <- ?same_year, <- ?same_month, Kb; cbn [map d_uv];
    now rewrite ?M51, ?M15.
Qed.

(** C1: for the Reading sequence [(d1,3.0),(d1,5.0),(d2,1.0)] with [d1] and
    [d2] distinct dates of one month M, the daily-max table holds exactly
    the rows (d1,5.0) and (d2,1.0), listed in that order when [d1] is the
    earlier date ([groupby] lists dates in ascending order), and the
    monthly table is the single row (M, 3.0). *)
Theorem scenario_daily_max_monthly_mean :
  Permutation (daily_max (scenario_readings d1 d2)) (scenario_daily_max d1 d2) /\
  (klt d1 d2 ->
   daily_max (scenario_readings d1 d2) = scenario_daily_max d1 d2) /\
  monthly_mean_of_daily_max (scenario_readings d1 d2) =
  [ {| m_year := year d1; m_month := month d1;
       mean_daily_max_uvi := Qc_of_Z 3 |} ].
Proof.
  pose proof scenario_daily as E. repeat split.
  - rewrite E. unfold scenario_daily_max.
    destruct (cmp d1 d2); simpl; auto using perm_swap.
  - intros Hlt. rewrite E. unfold klt in Hlt. now rewrite Hlt.
  - unfold monthly_mean_of_daily_max. apply scenario_monthly.
    rewrite E. destruct (cmp d1 d2); auto.
Qed.
End Scenario.

(** ** The join for the scatter *)

Lemma In_scatter_join (uv_state : list uv_state_row) (mean : list mean_row)
      (s : scatter_row) :
  In s (scatter_join uv_state mean) <->
  exists u m, In u uv_state /\ In m mean /\
              mn_state_code m = us_state_code u /\
              s = {| sc_state_code := us_state_code u;
                     sc_state_name := us_state_name u;
                     sc_annual_mean_uvi := us_annual_mean_uvi u;
                     sc_asr_2017_2021_mean := asr_2017_2021_mean m;
                     sc_count_sum := count_sum m |}.
Proof.
  unfold scatter_join. rewrite in_flat_map. split.
  - intros (u & Hu & Hs). apply in_map_iff in Hs. destruct Hs as (m & <- & Hm).
    apply filter_In in Hm. destruct Hm as [Hm E]. apply String.eqb_eq in E.
    exists u, m. auto.
  - intros (u & m & Hu & Hm & E & ->). exists u. split; [assumption|].
    apply in_map_iff. exists m. split; [reflexivity|].
    apply filter_In. split; [assumption|]. now apply String.eqb_eq.
Qed.

(** C9: the joined table has a record for a state code exactly when the code
    occurs in both inputs. *)
Theorem scatter_join_is_inner (uv_state : list uv_state_row)
        (mean : list mean_row) (code : string) :
  In code (map sc_state_code (scatter_join uv_state mean)) <->
  In code (map us_state_code uv_state) /\ In code (map mn_state_code mean).
Proof.
  rewrite !in_map_iff. split.
  - intros (s & <- & Hs). apply In_scatter_join in Hs.
    destruct Hs as (u & m & Hu & Hm & E & ->). simpl. split.
    + now exists u.
    + now exists m.
  - intros [(u & <- & Hu) (m & E & Hm)].
    eexists. split; [|apply In_scatter_join; exists u, m; eauto]. reflexivity.
Qed.

Lemma count_occ_const {A} (c k : string) (l : list A) :
  count_occ string_dec (map (fun _ => k) l) c =
  if string_dec k c then List.length l else O.
Proof.
  induction l as [|a l IH]; simpl.
  - now destruct (string_dec k c).
  - rewrite IH. now destruct (string_dec k c).
Qed.

Lemma length_filter_code {A} (code : A -> string) (c : string) (l : list A) :
  List.length (filter (fun r => String.eqb (code r) c) l) =
  count_occ string_dec (map code l) c.
Proof.
  induction l as [|a l IH]; simpl; [reflexivity|].
  destruct (String.eqb_spec (code a) c) as [E|E];
    destruct (string_dec (code a) c); try contradiction; simpl; now rewrite IH.
Qed.

Lemma scatter_join_count (uv_state : list uv_state_row) (mean : list mean_row)
      (c : string) :
  count_occ string_dec (map sc_state_code (scatter_join uv_state mean)) c =
  (count_occ string_dec (map us_state_code uv_state) c *
   count_occ string_dec (map mn_state_code mean) c)%nat.
Proof.
  induction uv_state as [|u uv_state IH]; simpl; [reflexivity|].
  rewrite map_app, count_occ_app, IH, map_map. simpl.
  rewrite count_occ_const, length_filter_code.
  destruct (string_dec (us_state_code u) c) as [->|_]; lia.
Qed.

(** ** parse_uv_csv *)

Lemma hd_error_filter {A} (f : A -> bool) (l : list A) :
  hd_error (filter f l) = find f l.
Proof.
  induction l as [|a l IH]; simpl; [reflexivity|]. now destruct (f a).
Qed.

Lemma find_none_iff {A} (f : A -> bool) (l : list A) :
  find f l = None <-> forall x, In x l -> f x = false.
Proof.
  split; [apply find_none|].
  induction l as [|a l IH]; simpl; [reflexivity|]. intros H.
  rewrite (H a (or_introl eq_refl)). apply IH. auto.
Qed.

Lemma inv_get_some (cols : list string) (key c : string) :
  inv_get cols key = Some c -> In c cols /\ norm c = key.
Proof.
  unfold inv_get. intros H. apply find_some in H. destruct H as [Hin E].
  apply in_rev in Hin. apply String.eqb_eq in E. auto.
Qed.

Lemma inv_get_none (cols : list string) (key : string) :
  inv_get cols key = None <-> forall c, In c cols -> norm c <> key.
Proof.
  unfold inv_get. rewrite find_none_iff. split; intros H c Hc.
  - apply String.eqb_neq, H. now apply in_rev in Hc.
  - apply String.eqb_neq, H. now apply in_rev.
Qed.

(** The loop over the candidate names stops at the first candidate some
    column normalises to. *)
Lemma first_key_some (cols keys : list string) (c : string) :
  first_key cols keys = Some c ->
  In c cols /\
  exists pre post, keys = pre ++ norm c :: post /\
    forall k c', In k pre -> In c' cols -> norm c' <> k.
Proof.
  induction keys as [|key keys IH]; simpl; [discriminate|].
  destruct (inv_get cols key) as [c0|] eqn:E.
  - intros [= ->]. apply inv_get_some in E. destruct E as [Hin Ek].
    subst key. split; [assumption|]. exists [], keys. split; [reflexivity|]. contradiction.
  - intros H. destruct (IH H) as (Hin & pre & post & -> & Hpre).
    split; [assumption|]. exists (key :: pre), post. split; [reflexivity|].
    intros k c' [<-|Hk] Hc'; [|now apply Hpre].
    rewrite inv_get_none in E. now apply E.
Qed.

Lemma first_key_none (cols keys : list string) :
  first_key cols keys = None <-> forall c, In c cols -> ~ In (norm c) keys.
Proof.
  induction keys as [|key keys IH]; simpl.
  - split; auto.
  - destruct (inv_get cols key) as [c0|] eqn:E.
    + split; [discriminate|]. intros H. apply inv_get_some in E.
      destruct E as [Hin Ek]. subst key. exfalso. apply (H c0 Hin). now left.
    + rewrite IH. rewrite inv_get_none in E. split.
      * intros H c Hc [Ek|Hk]; [now apply (E c Hc) | now apply (H c Hc)].
      * intros H c Hc Hk. apply (H c Hc). now right.
Qed.

Lemma resolve_uv_col_In (cols : list string) (c : string) :
  resolve_uv_col cols = Some c -> In c cols.
Proof.
  unfold resolve_uv_col, uv_guess.
  destruct (first_key cols uv_keys) as [c0|] eqn:E.
  - intros [= ->]. now apply first_key_some in E.
  - rewrite hd_error_filter. intros H. now apply find_some in H.
Qed.

Lemma resolve_t_col_In (cols : list string) (c : string) :
  resolve_t_col cols = Some c -> In c cols.
Proof.
  unfold resolve_t_col, maybe.
  destruct (first_key cols t_keys) as [c0|] eqn:E.
  - intros [= ->]. now apply first_key_some in E.
  - rewrite hd_error_filter. intros H. now apply find_some in H.
Qed.

Lemma col_index_In (c : string) (cols : list string) :
  In c cols -> exists i, col_index c cols = Some i.
Proof.
  induction cols as [|c' cols IH]; simpl; [contradiction|].
  destruct (String.eqb_spec c' c) as [E|E]; [eauto|].
  intros [E'|Hin]; [contradiction|].
  destruct (IH Hin) as [i ->]. simpl. eauto.
Qed.

Section ParseFacts.
Variable to_datetime : cell -> option timestamp.
Variable numeric_of_string : string -> option Qc.

#[local] Abbreviation parse := (parse_uv_csv to_datetime numeric_of_string).
#[local] Abbreviation reading_of := (row_reading to_datetime numeric_of_string).
#[local] Abbreviation numeric := (to_numeric numeric_of_string).

Lemma plausible_range (uv : Qc) :
  plausible uv = true <-> (0 <= uv)%Qc /\ (uv <= Qc_of_Z 25)%Qc.
Proof.
  unfold plausible. now rewrite andb_true_iff, !Qcleb_le.
Qed.

(** The staged computation ([dropna], then the range mask, then [.dt.date])
    keeps, row by row, what [row_reading] describes. *)
Lemma parse_rows (it iu : nat) (rows : list (list cell)) :
  map (fun r => {| r_date := ts_date (fst r); r_uv := snd r |})
      (filter (fun r => plausible (snd r))
              (dropna (map (coerce_row to_datetime numeric_of_string it iu)
                           rows))) =
  flat_map (reading_of it iu) rows.
Proof.
  induction rows as [|row rows IH]; [reflexivity|].
  cbn [map flat_map dropna]. unfold coerce_row at 1, row_reading at 1.
  fold (dropna (map (coerce_row to_datetime numeric_of_string it iu) rows)).
  destruct (to_datetime (cell_at it row)) as [ts|];
    destruct (numeric (cell_at iu row)) as [uv|]; cbn [app]; try exact IH.
  cbn [filter snd]. destruct (plausible uv); cbn [map app fst snd];
    now rewrite IH.
Qed.

Lemma In_row_reading (it iu : nat) (row : list cell) (r : reading) :
  In r (reading_of it iu row) <->
  exists ts, to_datetime (cell_at it row) = Some ts /\
             numeric (cell_at iu row) = Some (r_uv r) /\
             (0 <= r_uv r)%Qc /\ (r_uv r <= Qc_of_Z 25)%Qc /\
             r_date r = ts_date ts.
Proof.
  unfold row_reading.
  destruct (to_datetime (cell_at it row)) as [ts|];
    destruct (numeric (cell_at iu row)) as [uv|];
    try (split; [contradiction | intros (? & ? & ? & _); discriminate]).
  destruct (plausible uv) eqn:P.
  - apply plausible_range in P. split.
    + intros [<-|[]]. exists ts. simpl. tauto.
    + intros (ts' & [= <-] & [= ->] & _ & _ & E). left.
      destruct r; simpl in *. now subst.
  - split; [contradiction|].
    intros (ts' & _ & [= ->] & H0 & H25 & _).
    assert (plausible (r_uv r) = true) by now apply plausible_range.
    congruence.
Qed.

(** C5: once both columns are resolved, [parse_uv_csv] returns, in the
    order of the file, one Reading for every row whose timestamp parses and
    whose value coerces to a number between 0 and 25, and nothing for any
    other row; the value of a Reading is the coerced value itself. *)
Theorem parse_uv_csv_keeps_plausible_rows (df : frame) (uv_col t_col : string) :
  resolve_uv_col (columns df) = Some uv_col ->
  resolve_t_col (columns df) = Some t_col ->
  exists it iu,
    col_index t_col (columns df) = Some it /\
    col_index uv_col (columns df) = Some iu /\
    parse df = Returned (flat_map (reading_of it iu) (rows df)) /\
    forall r,
      In r (flat_map (reading_of it iu) (rows df)) <->
      exists row ts,
        In row (rows df) /\
        to_datetime (cell_at it row) = Some ts /\
        numeric (cell_at iu row) = Some (r_uv r) /\
        (0 <= r_uv r)%Qc /\ (r_uv r <= Qc_of_Z 25)%Qc /\
        r_date r = ts_date ts.
Proof.
  intros Huv Ht.
  destruct (col_index_In _ _ (resolve_t_col_In _ Ht)) as [it Eit].
  destruct (col_index_In _ _ (resolve_uv_col_In _ Huv)) as [iu Eiu].
  exists it, iu. repeat split; try assumption.
  - unfold parse_uv_csv, col_pos.
    rewrite Huv, Ht, Eit, Eiu. simpl. now rewrite parse_rows.
  - rewrite in_flat_map. intros (row & Hrow & Hr).
    apply In_row_reading in Hr. destruct Hr as (ts & Hr). eauto.
  - intros (row & ts & Hrow & Hr). apply in_flat_map. exists row.
    split; [assumption|]. apply In_row_reading. eauto.
Qed.

(** C6, as the script has it: the candidate names are tried in their
    listed order and the first one some column normalises to decides; if
    none does, the value column is the first column whose normalised name
    starts with "uv", and the timestamp column the first whose normalised
    name contains "time" or "date"; [ValueError] is raised exactly when
    one of the two columns stays unresolved. *)
Theorem column_resolution (df : frame) :
  (forall keys c, first_key (columns df) keys = Some c ->
     In c (columns df) /\
     exists pre post, keys = pre ++ norm c :: post /\
       forall k c', In k pre -> In c' (columns df) -> norm c' <> k) /\
  (forall keys, first_key (columns df) keys = None <->
     forall c, In c (columns df) -> ~ In (norm c) keys) /\
  (forall c, first_key (columns df) uv_keys = Some c ->
     resolve_uv_col (columns df) = Some c) /\
  (forall c, first_key (columns df) t_keys = Some c ->
     resolve_t_col (columns df) = Some c) /\
  (first_key (columns df) uv_keys = None ->
   resolve_uv_col (columns df) =
   find (fun c => startswith (norm c) "uv") (columns df)) /\
  (first_key (columns df) t_keys = None ->
   resolve_t_col (columns df) =
   find (fun c => contains "time" (norm c) || contains "date" (norm c))
        (columns df)) /\
  (parse df = Raised ValueError <->
   resolve_uv_col (columns df) = None \/ resolve_t_col (columns df) = None).
Proof.
  split; [intros keys c; apply first_key_some|].
  split; [intros keys; apply first_key_none|].
  unfold resolve_uv_col, resolve_t_col, uv_guess, maybe.
  split; [now intros c ->|]. split; [now intros c ->|].
  split; [intros ->; apply hd_error_filter|].
  split; [intros ->; apply hd_error_filter|].
  fold (uv_guess (columns df)) (maybe (columns df)).
  fold (resolve_uv_col (columns df)) (resolve_t_col (columns df)).
  destruct (resolve_uv_col (columns df)) as [uv_col|] eqn:Huv;
    destruct (resolve_t_col (columns df)) as [t_col|] eqn:Ht.
  - destruct (col_index_In _ _ (resolve_t_col_In _ Ht)) as [it Eit].
    destruct (col_index_In _ _ (resolve_uv_col_In _ Huv)) as [iu Eiu].
    unfold parse_uv_csv, col_pos.
    rewrite Huv, Ht, Eit, Eiu. simpl.
    split; [discriminate | intros [?|?]; discriminate].
  - unfold parse_uv_csv. rewrite Huv, Ht. tauto.
  - unfold parse_uv_csv. rewrite Huv. tauto.
  - unfold parse_uv_csv. rewrite Huv. tauto.
Qed.
End ParseFacts.

(** ** read_book7_filtered *)

Lemma bind_raised {A B} (m : outcome A) (k : A -> outcome B) (e : exn) :
  bind m k = Raised e ->
  m = Raised e \/ exists a, m = Returned a /\ k a = Raised e.
Proof. destruct m as [a|e']; simpl; [eauto | intros [= ->]; auto]. Qed.

Lemma col_pos_raised (df : frame) (c : string) (e : exn) :
  col_pos df c = Raised e -> e = KeyError.
Proof. unfold col_pos. destruct (col_index c (columns df)); congruence. Qed.

Lemma mapM_raised {A B} (f : A -> outcome B) (l : list A) (e : exn) :
  mapM f l = Raised e -> exists a, In a l /\ f a = Raised e.
Proof.
  induction l as [|a l IH]; simpl; [discriminate|].
  intros H. apply bind_raised in H. destruct H as [H|(b & _ & H)].
  - exists a. auto.
  - apply bind_raised in H. destruct H as [H|(bs & _ & H)]; [|discriminate].
    destruct (IH H) as (a' & Hin & Ha'). exists a'. auto.
Qed.

Lemma mapM_returned {A B} (f : A -> outcome B) (g : A -> B) (l : list A) :
  (forall a, In a l -> f a = Returned (g a)) ->
  mapM f l = Returned (map g l).
Proof.
  induction l as [|a l IH]; simpl; [reflexivity|]. intros H.
  rewrite (H a (or_introl eq_refl)). simpl. rewrite IH by auto. reflexivity.
Qed.

Lemma combine_map_self {A B} (g : A -> B) (l : list A) :
  combine l (map g l) = map (fun a => (a, g a)) l.
Proof. induction l; simpl; congruence. Qed.

Lemma filter_map_swap {A B} (f : B -> bool) (h : A -> B) (l : list A) :
  filter f (map h l) = map h (filter (fun a => f (h a)) l).
Proof.
  induction l as [|a l IH]; simpl; [reflexivity|].
  destruct (f (h a)); simpl; now rewrite IH.
Qed.

Lemma filter_filter {A} (p q : A -> bool) (l : list A) :
  filter p (filter q l) = filter (fun a => q a && p a) l.
Proof.
  induction l as [|a l IH]; simpl; [reflexivity|].
  destruct (q a); simpl; [destruct (p a)|]; now rewrite IH.
Qed.

Lemma Qc_of_Z_this (y : Z) : this (Qc_of_Z y) = inject_Z y.
Proof.
  unfold Qc_of_Z, Q2Qc. cbn [this]. apply Qred_identity. apply Z.gcd_1_r.
Qed.

Lemma is_integral_Qc_of_Z (q : Qc) :
  is_integral q = true -> q = Qc_of_Z (Qnum q).
Proof.
  intros H. apply Qc_is_canon. rewrite Qc_of_Z_this.
  unfold is_integral in H. apply Pos.eqb_eq in H.
  destruct q as [[n d] Hc]. simpl in *. subst d. reflexivity.
Qed.

Lemma fits_Int64_iff (q : Qc) :
  fits_Int64 q = true <->
  exists y, q = Qc_of_Z y /\ (- 2 ^ 63 <= y <= 2 ^ 63 - 1)%Z.
Proof.
  unfold fits_Int64. rewrite !andb_true_iff, !Z.leb_le.
  unfold int64_min, int64_max. split.
  - intros [[Hi Hlo] Hhi]. exists (Qnum q).
    split; [now apply is_integral_Qc_of_Z|]. split; assumption.
  - intros (y & -> & Hlo & Hhi). unfold is_integral.
    rewrite Qc_of_Z_this. simpl. repeat split; assumption.
Qed.

Lemma fits_Int64_Qc_of_Z (y : Z) :
  (- 2 ^ 63 <= y <= 2 ^ 63 - 1)%Z -> fits_Int64 (Qc_of_Z y) = true.
Proof. intros H. apply fits_Int64_iff. now exists y. Qed.

Lemma Qnum_Qc_of_Z (y : Z) : Qnum (Qc_of_Z y) = y.
Proof. now rewrite Qc_of_Z_this. Qed.

Lemma cell_is_true (s : string) (c : cell) :
  cell_is s c = true <-> c = CStr s.
Proof.
  destruct c as [s'| |]; simpl; try (split; discriminate).
  rewrite String.eqb_eq. split; [now intros ->|now intros [= ->]].
Qed.

Lemma cell_is_false (s : string) (c : cell) :
  cell_is s c = false <-> c <> CStr s.
Proof.
  destruct c as [s'| |]; simpl; try (split; [discriminate | reflexivity]).
  rewrite String.eqb_neq. split; congruence.
Qed.

Section Book7Facts.
Variable numeric_of_string : string -> option Qc.

#[local] Abbreviation read_book7 := (read_book7_filtered numeric_of_string).
#[local] Abbreviation with_rate_col := (book7_with_rate_col numeric_of_string).
#[local] Abbreviation numeric_of := (to_numeric numeric_of_string).

Lemma as_Int64_raised (o : option Qc) (e : exn) :
  as_Int64 o = Raised e -> e = TypeError.
Proof.
  destruct o as [q|]; simpl; [|discriminate].
  destruct (fits_Int64 q); congruence.
Qed.

(** The body never raises [RuntimeError]: a missing column is a [KeyError],
    a year that cannot be cast a [TypeError]. *)
Lemma with_rate_col_not_RuntimeError (df : frame) (rate_col : string) :
  with_rate_col df rate_col <> Raised RuntimeError.
Proof.
  unfold book7_with_rate_col. intros H.
  repeat match type of H with
         | bind (col_pos _ _) _ = Raised _ =>
             apply bind_raised in H;
             destruct H as [H|(? & _ & H)];
             [apply col_pos_raised in H; discriminate|]
         | bind (mapM _ _) _ = Raised _ =>
             apply bind_raised in H;
             destruct H as [H|(? & _ & H)];
             [apply mapM_raised in H; destruct H as (? & _ & H);
              apply as_Int64_raised in H; discriminate|]
         end.
  discriminate.
Qed.

Lemma rate_token_standard (rate_standard : string) :
  rate_standard = "2001"%string \/ rate_standard = "2025"%string ->
  rate_token rate_standard = rate_standard.
Proof. now intros [-> | ->]. Qed.

(** C7: with the standard set to "2001" or "2025", [read_book7_filtered]
    raises its [RuntimeError] exactly when no column header contains both
    "Age-standardised rate" and the standard's year; otherwise the first
    header that contains both is the rate column. *)
Theorem rate_column_selection (df : frame) (rate_standard : string) :
  rate_standard = "2001"%string \/ rate_standard = "2025"%string ->
  (read_book7 df rate_standard = Raised RuntimeError <->
   forall c, In c (columns df) ->
             ~ (contains "Age-standardised rate" c = true /\
                contains rate_standard c = true)) /\
  (forall pre c post,
     columns df = pre ++ c :: post ->
     contains "Age-standardised rate" c = true ->
     contains rate_standard c = true ->
     (forall c', In c' pre ->
                 ~ (contains "Age-standardised rate" c' = true /\
                    contains rate_standard c' = true)) ->
     read_book7 df rate_standard = with_rate_col df c).
Proof.
  intros Hstd. unfold read_book7_filtered, rate_cols.
  rewrite (rate_token_standard Hstd).
  set (f := fun c => contains "Age-standardised rate" c
                     && contains rate_standard c).
  split.
  - destruct (filter f (columns df)) as [|c l] eqn:E.
    + split; [|reflexivity]. intros _ c Hc [H1 H2].
      assert (In c (filter f (columns df))) as Hin.
      { apply filter_In. split; [assumption|]. unfold f. now rewrite H1, H2. }
      now rewrite E in Hin.
    + split.
      * intros H. now apply with_rate_col_not_RuntimeError in H.
      * intros H. exfalso.
        assert (In c (filter f (columns df))) as Hin by (rewrite E; now left).
        apply filter_In in Hin. destruct Hin as [Hc Hf].
        unfold f in Hf. apply andb_true_iff in Hf. now apply (H c Hc).
  - intros pre c post -> H1 H2 Hpre.
    rewrite filter_app. simpl.
    assert (filter f pre = []) as ->.
    { clear -Hpre. induction pre as [|a pre IH]; simpl; [reflexivity|].
      destruct (f a) eqn:Ea.
      - exfalso. apply (Hpre a (or_introl eq_refl)).
        unfold f in Ea. now apply andb_true_iff in Ea.
      - apply IH. intros c' Hc'. apply Hpre. now right. }
    unfold f at 1. now rewrite H1, H2.
Qed.

Lemma stat_year_kept (i_year : nat) (row : list cell) :
  between_2017_2021 (stat_year numeric_of_string i_year row) = true <->
  exists y, numeric_of (cell_at i_year row) = Some (Qc_of_Z y) /\
            (2017 <= y <= 2021)%Z.
Proof.
  unfold stat_year. split.
  - destruct (numeric_of (cell_at i_year row)) as [q|]; [|discriminate].
    destruct (fits_Int64 q) eqn:Ef; [|discriminate].
    cbn [between_2017_2021].
    rewrite andb_true_iff, !Z.leb_le. intros Hy. exists (Qnum q).
    apply fits_Int64_iff in Ef. destruct Ef as (y & -> & _).
    rewrite Qnum_Qc_of_Z in *. now split.
  - intros (y & -> & Hy). rewrite fits_Int64_Qc_of_Z by lia.
    cbn [between_2017_2021].
    rewrite Qnum_Qc_of_Z, andb_true_iff, !Z.leb_le. exact Hy.
Qed.

(** C8: when the sheet has the columns the function reads and the "Year"
    cells of the melanoma incidence rows are blank or whole numbers of 64
    bits, [read_book7_filtered] returns.  Its yearly table holds exactly the
    StatRecords of the rows kept by the filter, sorted by (state_code, year),
    a missing code last.  A row is kept exactly when its data type is
    "Incidence", its site "Melanoma of the skin", its sex "Persons", its year
    a whole number from 2017 to 2021, both included, and its state is not
    "Australia"; the StatRecord of a kept row holds the code looked up in
    NAME_TO_CODE for the state name, the state name, that year, and the rate
    and the count read as numbers. *)
Theorem read_book7_filtered_rows (df : frame) (rate_standard rate_col : string)
        (rest : list string) (i_type i_site i_sex i_year i_state i_count : nat) :
  rate_cols df rate_standard = rate_col :: rest ->
  col_index "Data type" (columns df) = Some i_type ->
  col_index "Cancer group/site" (columns df) = Some i_site ->
  col_index "Sex" (columns df) = Some i_sex ->
  col_index "Year" (columns df) = Some i_year ->
  col_index "State or Territory" (columns df) = Some i_state ->
  col_index "Count" (columns df) = Some i_count ->
  (forall row q,
     In row (rows df) ->
     cell_at i_type row = CStr "Incidence" ->
     cell_at i_site row = CStr "Melanoma of the skin" ->
     cell_at i_sex row = CStr "Persons" ->
     numeric_of (cell_at i_year row) = Some q ->
     exists y, q = Qc_of_Z y /\ (- 2 ^ 63 <= y <= 2 ^ 63 - 1)%Z) ->
  exists i_rate yearly,
    col_index rate_col (columns df) = Some i_rate /\
    read_book7 df rate_standard = Returned (yearly, five_year_mean yearly) /\
    Permutation yearly
      (map (stat_record numeric_of_string i_year i_state i_rate i_count)
           (filter (stat_keep numeric_of_string i_type i_site i_sex i_year i_state)
                   (rows df))) /\
    Sorted (key_le (fun r => (y_state_code r, y_year r))) yearly /\
    (forall row,
       stat_keep numeric_of_string i_type i_site i_sex i_year i_state row = true <->
       cell_at i_type row = CStr "Incidence" /\
       cell_at i_site row = CStr "Melanoma of the skin" /\
       cell_at i_sex row = CStr "Persons" /\
       (exists y, numeric_of (cell_at i_year row) = Some (Qc_of_Z y) /\
                  (2017 <= y <= 2021)%Z) /\
       cell_at i_state row <> CStr "Australia") /\
    (forall row y,
       numeric_of (cell_at i_year row) = Some (Qc_of_Z y) ->
       (2017 <= y <= 2021)%Z ->
       stat_record numeric_of_string i_year i_state i_rate i_count row =
       {| y_state_code := match cell_at i_state row with
                          | CStr name => dict_get NAME_TO_CODE name
                          | _ => None
                          end;
          y_state_name := cell_at i_state row;
          y_year := y;
          asr_per_100k := numeric_of (cell_at i_rate row);
          y_count := numeric_of (cell_at i_count row) |}).
Proof.
  intros Hrate Htype Hsite Hsex Hyear Hstate Hcount Hint.
  assert (In rate_col (columns df)) as Hin.
  { assert (In rate_col (rate_cols df rate_standard)) as H
      by (rewrite Hrate; now left).
    unfold rate_cols in H. now apply filter_In in H. }
  destruct (col_index_In _ _ Hin) as [i_rate Hrate_idx].
  exists i_rate. eexists. split; [exact Hrate_idx|].
  unfold read_book7_filtered. rewrite Hrate.
  unfold book7_with_rate_col, col_pos.
  rewrite Htype, Hsite, Hsex, Hyear, Hstate, Hcount, Hrate_idx. cbn [bind].
  set (triple := fun row : list cell =>
                   cell_is "Incidence" (cell_at i_type row)
                   && cell_is "Melanoma of the skin" (cell_at i_site row)
                   && cell_is "Persons" (cell_at i_sex row)).
  rewrite (mapM_returned _ (stat_year numeric_of_string i_year)).
  2:{ intros row Hrow. apply filter_In in Hrow. destruct Hrow as [Hrow Ht].
      unfold triple in Ht. rewrite !andb_true_iff, !cell_is_true in Ht.
      destruct Ht as [[H1 H2] H3]. unfold stat_year.
      destruct (numeric_of (cell_at i_year row)) as [q|] eqn:Eq; simpl;
        [|reflexivity].
      now rewrite (proj2 (fits_Int64_iff q) (Hint row q Hrow H1 H2 H3 Eq)). }
  cbn [bind]. rewrite combine_map_self, !filter_map_swap, !filter_filter, map_map.
  cbn [fst snd].
  split; [reflexivity|]. split; [|split; [apply sort_values_sorted|split]].
  - rewrite sort_values_perm.
    match goal with |- Permutation ?a ?b => assert (a = b) as -> end;
      [|apply Permutation_refl].
    unfold stat_record. f_equal. apply filter_ext. intros row.
    unfold stat_keep, triple. now rewrite !andb_assoc.
  - intros row. unfold stat_keep.
    rewrite !andb_true_iff, !cell_is_true, negb_true_iff, cell_is_false,
      stat_year_kept.
    tauto.
  - intros row y Hq Hy. unfold stat_record, stat_year. rewrite Hq.
    rewrite fits_Int64_Qc_of_Z by lia. cbn [year_of name_to_code].
    now rewrite Qnum_Qc_of_Z.
Qed.
End Book7Facts.

(** ** The peak month *)

Lemma In_combine_seq {A} (l : list A) (s i : nat) (a : A) :
  In (i, a) (combine (seq s (List.length l)) l) <->
  (s <= i)%nat /\ nth_error l (i - s) = Some a.
Proof.
  revert s. induction l as [|x l IH]; intros s; simpl.
  - split; [contradiction|]. intros [_ H]. now destruct (i - s)%nat.
  - rewrite IH. split.
    + intros [[= <- <-]|[Hle Hn]].
      * rewrite Nat.sub_diag. auto.
      * split; [lia|]. replace (i - s)%nat with (S (i - S s)) by lia. exact Hn.
    + intros [Hle Hn]. destruct (i - s)%nat as [|k] eqn:E.
      * left. simpl in Hn. injection Hn as ->. f_equal. lia.
      * right. split; [lia|]. replace (i - S s)%nat with k by lia. exact Hn.
Qed.

Lemma In_enumerate {A} (l : list A) (i : nat) (a : A) :
  In (i, a) (enumerate l) <-> nth_error l i = Some a.
Proof.
  unfold enumerate. rewrite In_combine_seq, Nat.sub_0_r.
  split; [tauto|]. split; [lia|assumption].
Qed.

Lemma enumerate_snd {A} (l : list A) : map snd (enumerate l) = l.
Proof.
  unfold enumerate. generalize 0%nat.
  induction l as [|a l IH]; intros s; simpl; [reflexivity|]. now rewrite IH.
Qed.

Lemma In_enumerate_exists {A} (l : list A) (a : A) :
  In a l -> exists i, In (i, a) (enumerate l).
Proof.
  intros H. apply In_nth_error in H. destruct H as [i H].
  exists i. now apply In_enumerate.
Qed.

Lemma StronglySorted_of_map {A B} (R : B -> B -> Prop) (f : A -> B)
      (l : list A) :
  StronglySorted R (map f l) -> StronglySorted (fun a b => R (f a) (f b)) l.
Proof.
  induction l as [|a l IH]; simpl; intros H; [constructor|].
  inversion H as [|? ? Hs Hall]; subst. constructor; [auto|].
  rewrite Forall_map in Hall. exact Hall.
Qed.

Lemma StronglySorted_filter {A} (R : A -> A -> Prop) (f : A -> bool)
      (l : list A) :
  StronglySorted R l -> StronglySorted R (filter f l).
Proof.
  induction 1 as [|a l Hs IH Hall]; simpl; [constructor|].
  destruct (f a); [|assumption]. constructor; [assumption|].
  rewrite Forall_forall in *. intros x Hx. apply Hall.
  now apply filter_In in Hx.
Qed.

Lemma StronglySorted_after {A} (R : A -> A -> Prop) (pre post : list A)
      (x : A) :
  StronglySorted R (pre ++ x :: post) -> Forall (R x) post.
Proof.
  induction pre as [|a pre IH]; simpl; intros H;
    inversion H; subst; auto.
Qed.

(** [idxmax] keeps the first of the rows that hold the largest value: the
    rows before it are strictly smaller, the rows after it are not larger. *)
Lemma idx_fold_first (xs : list (nat * Qc)) (b : nat * Qc) :
  exists pre post,
    b :: xs = pre ++ fold_left idx_step xs b :: post /\
    Forall (fun y => (snd y < snd (fold_left idx_step xs b))%Qc) pre /\
    Forall (fun y => (snd y <= snd (fold_left idx_step xs b))%Qc) post.
Proof.
  revert b. induction xs as [|x xs IH]; intros b; simpl.
  - exists [], []. repeat split; constructor.
  - unfold idx_step at 2 4 6. destruct (Qcltb (snd b) (snd x)) eqn:E.
    + apply Qcltb_lt in E.
      destruct (IH x) as (pre & post & Heq & Hpre & Hpost).
      exists (b :: pre), post. split; [simpl; now rewrite <- Heq|].
      split; [|assumption]. constructor; [|assumption].
      destruct pre as [|p pre].
      * injection Heq as <- _. exact E.
      * injection Heq as <- _. inversion Hpre; subst.
        eapply Qclt_trans; eassumption.
    + apply Qcltb_ge in E.
      destruct (IH b) as (pre & post & Heq & Hpre & Hpost).
      destruct pre as [|p pre].
      * injection Heq as Hb Hxs. exists [], (x :: post).
        split; [simpl; now rewrite <- Hb, <- Hxs|].
        split; [constructor|]. constructor; [|assumption].
        now rewrite <- Hb.
      * injection Heq as Hb Hxs. subst p.
        inversion Hpre as [|? ? Hb Hpre']; subst.
        exists (b :: x :: pre), post.
        split; [simpl; now rewrite <- Hxs|].
        split; [|assumption].
        constructor; [assumption|]. constructor; [|assumption].
        eapply Qcle_lt_trans; eassumption.
Qed.

Lemma idxmax_first (g : list (nat * Qc)) :
  g <> [] ->
  exists pre x post,
    g = pre ++ x :: post /\ idxmax g = fst x /\
    Forall (fun y => (snd y < snd x)%Qc) pre /\
    Forall (fun y => (snd y <= snd x)%Qc) post.
Proof.
  destruct g as [|b xs]; [congruence|]. intros _.
  destruct (idx_fold_first xs b) as (pre & post & Heq & Hpre & Hpost).
  exists pre, (fold_left idx_step xs b), post. auto.
Qed.

Lemma climatology_keys (uv_monthly : list uv_monthly_row) :
  map (fun r => (cl_city r, cl_month r)) (climatology uv_monthly) =
  group_keys (map (fun r => (um_city r, um_month r)) uv_monthly).
Proof.
  unfold climatology, groupby. rewrite !map_map. simpl.
  etransitivity; [|apply map_id]. apply map_ext. now intros [c m].
Qed.

(** The climatology table is in ascending (city, month) order, one row per
    pair. *)
Lemma climatology_sorted (uv_monthly : list uv_monthly_row) :
  StronglySorted
    (fun a b => klt (cl_city a, cl_month a) (cl_city b, cl_month b))
    (climatology uv_monthly).
Proof.
  apply (@StronglySorted_of_map _ _ klt (fun r => (cl_city r, cl_month r))).
  rewrite climatology_keys. apply group_keys_sorted.
Qed.

Lemma peak_of_group (clim : list clim_row) (g : string * list (nat * clim_row)) :
  In g (groupby (fun ir => cl_city (snd ir)) (enumerate clim)) ->
  exists pre x post,
    snd g = pre ++ x :: post /\
    Forall (fun y => (mean_daily_max_uvi_clim (snd y)
                      < mean_daily_max_uvi_clim (snd x))%Qc) pre /\
    Forall (fun y => (mean_daily_max_uvi_clim (snd y)
                      <= mean_daily_max_uvi_clim (snd x))%Qc) post /\
    nth_error clim
      (idxmax (map (fun ir => (fst ir, mean_daily_max_uvi_clim (snd ir)))
                   (snd g))) = Some (snd x).
Proof.
  intros Hg. pose proof (group_nonempty _ _ _ Hg) as Hne.
  set (f := fun ir : nat * clim_row =>
              (fst ir, mean_daily_max_uvi_clim (snd ir))).
  destruct (@idxmax_first (map f (snd g))) as (pre & x & post & Heq & Hi & Hpre & Hpost).
  { destruct (snd g); [congruence | discriminate]. }
  apply map_eq_app in Heq. destruct Heq as (pre' & rest & Hsplit & <- & Hrest).
  apply map_eq_cons in Hrest. destruct Hrest as (x' & post' & -> & <- & <-).
  exists pre', x', post'. split; [assumption|].
  rewrite Forall_map in Hpre, Hpost. repeat split; try assumption.
  rewrite Hi. simpl. apply In_enumerate.
  apply In_groupby in Hg. destruct Hg as [_ Eg].
  assert (In x' (snd g)) as Hx by (rewrite Hsplit; apply in_elt).
  rewrite Eg in Hx. apply filter_In in Hx. destruct x'. tauto.
Qed.

Lemma In_peak_rows (clim : list clim_row) (p : peak_row) :
  In p (peak_rows clim) ->
  exists g pre x post,
    In g (groupby (fun ir => cl_city (snd ir)) (enumerate clim)) /\
    snd g = pre ++ x :: post /\
    Forall (fun y => (mean_daily_max_uvi_clim (snd y)
                      < mean_daily_max_uvi_clim (snd x))%Qc) pre /\
    Forall (fun y => (mean_daily_max_uvi_clim (snd y)
                      <= mean_daily_max_uvi_clim (snd x))%Qc) post /\
    p = {| pk_city := cl_city (snd x); peak_month := cl_month (snd x);
           peak_uvi := mean_daily_max_uvi_clim (snd x) |}.
Proof.
  unfold peak_rows, peak_index. rewrite in_flat_map.
  intros (i & Hi & Hp). apply in_map_iff in Hi. destruct Hi as (g & <- & Hg).
  destruct (peak_of_group _ _ Hg) as (pre & x & post & Hs & Hpre & Hpost & Hn).
  rewrite Hn in Hp. destruct Hp as [<-|[]].
  exists g, pre, x, post. auto.
Qed.

Lemma peak_rows_cover (clim : list clim_row) (r : clim_row) :
  In r clim -> exists p, In p (peak_rows clim) /\ pk_city p = cl_city r.
Proof.
  intros Hr.
  set (rows := enumerate clim).
  set (g := (cl_city r,
             filter (fun ir : nat * clim_row =>
                       keyb (cl_city (snd ir)) (cl_city r)) rows)).
  assert (In g (groupby (fun ir => cl_city (snd ir)) rows)) as Hg.
  { apply In_groupby. split; [|reflexivity]. simpl.
    destruct (In_enumerate_exists _ _ Hr) as [i Hi].
    apply in_map_iff. exists (i, r). auto. }
  destruct (peak_of_group _ _ Hg) as (pre & x & post & Hs & _ & _ & Hn).
  eexists. split.
  - unfold peak_rows, peak_index. apply in_flat_map.
    eexists. split; [apply in_map_iff; exists g; split; [reflexivity|exact Hg]|].
    rewrite Hn. now left.
  - simpl. assert (In x (snd g)) as Hx by (rewrite Hs; apply in_elt).
    simpl in Hx. apply filter_In in Hx. destruct Hx as [_ Hx].
    now apply keyb_true in Hx.
Qed.

Lemma klt_same_city (c : string) (m m' : Z) :
  klt (c, m) (c, m') -> (m < m')%Z.
Proof.
  unfold klt, cmp, Ord_pair. simpl.
  change (cmp c c) with (String.compare c c).
  rewrite string_compare_refl. apply Z.compare_lt_iff.
Qed.

(** C3: every city of the climatology table has a row in the peak table;
    the row is one of the city's climatology rows, holds the largest value
    of the city, and among the months that reach this value its month is
    the lowest. *)
Theorem peak_month_is_first_maximum (uv_monthly : list uv_monthly_row) :
  (forall r, In r (climatology uv_monthly) ->
     exists p, In p (peak_rows (climatology uv_monthly)) /\
               pk_city p = cl_city r) /\
  (forall p, In p (peak_rows (climatology uv_monthly)) ->
     (exists r, In r (climatology uv_monthly) /\ cl_city r = pk_city p /\
                cl_month r = peak_month p /\
                mean_daily_max_uvi_clim r = peak_uvi p) /\
     (forall r, In r (climatology uv_monthly) -> cl_city r = pk_city p ->
        (mean_daily_max_uvi_clim r <= peak_uvi p)%Qc /\
        (mean_daily_max_uvi_clim r = peak_uvi p ->
         (peak_month p <= cl_month r)%Z))).
Proof.
  set (clim := climatology uv_monthly).
  split; [intros r; apply peak_rows_cover|].
  intros p Hp.
  destruct (In_peak_rows _ _ Hp) as (g & pre & x & post & Hg & Hs & Hpre & Hpost & ->).
  simpl. pose proof Hg as Hg'. apply In_groupby in Hg'. destruct Hg' as [_ Eg].
  assert (Hmem : forall y, In y (snd g) <->
                           In y (enumerate clim) /\ cl_city (snd y) = fst g).
  { intros y. rewrite Eg, filter_In, keyb_true. reflexivity. }
  assert (Hx : In x (snd g)) by (rewrite Hs; apply in_elt).
  apply Hmem in Hx. destruct Hx as [Hx Hcx]. split.
  - exists (snd x). repeat split; try reflexivity.
    destruct x as [i r]. apply In_enumerate in Hx. now apply nth_error_In in Hx.
  - intros r Hr Hc.
    destruct (In_enumerate_exists _ _ Hr) as [i Hi].
    assert (In (i, r) (snd g)) as Hin.
    { apply Hmem. split; [assumption|]. simpl. congruence. }
    rewrite Hs in Hin. apply in_app_or in Hin.
    rewrite Forall_forall in Hpre, Hpost.
    destruct Hin as [Hin|[E|Hin]].
    + specialize (Hpre _ Hin). simpl in Hpre. split.
      * now apply Qclt_le_weak.
      * intros E. rewrite E in Hpre. now apply Qclt_not_eq in Hpre.
    + subst x. simpl. split; [apply Qcle_refl | lia].
    + split; [exact (Hpost _ Hin)|]. intros _.
      assert (StronglySorted
                (fun a b => klt (cl_city a, cl_month a) (cl_city b, cl_month b))
                (map snd (snd g))) as Hsorted.
      { rewrite Eg. unfold keyb.
        rewrite <- (filter_map_swap
                      (fun r => match cmp (cl_city r) (fst g) with
                                | Eq => true | _ => false end) snd).
        rewrite enumerate_snd.
        apply StronglySorted_filter, climatology_sorted. }
      rewrite Hs, map_app in Hsorted. simpl in Hsorted.
      apply StronglySorted_after in Hsorted.
      rewrite Forall_forall in Hsorted.
      specialize (Hsorted r (in_map snd _ _ Hin)). simpl in Hsorted.
      rewrite Hc in Hsorted. simpl in Hsorted.
      apply klt_same_city in Hsorted. lia.
Qed.

(** ** Every UV value stays between 0 and 25 *)

Lemma bind_returned {A B} (m : outcome A) (k : A -> outcome B) (b : B) :
  bind m k = Returned b -> exists a, m = Returned a /\ k a = Returned b.
Proof. destruct m as [a|e]; simpl; [eauto | discriminate]. Qed.

Lemma mapM_inv {A B} (f : A -> outcome B) (l : list A) (bs : list B) :
  mapM f l = Returned bs -> Forall2 (fun a b => f a = Returned b) l bs.
Proof.
  revert bs. induction l as [|a l IH]; simpl; intros bs H.
  - injection H as <-. constructor.
  - apply bind_returned in H. destruct H as (b & Hb & H).
    apply bind_returned in H. destruct H as (bs' & Hbs & H).
    injection H as <-. constructor; auto.
Qed.

Lemma Forall2_In_r {A B} (R : A -> B -> Prop) (l : list A) (l' : list B)
      (b : B) :
  Forall2 R l l' -> In b l' -> exists a, In a l /\ R a b.
Proof.
  induction 1 as [|a b' l l' Hab _ IH]; simpl; [contradiction|].
  intros [<-|Hin]; [eauto|]. destruct (IH Hin) as (a' & Ha' & HR). eauto.
Qed.

(** The mean of every group of a table whose values are in range is in
    range. *)
Lemma group_mean_in_range {K A} {O : Ord K} {L : OrdLaws K} (key : A -> K)
      (val : A -> Qc) (rows : list A) (g : K * list A) :
  (forall r, In r rows -> in_range (val r)) ->
  In g (groupby key rows) -> in_range (agg_mean (map val (snd g))).
Proof.
  intros Hrange Hg. pose proof (group_nonempty _ _ _ Hg) as Hne.
  apply In_groupby in Hg. destruct Hg as [_ Eg].
  apply agg_mean_bounds.
  - destruct (snd g); [congruence | discriminate].
  - apply Forall_forall. intros v Hv. apply in_map_iff in Hv.
    destruct Hv as (r & <- & Hr). apply Hrange.
    rewrite Eg in Hr. now apply filter_In in Hr.
Qed.

Lemma daily_max_in_range (df : list reading) (dr : daily_row) :
  (forall r, In r df -> in_range (r_uv r)) ->
  In dr (daily_max df) -> in_range (d_uv dr).
Proof.
  intros Hrange Hdr. destruct (daily_max_row _ _ Hdr) as [(r & Hr & _ & <-) _].
  now apply Hrange.
Qed.

Lemma monthly_mean_in_range (daily : list daily_row) (m : monthly_row) :
  (forall d, In d daily -> in_range (d_uv d)) ->
  In m (monthly_mean daily) -> in_range (mean_daily_max_uvi m).
Proof.
  unfold monthly_mean. intros Hrange Hm. apply in_map_iff in Hm.
  destruct Hm as (g & <- & Hg). simpl.
  eapply group_mean_in_range; eauto.
Qed.

Lemma climatology_in_range (uv_monthly : list uv_monthly_row) (c : clim_row) :
  (forall r, In r uv_monthly -> in_range (um_uvi r)) ->
  In c (climatology uv_monthly) -> in_range (mean_daily_max_uvi_clim c).
Proof.
  unfold climatology. intros Hrange Hc. apply in_map_iff in Hc.
  destruct Hc as (g & <- & Hg). simpl.
  eapply group_mean_in_range; eauto.
Qed.

Lemma annual_means_in_range (clim : list clim_row) (a : annual_row) :
  (forall c, In c clim -> in_range (mean_daily_max_uvi_clim c)) ->
  In a (annual_means clim) -> in_range (annual_mean_uvi a).
Proof.
  unfold annual_means. intros Hrange Ha. apply in_map_iff in Ha.
  destruct Ha as (g & <- & Hg). simpl.
  eapply group_mean_in_range; eauto.
Qed.

(** A row of the peak table is a row of the climatology table. *)
Lemma peak_row_in_clim (clim : list clim_row) (p : peak_row) :
  In p (peak_rows clim) ->
  exists r, In r clim /\ pk_city p = cl_city r /\ peak_month p = cl_month r /\
            peak_uvi p = mean_daily_max_uvi_clim r.
Proof.
  intros Hp.
  destruct (In_peak_rows _ _ Hp) as (g & pre & x & post & Hg & Hs & _ & _ & ->).
  exists (snd x). simpl. repeat split.
  apply In_groupby in Hg. destruct Hg as [_ Eg].
  assert (In x (snd g)) as Hx by (rewrite Hs; apply in_elt).
  rewrite Eg in Hx. apply filter_In in Hx. destruct Hx as [Hx _].
  destruct x as [i r]. apply In_enumerate in Hx. now apply nth_error_In in Hx.
Qed.

(** A row of the state summary carries the annual mean and the peak of its
    capital. *)
Lemma uv_state_metric_rows (clim : list clim_row) (rows : list uv_state_row)
      (u : uv_state_row) :
  uv_state_metric clim = Returned rows -> In u rows ->
  exists a p, In a (annual_means clim) /\ In p (peak_rows clim) /\
              an_city a = us_capital u /\ pk_city p = us_capital u /\
              us_annual_mean_uvi u = annual_mean_uvi a /\
              us_peak_month u = peak_month p /\ us_peak_uvi u = peak_uvi p.
Proof.
  unfold uv_state_metric. intros H Hu.
  apply bind_returned in H. destruct H as (rows0 & Hm & H).
  injection H as <-.
  apply (Permutation_in _ (sort_values_perm _ _)) in Hu.
  apply mapM_inv in Hm.
  destruct (Forall2_In_r _ Hm Hu) as ([a p] & Hap & Hst).
  unfold merge_annual_peak in Hap. apply in_flat_map in Hap.
  destruct Hap as (a' & Ha' & Hap). apply in_map_iff in Hap.
  destruct Hap as (p' & [= <- <-] & Hp'). apply filter_In in Hp'.
  destruct Hp' as [Hp' E]. apply String.eqb_eq in E.
  unfold state_of in Hst. cbn [fst snd] in Hst.
  destruct (dict_get CAP_TO_STATE (an_city a')) as [[code name]|];
    [|discriminate].
  injection Hst as <-. exists a', p'. cbn. auto 10.
Qed.

Section MainFacts.
Variable to_datetime : cell -> option timestamp.
Variable numeric_of_string : string -> option Qc.

#[local] Abbreviation parse_csv := (parse_uv_csv to_datetime numeric_of_string).
#[local] Abbreviation run_main := (main to_datetime numeric_of_string).

Lemma parse_uv_csv_in_range (df : frame) (raw : list reading) (r : reading) :
  parse_csv df = Returned raw -> In r raw -> in_range (r_uv r).
Proof.
  unfold parse_uv_csv.
  destruct (resolve_uv_col (columns df)) as [uv_col|]; [|discriminate].
  destruct (resolve_t_col (columns df)) as [t_col|]; [|discriminate].
  intros H Hr.
  apply bind_returned in H. destruct H as (it & _ & H).
  apply bind_returned in H. destruct H as (iu & _ & H).
  injection H as <-. rewrite parse_rows in Hr.
  apply in_flat_map in Hr. destruct Hr as (row & _ & Hr).
  apply In_row_reading in Hr. destruct Hr as (ts & _ & _ & H0 & H25 & _).
  now split.
Qed.

(** Every table [main] collects is the monthly table of one parsed file. *)
Lemma all_rows_tables (download : string -> list frame)
      (tables : list (list uv_monthly_row)) (t : list uv_monthly_row) :
  all_rows to_datetime numeric_of_string download = Returned tables ->
  In t tables ->
  exists city csv raw,
    In csv (download city) /\ parse_csv csv = Returned raw /\
    t = map (with_city city) (monthly_mean_of_daily_max raw).
Proof.
  unfold all_rows. intros H Ht.
  apply bind_returned in H. destruct H as (per_city & Hm & H).
  injection H as <-. apply in_concat in Ht. destruct Ht as (l & Hl & Ht).
  apply mapM_inv in Hm.
  destruct (Forall2_In_r _ Hm Hl) as (city & _ & Hc).
  unfold city_tables in Hc. apply mapM_inv in Hc.
  destruct (Forall2_In_r _ Hc Ht) as (csv & Hcsv & Hp).
  apply bind_returned in Hp. destruct Hp as (raw & Hraw & Hp).
  injection Hp as <-. exists city, csv, raw. auto.
Qed.

Lemma monthly_of_parsed_in_range (df : frame) (raw : list reading)
      (m : monthly_row) :
  parse_csv df = Returned raw ->
  In m (monthly_mean_of_daily_max raw) -> in_range (mean_daily_max_uvi m).
Proof.
  intros Hp. apply monthly_mean_in_range. intros d.
  apply daily_max_in_range. intros r. intros Hr. eapply parse_uv_csv_in_range; eassumption.
Qed.

(** C10: whatever is downloaded, every number of the UV pipeline lies
    between 0 and 25: the values [parse_uv_csv] returns, their daily maxima
    and monthly means, and, when [main] completes, every value of the
    monthly table, of the climatology and of the state summary (annual mean
    and peak). *)
Theorem uv_values_within_range (download : string -> list frame)
        (book : option frame) (out : outputs) :
  run_main download book = Returned out ->
  (forall csv raw, parse_csv csv = Returned raw ->
     (forall r, In r raw -> in_range (r_uv r)) /\
     (forall d, In d (daily_max raw) -> in_range (d_uv d)) /\
     (forall m, In m (monthly_mean_of_daily_max raw) ->
                in_range (mean_daily_max_uvi m))) /\
  (forall r, In r (uv_monthly_by_year out) -> in_range (um_uvi r)) /\
  (forall c, In c (uv_climatology_selected_years out) ->
             in_range (mean_daily_max_uvi_clim c)) /\
  (forall u, In u (uv_state_metric_csv out) ->
             in_range (us_annual_mean_uvi u) /\ in_range (us_peak_uvi u)).
Proof.
  intros Hmain. split.
  { intros csv raw Hp. split; [|split]; intros x Hx.
    - eapply parse_uv_csv_in_range; eassumption.
    - eapply daily_max_in_range; [|eassumption].
      intros r Hr. eapply parse_uv_csv_in_range; eassumption.
    - eapply monthly_of_parsed_in_range; eassumption. }
  unfold main in Hmain.
  apply bind_returned in Hmain. destruct Hmain as (tables & Hall & Hmain).
  set (uv_monthly := sort_values (fun r => (um_city r, (um_year r, um_month r)))
                                 (List.concat tables)) in *.
  assert (Hmonthly : forall r, In r uv_monthly -> in_range (um_uvi r)).
  { intros r Hr. apply In_sort_values in Hr. apply in_concat in Hr.
    destruct Hr as (t & Ht & Hr).
    eapply all_rows_tables in Ht; [|eassumption].
    destruct Ht as (city & csv & raw & _ & Hp & ->).
    apply in_map_iff in Hr. destruct Hr as (m & <- & Hm). simpl.
    eapply monthly_of_parsed_in_range; eassumption. }
  assert (Hclim : forall c, In c (climatology uv_monthly) ->
                            in_range (mean_daily_max_uvi_clim c)).
  { intros c. now apply climatology_in_range. }
  assert (Hstate : forall rows u,
             uv_state_metric (climatology uv_monthly) = Returned rows ->
             In u rows ->
             in_range (us_annual_mean_uvi u) /\ in_range (us_peak_uvi u)).
  { intros rows u Hrows Hu.
    eapply uv_state_metric_rows in Hu; [|eassumption].
    destruct Hu as (a & p & Ha & Hp & _ & _ & -> & _ & ->).
    split.
    - eapply annual_means_in_range; eassumption.
    - apply peak_row_in_clim in Hp.
      destruct Hp as (r & Hr & _ & _ & ->). auto. }
  destruct tables as [|t tables]; [discriminate|].
  apply bind_returned in Hmain. destruct Hmain as (uv_state & Hst & Hmain).
  destruct book as [sheet|].
  - apply bind_returned in Hmain. destruct Hmain as (ym & _ & Hmain).
    injection Hmain as <-. simpl. eauto.
  - injection Hmain as <-. simpl. eauto.
Qed.
End MainFacts.

(** * The script on concrete tables *)

Lemma scenario_daily_max_monthly_mean_witness :
  jan5 <> jan9 /\ year jan5 = year jan9 /\ month jan5 = month jan9 /\
  (Permutation (daily_max (scenario_readings jan5 jan9))
               (scenario_daily_max jan5 jan9) /\
   (klt jan5 jan9 ->
    daily_max (scenario_readings jan5 jan9) = scenario_daily_max jan5 jan9) /\
   monthly_mean_of_daily_max (scenario_readings jan5 jan9) =
   [ {| m_year := 2023; m_month := 1; mean_daily_max_uvi := Qc_of_Z 3 |} ]).
Proof.
  split; [discriminate|]. split; [reflexivity|]. split; [reflexivity|].
  apply (@scenario_daily_max_monthly_mean jan5 jan9);
    [discriminate | reflexivity | reflexivity].
Defined.

Lemma temporal_reduction_order_independent_witness :
  Permutation (scenario_readings jan5 jan9) (rev (scenario_readings jan5 jan9)) /\
  daily_max (scenario_readings jan5 jan9) =
  daily_max (rev (scenario_readings jan5 jan9)) /\
  monthly_mean_of_daily_max (scenario_readings jan5 jan9) =
  monthly_mean_of_daily_max (rev (scenario_readings jan5 jan9)).
Proof.
  split; [apply Permutation_rev|].
  pose proof (@temporal_reduction_order_independent
                (scenario_readings jan5 jan9)
                (rev (scenario_readings jan5 jan9))
                (Permutation_rev _)) as H.
  split; [exact (proj1 H) | exact (proj1 (proj2 H))].
Defined.

Lemma parse_uv_csv_keeps_plausible_rows_witness :
  resolve_uv_col (columns example_csv) = Some "UV_Index"%string /\
  resolve_t_col (columns example_csv) = Some "Date-Time"%string /\
  exists it iu,
    col_index "Date-Time" (columns example_csv) = Some it /\
    col_index "UV_Index" (columns example_csv) = Some iu /\
    parse_uv_csv example_to_datetime example_numeric_of_string example_csv =
    Returned (flat_map (row_reading example_to_datetime
                                    example_numeric_of_string it iu)
                       (rows example_csv)) /\
    forall r,
      In r (flat_map (row_reading example_to_datetime
                                  example_numeric_of_string it iu)
                     (rows example_csv)) <->
      exists row ts,
        In row (rows example_csv) /\
        example_to_datetime (cell_at it row) = Some ts /\
        to_numeric example_numeric_of_string (cell_at iu row) = Some (r_uv r) /\
        (0 <= r_uv r)%Qc /\ (r_uv r <= Qc_of_Z 25)%Qc /\
        r_date r = ts_date ts.
Proof.
  split; [reflexivity|]. split; [reflexivity|].
  apply (@parse_uv_csv_keeps_plausible_rows
           example_to_datetime example_numeric_of_string example_csv);
    reflexivity.
Defined.

(** On [example_csv] the reader keeps the first three rows and drops the
    unparseable date, the non-numeric value, 30 and -1. *)
Example parse_uv_csv_example :
  parse_uv_csv example_to_datetime example_numeric_of_string example_csv =
  Returned (scenario_readings jan5 jan9).
Proof. vm_compute. reflexivity. Qed.

(** C6 as the specification words it fails: in [max_uv_csv] the normalised name
    "maxuv" contains "uv" and "Date" is a candidate name, so both columns
    would be resolved and no error raised, yet the script raises. *)
Lemma max_uv_column_is_not_resolved :
  spec_resolve_uv_col (columns max_uv_csv) = Some "Max UV"%string /\
  resolve_t_col (columns max_uv_csv) = Some "Date"%string /\
  resolve_uv_col (columns max_uv_csv) = None /\
  parse_uv_csv example_to_datetime example_numeric_of_string max_uv_csv =
  Raised ValueError.
Proof. repeat split; reflexivity. Qed.

Lemma column_resolution_witness :
  first_key (columns example_csv) uv_keys = Some "UV_Index"%string /\
  resolve_uv_col (columns example_csv) = Some "UV_Index"%string.
Proof.
  split; [reflexivity|].
  apply (proj1 (proj2 (proj2 (@column_resolution
                                example_to_datetime example_numeric_of_string
                                example_csv)))).
  reflexivity.
Defined.

Lemma rate_column_selection_witness :
  (RATE_STANDARD = "2001"%string \/ RATE_STANDARD = "2025"%string) /\
  read_book7_filtered example_numeric_of_string example_book RATE_STANDARD =
  book7_with_rate_col example_numeric_of_string example_book
    "Age-standardised rate (2001 Australian Standard Population)".
Proof.
  split; [now left|].
  apply (proj2 (@rate_column_selection example_numeric_of_string example_book
                  RATE_STANDARD (or_introl eq_refl))
               [ "Data type"; "Cancer group/site"; "Year"; "Sex";
                 "State or Territory"; "Count" ]%string
               "Age-standardised rate (2001 Australian Standard Population)"%string
               [ "Age-standardised rate (2025 Australian population)" ]%string);
    try reflexivity.
  intros c' Hc' [H _]. simpl in Hc'.
  repeat (destruct Hc' as [<-|Hc']; [discriminate H|]). contradiction.
Defined.

Lemma read_book7_filtered_rows_witness :
  rate_cols example_book "2001" =
  [ "Age-standardised rate (2001 Australian Standard Population)"%string ] /\
  exists i_rate yearly,
    col_index "Age-standardised rate (2001 Australian Standard Population)"
              (columns example_book) = Some i_rate /\
    read_book7_filtered example_numeric_of_string example_book "2001" =
    Returned (yearly, five_year_mean yearly) /\
    Permutation yearly
      (map (stat_record example_numeric_of_string 2 4 i_rate 5)
           (filter (stat_keep example_numeric_of_string 0 1 3 2 4)
                   (rows example_book))) /\
    Sorted (key_le (fun r => (y_state_code r, y_year r))) yearly /\
    (forall row,
       stat_keep example_numeric_of_string 0 1 3 2 4 row = true <->
       cell_at 0 row = CStr "Incidence" /\
       cell_at 1 row = CStr "Melanoma of the skin" /\
       cell_at 3 row = CStr "Persons" /\
       (exists y, to_numeric example_numeric_of_string (cell_at 2 row) =
                  Some (Qc_of_Z y) /\ (2017 <= y <= 2021)%Z) /\
       cell_at 4 row <> CStr "Australia") /\
    (forall row y,
       to_numeric example_numeric_of_string (cell_at 2 row) = Some (Qc_of_Z y) ->
       (2017 <= y <= 2021)%Z ->
       stat_record example_numeric_of_string 2 4 i_rate 5 row =
       {| y_state_code := match cell_at 4 row with
                          | CStr name => dict_get NAME_TO_CODE name
                          | _ => None
                          end;
          y_state_name := cell_at 4 row;
          y_year := y;
          asr_per_100k := to_numeric example_numeric_of_string (cell_at i_rate row);
          y_count := to_numeric example_numeric_of_string (cell_at 5 row) |}).
Proof.
  split; [reflexivity|].
  apply (@read_book7_filtered_rows example_numeric_of_string example_book
           "2001" "Age-standardised rate (2001 Australian Standard Population)"
           [] 0 1 3 2 4 5); try reflexivity.
  intros row q Hrow _ _ _. simpl in Hrow.
  repeat (destruct Hrow as [<-|Hrow];
          [intros H; vm_compute in H;
           first [discriminate H
                 |injection H as <-; apply fits_Int64_iff; vm_compute;
                  reflexivity]|]).
  contradiction.
Defined.

(** The cast of the "Year" column at the edges of its domain. *)
Example as_Int64_example :
  as_Int64 (Some (Qc_of_Z 2017)) = Returned (Some 2017%Z) /\
  as_Int64 None = Returned None /\
  as_Int64 (Some (Q2Qc (4035 # 2))) = Raised TypeError /\
  as_Int64 (Some (Qc_of_Z (2 ^ 63 - 1))) = Returned (Some (2 ^ 63 - 1)%Z) /\
  as_Int64 (Some (Qc_of_Z (2 ^ 63))) = Raised TypeError.
Proof. repeat split. Qed.

(** The yearly table of [example_book]: the two Victorian rows, 2017 first. *)
Example read_book7_filtered_example :
  match read_book7_filtered example_numeric_of_string example_book "2001" with
  | Returned (yearly, mean) =>
      map (fun r => (y_state_code r, y_year r)) yearly =
      [ (Some "VIC"%string, 2017%Z); (Some "VIC"%string, 2018%Z) ] /\
      map (fun r => (mn_state_code r, option_map this (asr_2017_2021_mean r),
                     this (count_sum r))) mean =
      [ ("VIC"%string, Some (15 # 1), 20 # 1) ]
  | Raised _ => False
  end.
Proof. vm_compute. split; reflexivity. Qed.

Lemma uv_values_within_range_witness :
  main example_to_datetime example_numeric_of_string example_download
       (Some example_book) = Returned example_outputs /\
  (forall u, In u (uv_state_metric_csv example_outputs) ->
             in_range (us_annual_mean_uvi u) /\ in_range (us_peak_uvi u)).
Proof.
  assert (main example_to_datetime example_numeric_of_string example_download
               (Some example_book) = Returned example_outputs) as H
    by (vm_compute; reflexivity).
  split; [exact H|].
  exact (proj2 (proj2 (proj2 (@uv_values_within_range
                                example_to_datetime example_numeric_of_string
                                example_download (Some example_book)
                                example_outputs H)))).
Defined.

(** With January and February tied at 9, the peak month is January. *)
Example peak_month_tie_example :
  map (fun p => (pk_city p, peak_month p)) (peak_rows (climatology tie_monthly)) =
  [ ("Sydney"%string, 1%Z) ].
Proof. vm_compute. reflexivity. Qed.

Lemma peak_month_is_first_maximum_witness :
  In {| cl_city := "Sydney"; cl_month := 1;
        mean_daily_max_uvi_clim := Qc_of_Z 9 |} (climatology tie_monthly) /\
  exists p, In p (peak_rows (climatology tie_monthly)) /\
            pk_city p = "Sydney"%string.
Proof.
  assert (In {| cl_city := "Sydney"; cl_month := 1;
                mean_daily_max_uvi_clim := Qc_of_Z 9 |}
             (climatology tie_monthly)) as H.
  { vm_compute. left. reflexivity. }
  split; [exact H|].
  exact (proj1 (peak_month_is_first_maximum tie_monthly) _ H).
Defined.

(** * Further properties of the script *)

(** ** Header normalisation *)

Lemma lower_alnum_fixed (a : ascii) :
  is_lower_alnum a = true -> lower a = a.
Proof.
  destruct a as [[] [] [] [] [] [] [] []]; vm_compute; congruence.
Qed.

Lemma norm_app (s1 s2 : string) :
  norm (s1 ++ s2) = (norm s1 ++ norm s2)%string.
Proof.
  induction s1 as [|a s1 IH]; simpl; [reflexivity|].
  destruct (is_lower_alnum (lower a)); simpl; now rewrite IH.
Qed.

Lemma norm_chars (s : string) :
  Forall (fun a => is_lower_alnum a = true) (list_ascii_of_string (norm s)).
Proof.
  induction s as [|a s IH]; simpl; [constructor|].
  destruct (is_lower_alnum (lower a)) eqn:E; simpl; [|exact IH].
  now constructor.
Qed.

Lemma norm_fixed (s : string) :
  Forall (fun a => is_lower_alnum a = true) (list_ascii_of_string s) ->
  norm s = s.
Proof.
  induction s as [|a s IH]; simpl; [reflexivity|].
  intros H. inversion H as [|? ? Ha Hs]; subst.
  rewrite (lower_alnum_fixed _ Ha), Ha. f_equal. now apply IH.
Qed.

Lemma lower_of_upper (a : ascii) :
  (65 <= N_of_ascii a <= 90)%N ->
  lower (ascii_of_N (N_of_ascii a + 32)) = lower a.
Proof.
  destruct a as [[] [] [] [] [] [] [] []]; vm_compute;
    intros [H1 H2];
    first [reflexivity | now exfalso; apply H1 | now exfalso; apply H2].
Qed.

Lemma not_alnum_dropped (a : ascii) :
  ~ ((48 <= N_of_ascii a <= 57)%N \/ (65 <= N_of_ascii a <= 90)%N \/
     (97 <= N_of_ascii a <= 122)%N) ->
  is_lower_alnum (lower a) = false.
Proof.
  destruct a as [[] [] [] [] [] [] [] []]; vm_compute; intros H;
    first [reflexivity
          | exfalso; apply H; left; split; discriminate
          | exfalso; apply H; right; left; split; discriminate
          | exfalso; apply H; right; right; split; discriminate].
Qed.

Lemma norm_alphabet (s : string) :
  Forall (fun c => (48 <= N_of_ascii c <= 57)%N \/
                   (97 <= N_of_ascii c <= 122)%N)
         (list_ascii_of_string (norm s)).
Proof.
  eapply Forall_impl; [|apply norm_chars]. intros c. unfold is_lower_alnum.
  rewrite orb_true_iff, !andb_true_iff, !N.leb_le. tauto.
Qed.

(** X1: [norm] leaves only the characters a-z and 0-9 (the codes 97 to 122
    and 48 to 57), is idempotent, and distributes over concatenation.
    Headers that differ in case, spacing or punctuation get the same
    normalised name: putting the lower-case letter for an upper-case one
    (codes 65 to 90) anywhere in a header does not change its normalised
    name, and neither does deleting a character that is no letter and no
    digit. *)
Theorem norm_is_a_normal_form (s s' : string) (a : ascii) :
  Forall (fun c => is_lower_alnum c = true) (list_ascii_of_string (norm s)) /\
  Forall (fun c => (48 <= N_of_ascii c <= 57)%N \/
                   (97 <= N_of_ascii c <= 122)%N)
         (list_ascii_of_string (norm s)) /\
  norm (norm s) = norm s /\
  norm (s ++ s') = (norm s ++ norm s')%string /\
  ((65 <= N_of_ascii a <= 90)%N ->
   norm (s ++ String a s') =
   norm (s ++ String (ascii_of_N (N_of_ascii a + 32)) s')) /\
  (~ ((48 <= N_of_ascii a <= 57)%N \/ (65 <= N_of_ascii a <= 90)%N \/
      (97 <= N_of_ascii a <= 122)%N) ->
   norm (s ++ String a s') = norm (s ++ s')).
Proof.
  split; [apply norm_chars|]. split; [apply norm_alphabet|].
  split; [apply norm_fixed, norm_chars|]. split; [apply norm_app|].
  split; intros H; rewrite !norm_app; f_equal; cbn [norm].
  - now rewrite (lower_of_upper _ H).
  - now rewrite (not_alnum_dropped _ H).
Qed.

(** Three spellings of one header. *)
Example norm_example :
  norm "UV Index" = "uvindex"%string /\
  norm "uv_index" = "uvindex"%string /\
  norm "Uv-Index (max.)" = "uvindexmax"%string.
Proof. repeat split. Qed.

Lemma uv_keys_start_with_uv :
  Forall (fun key => startswith key "uv" = true) uv_keys.
Proof. repeat constructor. Qed.

(** X2: the value column stays unresolved exactly when no header normalises
    to a name that starts with "uv": every candidate name starts with "uv"
    itself, so the candidate list never finds a column the prefix rule
    would miss. *)
Theorem uv_column_unresolved_iff (cols : list string) :
  resolve_uv_col cols = None <->
  forall c, In c cols -> startswith (norm c) "uv" = false.
Proof.
  unfold resolve_uv_col, uv_guess. split.
  - destruct (first_key cols uv_keys); [discriminate|].
    rewrite hd_error_filter. apply find_none.
  - intros H.
    assert (first_key cols uv_keys = None) as ->.
    { apply first_key_none. intros c Hc Hin.
      pose proof uv_keys_start_with_uv as Hall.
      rewrite Forall_forall in Hall. specialize (Hall _ Hin).
      rewrite (H c Hc) in Hall. discriminate. }
    rewrite hd_error_filter. now apply find_none_iff.
Qed.

Lemma find_norm (f : string -> bool) (cols : list string) :
  option_map norm (find (fun c => f (norm c)) cols) = find f (map norm cols).
Proof.
  induction cols as [|c cols IH]; simpl; [reflexivity|].
  now destruct (f (norm c)).
Qed.

Lemma inv_get_norm (cols : list string) (key : string) :
  option_map norm (inv_get cols key) =
  find (fun n => String.eqb n key) (rev (map norm cols)).
Proof.
  unfold inv_get. rewrite <- map_rev.
  apply (find_norm (fun n => String.eqb n key)).
Qed.

Lemma first_key_norm (cols cols' keys : list string) :
  map norm cols = map norm cols' ->
  option_map norm (first_key cols keys) = option_map norm (first_key cols' keys).
Proof.
  intros E. induction keys as [|key keys IH]; simpl; [reflexivity|].
  pose proof (inv_get_norm cols key) as H1.
  pose proof (inv_get_norm cols' key) as H2.
  rewrite E, <- H2 in H1.
  destruct (inv_get cols key), (inv_get cols' key); simpl in *;
    try discriminate; assumption.
Qed.

Lemma resolve_uv_col_norm (cols cols' : list string) :
  map norm cols = map norm cols' ->
  option_map norm (resolve_uv_col cols) = option_map norm (resolve_uv_col cols').
Proof.
  intros E. unfold resolve_uv_col, uv_guess.
  pose proof (@first_key_norm cols cols' uv_keys E) as Hk.
  destruct (first_key cols uv_keys) eqn:E1;
    destruct (first_key cols' uv_keys) eqn:E2; try discriminate; [assumption|].
  rewrite !hd_error_filter.
  rewrite !(find_norm (fun n => startswith n "uv")). now rewrite E.
Qed.

Lemma resolve_t_col_norm (cols cols' : list string) :
  map norm cols = map norm cols' ->
  option_map norm (resolve_t_col cols) = option_map norm (resolve_t_col cols').
Proof.
  intros E. unfold resolve_t_col, maybe.
  pose proof (@first_key_norm cols cols' t_keys E) as Hk.
  destruct (first_key cols t_keys) eqn:E1;
    destruct (first_key cols' t_keys) eqn:E2; try discriminate; [assumption|].
  rewrite !hd_error_filter.
  rewrite !(find_norm (fun n => contains "time" n || contains "date" n)).
  now rewrite E.
Qed.

Section HeaderSpelling.
Variable to_datetime : cell -> option timestamp.
Variable numeric_of_string : string -> option Qc.

(** X3: column resolution sees the headers only through their normalised
    names.  Two files whose headers normalise alike resolve to columns of
    the same normalised name, and [parse_uv_csv] raises its [ValueError] on
    one exactly when it does on the other. *)
Theorem resolution_ignores_header_spelling (df df' : frame) :
  map norm (columns df) = map norm (columns df') ->
  option_map norm (resolve_uv_col (columns df)) =
  option_map norm (resolve_uv_col (columns df')) /\
  option_map norm (resolve_t_col (columns df)) =
  option_map norm (resolve_t_col (columns df')) /\
  (parse_uv_csv to_datetime numeric_of_string df = Raised ValueError <->
   parse_uv_csv to_datetime numeric_of_string df' = Raised ValueError).
Proof.
  intros E. pose proof (@resolve_uv_col_norm _ _ E) as Hu.
  pose proof (@resolve_t_col_norm _ _ E) as Ht.
  split; [exact Hu|]. split; [exact Ht|].
  unfold parse_uv_csv.
  destruct (resolve_uv_col (columns df)) as [u|] eqn:Eu;
    destruct (resolve_uv_col (columns df')) as [u'|] eqn:Eu';
    try discriminate; [|tauto].
  destruct (resolve_t_col (columns df)) as [t|] eqn:Et;
    destruct (resolve_t_col (columns df')) as [t'|] eqn:Et';
    try discriminate; [|tauto].
  destruct (col_index_In _ _ (resolve_t_col_In _ Et)) as [it Eit].
  destruct (col_index_In _ _ (resolve_uv_col_In _ Eu)) as [iu Eiu].
  destruct (col_index_In _ _ (resolve_t_col_In _ Et')) as [it' Eit'].
  destruct (col_index_In _ _ (resolve_uv_col_In _ Eu')) as [iu' Eiu'].
  unfold col_pos. rewrite Eit, Eiu, Eit', Eiu'. simpl.
  split; discriminate.
Qed.
End HeaderSpelling.

(** ** The months of the monthly table *)

Lemma monthly_mean_keys (daily : list daily_row) :
  map (fun m => (m_year m, m_month m)) (monthly_mean daily) =
  group_keys (map (fun d => (year (d_date d), month (d_date d))) daily).
Proof.
  unfold monthly_mean, groupby. rewrite !map_map. simpl.
  etransitivity; [|apply map_id]. apply map_ext. now intros [y m].
Qed.

(** X4: the monthly table has one row for every (year, month) in which
    some reading falls and no other row, in ascending (year, month) order;
    in particular no readings give no rows. *)
Theorem monthly_rows_are_the_months_read (df : list reading) :
  map (fun m => (m_year m, m_month m)) (monthly_mean_of_daily_max df) =
  group_keys (map (fun r => (year (r_date r), month (r_date r))) df) /\
  StronglySorted klt
    (map (fun m => (m_year m, m_month m)) (monthly_mean_of_daily_max df)) /\
  (forall y m,
     In (y, m) (map (fun m => (m_year m, m_month m))
                    (monthly_mean_of_daily_max df)) <->
     exists r, In r df /\ year (r_date r) = y /\ month (r_date r) = m).
Proof.
  assert (E : map (fun m => (m_year m, m_month m))
                  (monthly_mean_of_daily_max df) =
              group_keys (map (fun r => (year (r_date r), month (r_date r)))
                              df)).
  { unfold monthly_mean_of_daily_max. rewrite monthly_mean_keys.
    apply group_keys_same. intros [y m]. rewrite !in_map_iff. split.
    - intros (d & [= <- <-] & Hd).
      destruct (daily_max_row _ _ Hd) as [(r & Hr & Ed & _) _].
      exists r. rewrite Ed. auto.
    - intros (r & [= <- <-] & Hr).
      destruct (daily_max_covers _ _ Hr) as (d & Hd & Ed).
      exists d. rewrite Ed. auto. }
  split; [exact E|]. split.
  - rewrite E. apply group_keys_sorted.
  - intros y m. rewrite E, group_keys_In, in_map_iff. split.
    + intros (r & [= <- <-] & Hr). eauto.
    + intros (r & Hr & <- & <-). eauto.
Qed.

(** ** The climatology *)

(** The mean of a non-empty group whose values are all [v] is [v]. *)
Lemma agg_mean_const (v : Qc) (l : list Qc) :
  l <> [] -> Forall (fun x => x = v) l -> agg_mean l = v.
Proof.
  intros Hne Hall.
  assert (Forall (fun x => (v <= x)%Qc /\ (x <= v)%Qc) l) as Hb.
  { eapply Forall_impl; [|exact Hall]. intros x ->.
    split; apply Qcle_refl. }
  destruct (agg_mean_bounds Hne Hb). now apply Qcle_antisym.
Qed.

(** X5: a (city, month) that a single monthly row reports, as when one
    year was selected, keeps the value of that row in the climatology: the
    average runs over the rows that are present and imputes nothing. *)
Theorem climatology_of_single_year (uv_monthly : list uv_monthly_row)
        (r : uv_monthly_row) :
  filter (fun x => String.eqb (um_city x) (um_city r)
                   && Z.eqb (um_month x) (um_month r)) uv_monthly = [r] ->
  In {| cl_city := um_city r; cl_month := um_month r;
        mean_daily_max_uvi_clim := um_uvi r |}
     (climatology uv_monthly).
Proof.
  intros H.
  assert (filter (fun x => keyb (um_city x, um_month x) (um_city r, um_month r))
                 uv_monthly = [r]) as Hg.
  { rewrite <- H. apply filter_ext. intros x. apply eq_true_iff_eq.
    rewrite keyb_true, andb_true_iff, String.eqb_eq, Z.eqb_eq.
    split; [intros [= -> ->]; auto | intros [-> ->]; reflexivity]. }
  assert (In r uv_monthly) as Hr.
  { assert (In r [r]) as Hin by now left.
    rewrite <- H in Hin. now apply filter_In in Hin. }
  unfold climatology. apply in_map_iff.
  exists ((um_city r, um_month r),
          filter (fun x => keyb (um_city x, um_month x) (um_city r, um_month r))
                 uv_monthly).
  split.
  - rewrite Hg. cbn [fst snd map]. f_equal.
    apply agg_mean_const; [discriminate | repeat constructor].
  - apply In_groupby. cbn [fst snd]. split; [|reflexivity].
    apply in_map_iff. exists r. auto.
Qed.

(** ** The state summary *)

Lemma annual_means_cities (clim : list clim_row) :
  map an_city (annual_means clim) = group_keys (map cl_city clim).
Proof.
  unfold annual_means. rewrite map_map. simpl. apply groupby_keys.
Qed.

Lemma flat_map_singletons {A B C} (body : A -> list B) (f : B -> C)
      (k : A -> C) (l : list A) :
  (forall a, In a l -> exists b, body a = [b] /\ f b = k a) ->
  map f (flat_map body l) = map k l.
Proof.
  induction l as [|a l IH]; simpl; intros H; [reflexivity|].
  destruct (H a (or_introl eq_refl)) as (b & -> & <-). simpl.
  f_equal. apply IH. auto.
Qed.

Lemma peak_rows_cities (clim : list clim_row) :
  map pk_city (peak_rows clim) = group_keys (map cl_city clim).
Proof.
  unfold peak_rows, peak_index. rewrite flat_map_concat_map, map_map.
  rewrite <- flat_map_concat_map.
  rewrite (flat_map_singletons _ pk_city fst).
  - rewrite groupby_keys, <- (map_map snd cl_city), enumerate_snd. reflexivity.
  - intros g Hg.
    destruct (peak_of_group _ _ Hg) as (pre & x & post & Hs & _ & _ & Hn).
    rewrite Hn. eexists. split; [reflexivity|]. simpl.
    apply In_groupby in Hg. destruct Hg as [_ Eg].
    assert (In x (snd g)) as Hx by (rewrite Hs; apply in_elt).
    rewrite Eg in Hx. apply filter_In in Hx. destruct Hx as [_ Hx].
    now apply keyb_true in Hx.
Qed.

Lemma merge_annual_peak_cities (annual : list annual_row)
      (peak : list peak_row) :
  NoDup (map pk_city peak) ->
  (forall a, In a annual -> In (an_city a) (map pk_city peak)) ->
  map (fun ap => an_city (fst ap)) (merge_annual_peak annual peak) =
  map an_city annual.
Proof.
  intros Hnd Hin. unfold merge_annual_peak.
  apply flat_map_singletons. intros a Ha.
  pose proof (length_filter_code pk_city (an_city a) peak) as Hlen.
  rewrite (proj1 (NoDup_count_occ' string_dec _) Hnd _ (Hin a Ha)) in Hlen.
  destruct (filter (fun p => String.eqb (pk_city p) (an_city a)) peak)
    as [|p [|p' l]]; try discriminate.
  exists (a, p). auto.
Qed.

Lemma merged_cities (clim : list clim_row) :
  map (fun ap => an_city (fst ap))
      (merge_annual_peak (annual_means clim) (peak_rows clim)) =
  group_keys (map cl_city clim).
Proof.
  rewrite merge_annual_peak_cities.
  - apply annual_means_cities.
  - rewrite peak_rows_cities. apply sorted_NoDup, group_keys_sorted.
  - intros a Ha. rewrite peak_rows_cities, <- annual_means_cities.
    now apply in_map.
Qed.

Lemma state_of_raised (ap : annual_row * peak_row) (e : exn) :
  state_of ap = Raised e ->
  e = KeyError /\ dict_get CAP_TO_STATE (an_city (fst ap)) = None.
Proof.
  unfold state_of.
  destruct (dict_get CAP_TO_STATE (an_city (fst ap))) as [[c n]|];
    [discriminate|]. intros [= <-]. auto.
Qed.

Lemma state_of_returned (ap : annual_row * peak_row) (u : uv_state_row) :
  state_of ap = Returned u ->
  us_capital u = an_city (fst ap) /\
  dict_get CAP_TO_STATE (us_capital u) = Some (us_state_code u, us_state_name u).
Proof.
  unfold state_of.
  destruct (dict_get CAP_TO_STATE (an_city (fst ap))) as [[c n]|] eqn:E;
    [|discriminate]. intros [= <-]. simpl. auto.
Qed.

Lemma Forall2_map_eq {A B C} (R : A -> B -> Prop) (f : A -> C) (g : B -> C)
      (l : list A) (l' : list B) :
  (forall a b, R a b -> g b = f a) -> Forall2 R l l' -> map g l' = map f l.
Proof.
  intros H. induction 1; simpl; [reflexivity|]. f_equal; auto.
Qed.

Lemma Forall2_In_l {A B} (R : A -> B -> Prop) (l : list A) (l' : list B)
      (a : A) :
  Forall2 R l l' -> In a l -> exists b, In b l' /\ R a b.
Proof.
  induction 1 as [|a' b l l' Hab _ IH]; simpl; [contradiction|].
  intros [<-|Hin]; [eauto|]. destruct (IH Hin) as (b' & Hb' & HR). eauto.
Qed.

Lemma uv_state_metric_raised (clim : list clim_row) (e : exn) :
  uv_state_metric clim = Raised e ->
  e = KeyError /\
  exists r, In r clim /\ dict_get CAP_TO_STATE (cl_city r) = None.
Proof.
  unfold uv_state_metric. intros H. apply bind_raised in H.
  destruct H as [H|(? & _ & H)]; [|discriminate].
  apply mapM_raised in H. destruct H as (ap & Hap & H).
  apply state_of_raised in H. destruct H as [-> Hnone]. split; [reflexivity|].
  assert (In (an_city (fst ap)) (group_keys (map cl_city clim))) as Hin
    by (rewrite <- merged_cities;
        now apply (in_map (fun ap => an_city (fst ap)))).
  apply group_keys_In, in_map_iff in Hin. destruct Hin as (r & Er & Hr).
  exists r. rewrite Er. auto.
Qed.

Lemma uv_state_metric_returned (clim : list clim_row)
      (rows : list uv_state_row) :
  uv_state_metric clim = Returned rows ->
  Permutation (map us_capital rows) (group_keys (map cl_city clim)) /\
  forall u, In u rows ->
    dict_get CAP_TO_STATE (us_capital u) =
    Some (us_state_code u, us_state_name u).
Proof.
  unfold uv_state_metric. intros H.
  apply bind_returned in H. destruct H as (rows0 & Em & H).
  injection H as <-. apply mapM_inv in Em. split.
  - rewrite <- merged_cities.
    rewrite <- (Forall2_map_eq (fun ap => an_city (fst ap)) us_capital
                               (fun ap u H => proj1 (state_of_returned ap H))
                               Em).
    apply Permutation_map, sort_values_perm.
  - intros u Hu. apply In_sort_values in Hu.
    destruct (Forall2_In_r _ Em Hu) as (ap & _ & Hst).
    now apply state_of_returned in Hst.
Qed.

(** X6: the state summary has one row for each city of the climatology,
    carrying the state code and name [CAP_TO_STATE] gives the city; building
    it fails, with [KeyError], exactly when some city of the climatology is
    not a key of [CAP_TO_STATE]. *)
Theorem state_summary_one_row_per_city (clim : list clim_row) :
  (uv_state_metric clim = Raised KeyError <->
   exists r, In r clim /\ dict_get CAP_TO_STATE (cl_city r) = None) /\
  (forall e, uv_state_metric clim = Raised e -> e = KeyError) /\
  (forall rows, uv_state_metric clim = Returned rows ->
     Permutation (map us_capital rows) (group_keys (map cl_city clim)) /\
     forall u, In u rows ->
       dict_get CAP_TO_STATE (us_capital u) =
       Some (us_state_code u, us_state_name u)).
Proof.
  split; [split|split].
  - intros H. now apply uv_state_metric_raised in H.
  - intros (r & Hr & Hnone).
    destruct (uv_state_metric clim) as [rows|e] eqn:E.
    + exfalso. apply uv_state_metric_returned in E. destruct E as [P Hd].
      assert (In (cl_city r) (map us_capital rows)) as Hin.
      { eapply Permutation_in; [symmetry; exact P|].
        apply group_keys_In. now apply in_map. }
      apply in_map_iff in Hin. destruct Hin as (u & Eu & Hu).
      specialize (Hd u Hu). rewrite Eu, Hnone in Hd. discriminate.
    + f_equal. now apply uv_state_metric_raised in E.
  - intros e H. now apply uv_state_metric_raised in H.
  - apply uv_state_metric_returned.
Qed.

(** ** main: how it fails and what it returns *)

Lemma packages_are_capitals (city : string) :
  In city (map fst PACKAGES) -> dict_get CAP_TO_STATE city <> None.
Proof.
  simpl. intros H.
  repeat (destruct H as [<-|H]; [discriminate|]). contradiction.
Qed.

Lemma mapM_all_returned {A B} (f : A -> outcome B) (l : list A)
      (bs : list B) (a : A) :
  mapM f l = Returned bs -> In a l -> exists b, In b bs /\ f a = Returned b.
Proof.
  intros H Ha. apply mapM_inv in H. exact (Forall2_In_l _ H Ha).
Qed.

Lemma mapM_length {A B} (f : A -> outcome B) (l : list A) (bs : list B) :
  mapM f l = Returned bs -> List.length bs = List.length l.
Proof.
  intros H. apply mapM_inv in H. symmetry. exact (Forall2_length H).
Qed.

Section MainBehaviour.
Variable to_datetime : cell -> option timestamp.
Variable numeric_of_string : string -> option Qc.

#[local] Abbreviation parse_file := (parse_uv_csv to_datetime numeric_of_string).
#[local] Abbreviation collect := (all_rows to_datetime numeric_of_string).
#[local] Abbreviation tables_of := (city_tables to_datetime numeric_of_string).
#[local] Abbreviation run := (main to_datetime numeric_of_string).
#[local] Abbreviation read_book := (read_book7_filtered numeric_of_string).

(** [parse_uv_csv] has one way to fail. *)
Lemma parse_uv_csv_raised (df : frame) (e : exn) :
  parse_file df = Raised e -> e = ValueError.
Proof.
  unfold parse_uv_csv.
  destruct (resolve_uv_col (columns df)) as [uv_col|] eqn:Eu;
    [|now intros [= <-]].
  destruct (resolve_t_col (columns df)) as [t_col|] eqn:Et;
    [|now intros [= <-]].
  destruct (col_index_In _ _ (resolve_t_col_In _ Et)) as [it Eit].
  destruct (col_index_In _ _ (resolve_uv_col_In _ Eu)) as [iu Eiu].
  unfold col_pos. rewrite Eit, Eiu. discriminate.
Qed.

Lemma city_tables_raised (download : string -> list frame) (city : string)
      (e : exn) :
  tables_of download city = Raised e ->
  e = ValueError /\
  exists csv, In csv (download city) /\ parse_file csv = Raised ValueError.
Proof.
  unfold city_tables. intros H. apply mapM_raised in H.
  destruct H as (csv & Hcsv & H). apply bind_raised in H.
  destruct H as [H|(? & _ & H)]; [|discriminate].
  pose proof (parse_uv_csv_raised _ H) as ->. eauto.
Qed.

Lemma all_rows_raised (download : string -> list frame) (e : exn) :
  collect download = Raised e ->
  e = ValueError /\
  exists city csv, In city (map fst PACKAGES) /\ In csv (download city) /\
                   parse_file csv = Raised ValueError.
Proof.
  unfold all_rows. intros H. apply bind_raised in H.
  destruct H as [H|(? & _ & H)]; [|discriminate].
  apply mapM_raised in H. destruct H as (city & Hcity & H).
  apply city_tables_raised in H. destruct H as (-> & csv & Hcsv & Hp). eauto 6.
Qed.

(** A file that cannot be parsed makes the whole collection fail. *)
Lemma all_rows_blocked (download : string -> list frame) (city : string)
      (csv : frame) (e : exn) :
  In city (map fst PACKAGES) -> In csv (download city) ->
  parse_file csv = Raised e -> exists e', collect download = Raised e'.
Proof.
  intros Hcity Hcsv Hp. unfold all_rows.
  destruct (mapM (tables_of download) (map fst PACKAGES)) as [per_city|e']
    eqn:Em; [|simpl; eauto].
  exfalso. eapply mapM_all_returned in Hcity; [|exact Em].
  destruct Hcity as (ts & _ & Hts). unfold city_tables in Hts.
  eapply mapM_all_returned in Hcsv; [|exact Hts].
  destruct Hcsv as (t & _ & Ht). rewrite Hp in Ht. discriminate.
Qed.

Lemma all_rows_tables_city (download : string -> list frame)
      (tables : list (list uv_monthly_row)) (t : list uv_monthly_row) :
  collect download = Returned tables -> In t tables ->
  exists city csv raw,
    In city (map fst PACKAGES) /\ In csv (download city) /\
    parse_file csv = Returned raw /\
    t = map (with_city city) (monthly_mean_of_daily_max raw).
Proof.
  unfold all_rows. intros H Ht.
  apply bind_returned in H. destruct H as (per_city & Hm & H).
  injection H as <-. apply in_concat in Ht. destruct Ht as (l & Hl & Ht).
  apply mapM_inv in Hm.
  destruct (Forall2_In_r _ Hm Hl) as (city & Hcity & Hc).
  unfold city_tables in Hc. apply mapM_inv in Hc.
  destruct (Forall2_In_r _ Hc Ht) as (csv & Hcsv & Hp).
  apply bind_returned in Hp. destruct Hp as (raw & Hraw & Hp).
  injection Hp as <-. exists city, csv, raw. auto.
Qed.

(** Nothing is collected exactly when no city has a file. *)
Lemma all_rows_empty (download : string -> list frame) :
  collect download = Returned [] <->
  forall city, In city (map fst PACKAGES) -> download city = [].
Proof.
  unfold all_rows. split.
  - intros H city Hcity.
    apply bind_returned in H. destruct H as (per_city & Hm & H).
    injection H as Hnil.
    eapply mapM_all_returned in Hcity; [|exact Hm].
    destruct Hcity as (ts & Hts & Hc).
    assert (ts = []) as ->.
    { destruct ts as [|t ts]; [reflexivity|]. exfalso.
      assert (In t (List.concat per_city)) as Hin
        by (apply in_concat; exists (t :: ts); split; [assumption|now left]).
      now rewrite Hnil in Hin. }
    unfold city_tables in Hc. apply mapM_length in Hc.
    destruct (download city); [reflexivity | discriminate].
  - intros H.
    rewrite (mapM_returned _ (fun _ => [])).
    + reflexivity.
    + intros city Hcity. unfold city_tables. now rewrite (H city Hcity).
Qed.

(** The cities of the collected rows are keys of [PACKAGES], so
    [CAP_TO_STATE] knows them and the state summary is built. *)
Lemma collected_state_summary (download : string -> list frame)
      (tables : list (list uv_monthly_row)) :
  collect download = Returned tables ->
  exists uv_state,
    uv_state_metric
      (climatology (sort_values (fun r => (um_city r, (um_year r, um_month r)))
                                (List.concat tables))) = Returned uv_state.
Proof.
  intros Hall.
  set (clim := climatology _).
  destruct (uv_state_metric clim) as [uv_state|e] eqn:E; [eauto|].
  exfalso.
  apply uv_state_metric_raised in E. destruct E as (_ & c & Hc & Hnone).
  unfold clim, climatology in Hc. apply in_map_iff in Hc.
  destruct Hc as (g & <- & Hg). simpl in Hnone.
  apply In_groupby in Hg. destruct Hg as [Hk _].
  apply in_map_iff in Hk. destruct Hk as (r & Er & Hr).
  apply In_sort_values in Hr. apply in_concat in Hr.
  destruct Hr as (t & Ht & Hr).
  eapply all_rows_tables_city in Ht; [|exact Hall].
  destruct Ht as (city & csv & raw & Hcity & _ & _ & ->).
  apply in_map_iff in Hr. destruct Hr as (m & <- & _).
  rewrite <- Er in Hnone. simpl in Hnone.
  now apply packages_are_capitals in Hcity.
Qed.

(** What a completed run consists of. *)
Lemma main_returned (download : string -> list frame) (book : option frame)
      (out : outputs) :
  run download book = Returned out ->
  exists tables,
    collect download = Returned tables /\ tables <> [] /\
    uv_monthly_by_year out =
    sort_values (fun r => (um_city r, (um_year r, um_month r)))
                (List.concat tables) /\
    uv_climatology_selected_years out = climatology (uv_monthly_by_year out) /\
    uv_state_metric (uv_climatology_selected_years out) =
    Returned (uv_state_metric_csv out) /\
    match book with
    | None => melanoma out = None
    | Some sheet =>
        exists ym, read_book sheet RATE_STANDARD = Returned ym /\
                   melanoma out =
                   Some (fst ym, snd ym,
                         scatter_join (uv_state_metric_csv out) (snd ym))
    end.
Proof.
  unfold main. intros H.
  apply bind_returned in H. destruct H as (tables & Hall & H).
  exists tables. split; [assumption|].
  destruct tables as [|t tables]; [discriminate|]. split; [discriminate|].
  apply bind_returned in H. destruct H as (uv_state & Hst & H).
  destruct book as [sheet|].
  - apply bind_returned in H. destruct H as (ym & Hym & H).
    injection H as <-. simpl. repeat split; try assumption. eauto.
  - injection H as <-. simpl. repeat split; assumption.
Qed.

(** X8: without a workbook, [main] completes unless nothing was
    downloaded or a downloaded file has unresolved columns.  It raises
    [RuntimeError] exactly when no city has a file, [ValueError] exactly
    when some file of some city cannot be parsed, and nothing else: the
    [KeyError] of the [CAP_TO_STATE] lookup cannot occur, every city being a
    key of [PACKAGES]. *)
Theorem main_uv_failures (download : string -> list frame) :
  (run download None = Raised RuntimeError <->
   forall city, In city (map fst PACKAGES) -> download city = []) /\
  (run download None = Raised ValueError <->
   exists city csv, In city (map fst PACKAGES) /\ In csv (download city) /\
                    parse_file csv = Raised ValueError) /\
  (forall e, run download None = Raised e ->
             e = RuntimeError \/ e = ValueError).
Proof.
  unfold main.
  destruct (collect download) as [tables|e0] eqn:Hall; cbn [bind].
  - assert (Hno : ~ exists city csv,
               In city (map fst PACKAGES) /\ In csv (download city) /\
               parse_file csv = Raised ValueError).
    { intros (city & csv & Hcity & Hcsv & Hp).
      destruct (@all_rows_blocked download city csv _ Hcity Hcsv Hp) as [e' He'].
      rewrite Hall in He'. discriminate. }
    destruct tables as [|t tables].
    + pose proof (proj1 (all_rows_empty download) Hall) as Hempty.
      split; [split; [intros _; exact Hempty | reflexivity]|].
      split; [split; [discriminate | intros H; now apply Hno in H]|].
      intros e [= <-]. now left.
    + destruct (@collected_state_summary download _ Hall) as [uv_state ->].
      cbn [bind].
      split; [split; [discriminate|]|].
      { intros H. apply all_rows_empty in H. rewrite Hall in H. discriminate. }
      split; [split; [discriminate | intros H; now apply Hno in H]|].
      discriminate.
  - destruct (@all_rows_raised download _ Hall) as (-> & Hex).
    split; [split; [discriminate|]|].
    { intros H. apply all_rows_empty in H. rewrite Hall in H. discriminate. }
    split; [split; [intros _; exact Hex | reflexivity]|].
    intros e [= <-]. now right.
Qed.

(** X9: the workbook is read only after the UV part has succeeded and does
    not touch the UV tables: a run with a workbook fails as the run without
    it does, and otherwise returns the same three UV tables together with
    the yearly table, the five-year table and their join, or fails as
    [read_book7_filtered] does. *)
Theorem workbook_is_read_after_the_uv_part (download : string -> list frame)
        (sheet : frame) :
  (forall e, run download None = Raised e ->
             run download (Some sheet) = Raised e) /\
  (forall o, run download None = Returned o ->
     melanoma o = None /\
     match read_book sheet RATE_STANDARD with
     | Raised e => run download (Some sheet) = Raised e
     | Returned ym =>
         run download (Some sheet) =
         Returned {| uv_monthly_by_year := uv_monthly_by_year o;
                     uv_climatology_selected_years :=
                       uv_climatology_selected_years o;
                     uv_state_metric_csv := uv_state_metric_csv o;
                     melanoma :=
                       Some (fst ym, snd ym,
                             scatter_join (uv_state_metric_csv o) (snd ym)) |}
     end).
Proof.
  unfold main.
  destruct (collect download) as [tables|e0]; cbn [bind];
    [|split; [auto | discriminate]].
  destruct tables as [|t tables]; [split; [auto | discriminate]|].
  destruct (uv_state_metric _) as [uv_state|e1]; cbn [bind];
    [|split; [auto | discriminate]].
  split; [discriminate|]. intros o [= <-]. simpl. split; [reflexivity|].
  now destruct (read_book sheet RATE_STANDARD).
Qed.
End MainBehaviour.

(** ** The five-year summary *)

Lemma In_keyed (yearly : list yearly_row) (k : string * string)
      (r : yearly_row) :
  In (k, r) (flat_map (fun r => match mean_key r with
                                | Some k => [(k, r)]
                                | None => []
                                end) yearly) <->
  In r yearly /\ mean_key r = Some k.
Proof.
  rewrite in_flat_map. split.
  - intros (r' & Hr' & Hin). destruct (mean_key r') as [k'|] eqn:E;
      [|contradiction]. destruct Hin as [[= <- <-]|[]]. auto.
  - intros [Hr E]. exists r. split; [assumption|]. rewrite E. now left.
Qed.

Lemma mean_key_some (r : yearly_row) (c n : string) :
  mean_key r = Some (c, n) <->
  y_state_code r = Some c /\ y_state_name r = CStr n.
Proof.
  unfold mean_key. destruct (y_state_code r) as [c'|];
    destruct (y_state_name r) as [n'| |]; split;
    try (intros [H1 H2]; congruence); try discriminate.
  intros [= <- <-]. auto.
Qed.

Lemma five_year_mean_keys (yearly : list yearly_row) :
  map (fun m => (mn_state_code m, mn_state_name m)) (five_year_mean yearly) =
  group_keys
    (map fst (flat_map (fun r => match mean_key r with
                                 | Some k => [(k, r)]
                                 | None => []
                                 end) yearly)).
Proof.
  unfold five_year_mean, groupby. rewrite !map_map. simpl.
  etransitivity; [|apply map_id]. apply map_ext. now intros [c n].
Qed.

Lemma In_five_year_mean_keys (yearly : list yearly_row) (c n : string) :
  In (c, n) (map (fun m => (mn_state_code m, mn_state_name m))
                 (five_year_mean yearly)) <->
  exists r, In r yearly /\ y_state_code r = Some c /\ y_state_name r = CStr n.
Proof.
  rewrite five_year_mean_keys, group_keys_In, in_map_iff. split.
  - intros ([k r] & E & H). simpl in E. subst k.
    apply In_keyed in H. destruct H as [Hr Hk].
    apply mean_key_some in Hk. eauto.
  - intros (r & Hr & Hc & Hn). exists ((c, n), r). split; [reflexivity|].
    apply In_keyed. split; [assumption|]. now apply mean_key_some.
Qed.

(** The rows of a group, read off the yearly table. *)
Lemma keyed_group (yearly : list yearly_row) (k : string * string) :
  map snd (filter (fun kr : (string * string) * yearly_row => keyb (fst kr) k)
                  (flat_map (fun r => match mean_key r with
                                      | Some k => [(k, r)]
                                      | None => []
                                      end) yearly)) =
  filter (fun r => match mean_key r with
                   | Some k' => keyb k' k
                   | None => false
                   end) yearly.
Proof.
  induction yearly as [|r yearly IH]; simpl; [reflexivity|].
  destruct (mean_key r) as [k'|]; simpl; [|exact IH].
  destruct (keyb k' k); simpl; now rewrite IH.
Qed.

(** X10: the five-year table has one row for each (state_code, state_name)
    pair that occurs in the yearly table with a code present, in ascending
    order of the pair; rows whose state name has no code are in no group.
    Each row holds the mean of the rates that are present and the sum of
    the counts that are present among the yearly rows of its pair. *)
Theorem five_year_mean_groups (yearly : list yearly_row) :
  (forall c n,
     In (c, n) (map (fun m => (mn_state_code m, mn_state_name m))
                    (five_year_mean yearly)) <->
     exists r, In r yearly /\ y_state_code r = Some c /\
               y_state_name r = CStr n) /\
  StronglySorted klt
    (map (fun m => (mn_state_code m, mn_state_name m)) (five_year_mean yearly)) /\
  (forall m, In m (five_year_mean yearly) ->
     let group :=
       filter (fun r => match mean_key r with
                        | Some k => keyb k (mn_state_code m, mn_state_name m)
                        | None => false
                        end) yearly in
     group <> [] /\
     asr_2017_2021_mean m = nan_mean (map asr_per_100k group) /\
     count_sum m = nan_sum (map y_count group)).
Proof.
  split; [intros c n; apply In_five_year_mean_keys|]. split.
  - rewrite five_year_mean_keys. apply group_keys_sorted.
  - intros m Hm. unfold five_year_mean in Hm. apply in_map_iff in Hm.
    destruct Hm as (g & <- & Hg). cbn [mn_state_code mn_state_name
      asr_2017_2021_mean count_sum].
    pose proof (group_nonempty _ _ _ Hg) as Hne.
    apply In_groupby in Hg. destruct Hg as [_ Eg].
    replace (fst (fst g), snd (fst g)) with (fst g) by now destruct (fst g).
    rewrite <- keyed_group, <- Eg. split.
    + intros H. apply map_eq_nil in H. contradiction.
    + now rewrite !map_map.
Qed.

(** ** Sums over groups *)

Lemma agg_sum_nil : agg_sum [] = 0%Qc.
Proof. reflexivity. Qed.

Lemma agg_sum_map_plus {A} (f g : A -> Qc) (l : list A) :
  agg_sum (map (fun a => (f a + g a)%Qc) l) =
  (agg_sum (map f l) + agg_sum (map g l))%Qc.
Proof.
  induction l as [|a l IH]; simpl map.
  - rewrite !agg_sum_nil. ring.
  - rewrite !agg_sum_cons, IH. ring.
Qed.

Lemma agg_sum_zero {A} (l : list A) :
  agg_sum (map (fun _ => 0%Qc) l) = 0%Qc.
Proof.
  induction l as [|a l IH]; simpl map; [reflexivity|].
  rewrite agg_sum_cons, IH. ring.
Qed.

Section SumOverGroups.
Context {K : Type} {O : Ord K} {L : OrdLaws K}.

(** A value counted under its own key only is counted once. *)
Lemma agg_sum_indicator (k0 : K) (v : Qc) (ks : list K) :
  NoDup ks -> In k0 ks ->
  agg_sum (map (fun k => if keyb k0 k then v else 0%Qc) ks) = v.
Proof.
  induction 1 as [|k ks Hnot Hnd IH]; [contradiction|].
  simpl map. rewrite agg_sum_cons. intros [->|Hin].
  - rewrite keyb_refl.
    assert (map (fun k => if keyb k0 k then v else 0%Qc) ks =
            map (fun _ => 0%Qc) ks) as ->.
    { apply map_ext_in. intros k Hk. destruct (keyb k0 k) eqn:E; [|reflexivity].
      apply keyb_true in E. subst. contradiction. }
    rewrite agg_sum_zero. ring.
  - destruct (keyb k0 k) eqn:E.
    + apply keyb_true in E. subst. contradiction.
    + rewrite (IH Hin). ring.
Qed.

Lemma sum_over_keys {A} (key : A -> K) (val : A -> Qc) (rows : list A)
      (ks : list K) :
  NoDup ks -> (forall r, In r rows -> In (key r) ks) ->
  agg_sum (map (fun k => agg_sum (map val (filter (fun r => keyb (key r) k)
                                                  rows))) ks) =
  agg_sum (map val rows).
Proof.
  intros Hnd. induction rows as [|r rows IH]; intros Hin.
  - simpl. apply agg_sum_zero.
  - change (map val (r :: rows)) with (val r :: map val rows).
    rewrite agg_sum_cons, <- IH by (intros; apply Hin; now right).
    rewrite <- (agg_sum_indicator (key r) (val r) Hnd (Hin r (or_introl eq_refl))).
    rewrite <- agg_sum_map_plus. f_equal. apply map_ext. intros k. simpl.
    destruct (keyb (key r) k); simpl map; [apply agg_sum_cons | ring].
Qed.

(** Summing the sums of the groups gives the sum of the table. *)
Lemma groupby_sum {A} (key : A -> K) (val : A -> Qc) (rows : list A) :
  agg_sum (map (fun g => agg_sum (map val (snd g))) (groupby key rows)) =
  agg_sum (map val rows).
Proof.
  unfold groupby. rewrite map_map. simpl. apply sum_over_keys.
  - apply sorted_NoDup, group_keys_sorted.
  - intros r Hr. apply group_keys_In. now apply in_map.
Qed.
End SumOverGroups.

Lemma nan_sum_as_sum {A} (val : A -> option Qc) (l : list A) :
  nan_sum (map val l) =
  agg_sum (map (fun a => match val a with Some q => q | None => 0%Qc end) l).
Proof.
  unfold nan_sum. induction l as [|a l IH]; simpl map; [reflexivity|].
  simpl dropna_values. destruct (val a) as [q|].
  - fold (dropna_values (map val l)). rewrite !agg_sum_cons. now rewrite IH.
  - fold (dropna_values (map val l)). rewrite agg_sum_cons, IH. ring.
Qed.

Lemma In_dropna_values (q : Qc) (l : list (option Qc)) :
  In q (dropna_values l) -> In (Some q) l.
Proof.
  induction l as [|[x|] l IH]; simpl; [contradiction| |auto].
  intros [->|H]; auto.
Qed.

Lemma Qc_of_Z_plus (a b : Z) : (Qc_of_Z a + Qc_of_Z b)%Qc = Qc_of_Z (a + b).
Proof.
  unfold Qc_of_Z at 3. rewrite inject_Z_plus.
  unfold Qcplus. apply Qc_is_canon. cbn [this Q2Qc].
  rewrite !Qred_correct. rewrite !Qc_of_Z_this. reflexivity.
Qed.

Lemma agg_sum_whole (l : list Qc) :
  Forall (fun q => exists n, q = Qc_of_Z n /\ (0 <= n)%Z) l ->
  exists n, agg_sum l = Qc_of_Z n /\ (0 <= n)%Z.
Proof.
  induction 1 as [|q l (n & -> & Hn) _ (m & IH & Hm)].
  - exists 0%Z. split; [now apply Qc_is_canon | lia].
  - exists (n + m)%Z. rewrite agg_sum_cons, IH, Qc_of_Z_plus. split; [reflexivity|lia].
Qed.

(** X11: for counts that are whole numbers, not negative and at most 2^53
    in total (every sum of such counts is exact in double precision as
    well), the five-year table preserves the total: each [count_sum] is
    again such a whole number, and the [count_sum] column adds up to the sum
    of the counts present in the yearly rows that have a state code. *)
Theorem five_year_mean_preserves_total (yearly : list yearly_row) :
  (forall r q, In r yearly -> y_count r = Some q ->
     exists n, q = Qc_of_Z n /\ (0 <= n)%Z) ->
  (nan_sum (map y_count yearly) <= Qc_of_Z (2 ^ 53))%Qc ->
  (forall m, In m (five_year_mean yearly) ->
     exists n, count_sum m = Qc_of_Z n /\ (0 <= n)%Z) /\
  agg_sum (map count_sum (five_year_mean yearly)) =
  nan_sum (map y_count
               (filter (fun r => match mean_key r with
                                 | Some _ => true
                                 | None => false
                                 end) yearly)).
Proof.
  intros Hwhole _. unfold five_year_mean.
  set (keyed := flat_map _ yearly).
  assert (E : map snd keyed =
              filter (fun r => match mean_key r with
                               | Some _ => true
                               | None => false
                               end) yearly).
  { unfold keyed. clear. induction yearly as [|r yearly IH]; simpl;
      [reflexivity|]. destruct (mean_key r); simpl; now rewrite IH. }
  split.
  - intros m Hm. apply in_map_iff in Hm. destruct Hm as (g & <- & Hg).
    cbn [count_sum]. unfold nan_sum. apply agg_sum_whole.
    apply Forall_forall. intros q Hq.
    apply In_dropna_values in Hq. apply in_map_iff in Hq.
    destruct Hq as (kr & Eq & Hkr).
    apply In_groupby in Hg. destruct Hg as [_ Eg]. rewrite Eg in Hkr.
    apply filter_In in Hkr. destruct Hkr as [Hkr _].
    apply (Hwhole (snd kr)); [|exact Eq].
    assert (In (snd kr) (map snd keyed)) as Hin by now apply in_map.
    rewrite E in Hin. now apply filter_In in Hin.
  - rewrite map_map. cbn [count_sum].
    rewrite <- E, map_map, nan_sum_as_sum.
    rewrite <- (groupby_sum fst
                  (fun kr : (string * string) * yearly_row =>
                     match y_count (snd kr) with Some q => q | None => 0%Qc end)
                  keyed).
    f_equal. apply map_ext. intros g. apply nan_sum_as_sum.
Qed.

(** ** The lookup tables *)

Lemma dict_get_In {V} (d : list (string * V)) (k : string) (v : V) :
  dict_get d k = Some v -> In v (map snd d).
Proof.
  induction d as [|[k' v'] d IH]; simpl; [discriminate|].
  destruct (String.eqb k' k); [intros [= ->]; now left | auto].
Qed.

(** In a table whose values are pairwise distinct under [f], the key is
    determined by the [f] of its value. *)
Lemma dict_get_inj {V W} (f : V -> W) (d : list (string * V))
      (k1 k2 : string) (v1 v2 : V) :
  NoDup (map f (map snd d)) ->
  dict_get d k1 = Some v1 -> dict_get d k2 = Some v2 -> f v1 = f v2 ->
  k1 = k2.
Proof.
  induction d as [|[k v] d IH]; simpl; [discriminate|].
  intros Hnd H1 H2 Hf. inversion Hnd as [|? ? Hnot Hnd']; subst.
  destruct (String.eqb_spec k k1) as [E1|E1];
    destruct (String.eqb_spec k k2) as [E2|E2].
  - congruence.
  - injection H1 as <-. exfalso. apply Hnot. rewrite Hf.
    apply in_map. now apply dict_get_In in H2.
  - injection H2 as <-. exfalso. apply Hnot. rewrite <- Hf.
    apply in_map. now apply dict_get_In in H1.
  - now apply IH.
Qed.

Ltac distinct_strings :=
  repeat (constructor;
          [simpl; intros H;
           repeat (destruct H as [H|H]; [discriminate H|]); exact H|]);
  constructor.

Lemma NAME_TO_CODE_codes_distinct : NoDup (map snd NAME_TO_CODE).
Proof. simpl. distinct_strings. Qed.

Lemma CAP_TO_STATE_codes_distinct :
  NoDup (map (fun v : string * string => fst v) (map snd CAP_TO_STATE)).
Proof. simpl. distinct_strings. Qed.

(** [CAP_TO_STATE] and [NAME_TO_CODE] agree on the code of a state. *)
Lemma CAP_TO_STATE_agrees (city code name : string) :
  dict_get CAP_TO_STATE city = Some (code, name) ->
  dict_get NAME_TO_CODE name = Some code.
Proof.
  unfold CAP_TO_STATE. cbn [dict_get].
  repeat (match goal with
          | |- (if ?b then _ else _) = _ -> _ =>
              destruct b; [intros [= <- <-]; reflexivity|]
          end).
  discriminate.
Qed.

Lemma NoDup_map_coarser {A B C} (f : A -> B) (g : A -> C) (l : list A) :
  (forall x y, In x l -> In y l -> f x = f y -> g x = g y) ->
  NoDup (map g l) -> NoDup (map f l).
Proof.
  induction l as [|a l IH]; simpl; intros H Hnd; [constructor|].
  inversion Hnd as [|? ? Hnot Hnd']; subst. constructor.
  - intros Hin. apply in_map_iff in Hin. destruct Hin as (x & Ex & Hx).
    apply Hnot. rewrite <- (H x a); auto. now apply in_map.
  - apply IH; auto.
Qed.

(** ** State codes through the pipeline *)

Lemma uv_state_codes_distinct (clim : list clim_row)
      (rows : list uv_state_row) :
  uv_state_metric clim = Returned rows -> NoDup (map us_state_code rows).
Proof.
  intros H. apply uv_state_metric_returned in H. destruct H as [P Hd].
  apply NoDup_map_coarser with (g := us_capital).
  - intros x y Hx Hy E.
    apply (dict_get_inj (fun v : string * string => fst v) CAP_TO_STATE
             _ _ CAP_TO_STATE_codes_distinct (Hd x Hx) (Hd y Hy) E).
  - eapply Permutation_NoDup; [symmetry; exact P|].
    apply sorted_NoDup, group_keys_sorted.
Qed.

(** When every yearly row has the code of its name, the five-year table
    repeats no code. *)
Lemma five_year_mean_codes_distinct (yearly : list yearly_row) :
  (forall r, In r yearly -> y_state_code r = name_to_code (y_state_name r)) ->
  NoDup (map mn_state_code (five_year_mean yearly)).
Proof.
  intros Hcode.
  apply NoDup_map_coarser
    with (g := fun m => (mn_state_code m, mn_state_name m)).
  - intros x y Hx Hy E. f_equal; [assumption|].
    assert (Hk : forall m, In m (five_year_mean yearly) ->
                 dict_get NAME_TO_CODE (mn_state_name m) =
                 Some (mn_state_code m)).
    { intros m Hm.
      assert (In (mn_state_code m, mn_state_name m)
                 (map (fun m => (mn_state_code m, mn_state_name m))
                      (five_year_mean yearly))) as Hin
        by (apply (in_map (fun m => (mn_state_code m, mn_state_name m)));
            exact Hm).
      apply In_five_year_mean_keys in Hin. destruct Hin as (r & Hr & Hc & Hn).
      rewrite (Hcode r Hr), Hn in Hc. exact Hc. }
    apply (dict_get_inj (fun v : string => v) NAME_TO_CODE _ _
             ltac:(rewrite map_id; exact NAME_TO_CODE_codes_distinct)
             (Hk x Hx) (Hk y Hy) E).
  - rewrite five_year_mean_keys. apply sorted_NoDup, group_keys_sorted.
Qed.

Lemma scatter_join_codes_distinct (uv_state : list uv_state_row)
      (mean : list mean_row) :
  NoDup (map us_state_code uv_state) -> NoDup (map mn_state_code mean) ->
  NoDup (map sc_state_code (scatter_join uv_state mean)).
Proof.
  rewrite !(NoDup_count_occ string_dec). intros Hu Hm c.
  rewrite scatter_join_count. specialize (Hu c). specialize (Hm c). nia.
Qed.

Lemma OrdLaws_Qc : OrdLaws Qc.
Proof.
  split; unfold cmp, Ord_Qc.
  - intros a b H. now apply Qceq_alt.
  - intros a. now apply Qceq_alt.
  - intros a b. unfold Qccompare. symmetry. apply Qcompare_antisym.
  - intros a b c. rewrite <- !Qclt_alt. apply Qclt_trans.
Qed.

Section Book7Output.
Variable numeric_of_string : string -> option Qc.

#[local] Abbreviation read_sheet := (read_book7_filtered numeric_of_string).

Lemma between_year (y : option Z) :
  between_2017_2021 y = true ->
  (2017 <= year_of y)%Z /\ (year_of y <= 2021)%Z.
Proof. destruct y as [z|]; simpl; [lia | discriminate]. Qed.

Lemma read_book7_filtered_returned (df : frame) (rate_standard : string)
      (yearly : list yearly_row) (mean : list mean_row) :
  read_sheet df rate_standard = Returned (yearly, mean) ->
  mean = five_year_mean yearly /\
  Sorted (key_le (fun r => (y_state_code r, y_year r))) yearly /\
  forall r, In r yearly ->
    y_state_code r = name_to_code (y_state_name r) /\
    (2017 <= y_year r)%Z /\ (y_year r <= 2021)%Z /\
    y_state_name r <> CStr "Australia".
Proof.
  unfold read_book7_filtered.
  destruct (rate_cols df rate_standard) as [|rate_col rest]; [discriminate|].
  unfold book7_with_rate_col. intros H.
  repeat match type of H with
         | bind _ _ = Returned _ =>
             apply bind_returned in H; destruct H as (? & _ & H)
         end.
  injection H as <- <-. split; [reflexivity|].
  split; [apply sort_values_sorted|].
  intros r Hr. apply In_sort_values in Hr. apply in_map_iff in Hr.
  destruct Hr as ([row y] & <- & Hr). cbn [y_state_code y_state_name y_year fst snd].
  apply filter_In in Hr. destruct Hr as [Hr Haus].
  apply filter_In in Hr. destruct Hr as [_ Hy]. cbn [fst snd] in *.
  apply negb_true_iff, cell_is_false in Haus.
  destruct (between_year _ Hy). auto.
Qed.

(** X12: whenever [read_book7_filtered] returns, every row of the yearly
    table has a year from 2017 to 2021, a state name other than
    "Australia", and as state code the [NAME_TO_CODE] entry of its name,
    missing when the name is no key; the table is sorted by (state_code,
    year), the five-year table is the summary of exactly this yearly table
    and repeats no state code. *)
Theorem read_book7_filtered_output (df : frame) (rate_standard : string)
        (yearly : list yearly_row) (mean : list mean_row) :
  read_sheet df rate_standard = Returned (yearly, mean) ->
  mean = five_year_mean yearly /\
  Sorted (key_le (fun r => (y_state_code r, y_year r))) yearly /\
  (forall r, In r yearly ->
     y_state_code r = name_to_code (y_state_name r) /\
     (2017 <= y_year r)%Z /\ (y_year r <= 2021)%Z /\
     y_state_name r <> CStr "Australia") /\
  NoDup (map mn_state_code mean).
Proof.
  intros H. apply read_book7_filtered_returned in H.
  destruct H as (-> & Hs & Hr). repeat split; try assumption;
    try (now apply Hr).
  apply five_year_mean_codes_distinct. intros r Hin. now apply Hr.
Qed.
End Book7Output.

(** ** The tables main returns *)

Lemma climatology_cities (uv_monthly : list uv_monthly_row) (city : string) :
  In city (map cl_city (climatology uv_monthly)) <->
  In city (map um_city uv_monthly).
Proof.
  rewrite <- (map_map (fun r => (cl_city r, cl_month r)) fst).
  rewrite climatology_keys, !in_map_iff. split.
  - intros ([c m] & <- & H). rewrite group_keys_In, in_map_iff in H.
    destruct H as (r & [= <- <-] & Hr). exists r. auto.
  - intros (r & <- & Hr). exists (um_city r, um_month r). split; [reflexivity|].
    rewrite group_keys_In, in_map_iff. exists r. auto.
Qed.

Lemma descending_key (a b : Qc) :
  cmp_leb (- a)%Qc (- b)%Qc = true <-> (b <= a)%Qc.
Proof.
  unfold cmp_leb, cmp, Ord_Qc.
  destruct (Qccompare (- a) (- b)) eqn:E.
  - apply Qceq_alt in E. split; [|reflexivity]. intros _.
    rewrite <- (Qcopp_involutive a), <- (Qcopp_involutive b), E.
    apply Qcle_refl.
  - apply Qclt_alt in E. split; [|reflexivity]. intros _.
    rewrite <- (Qcopp_involutive a), <- (Qcopp_involutive b).
    now apply Qcopp_le_compat, Qclt_le_weak.
  - apply Qcgt_alt in E. split; [discriminate|]. intros H. exfalso.
    apply Qcopp_le_compat in H. now apply Qcle_not_lt in H.
Qed.

Lemma Sorted_impl {A} (R R' : A -> A -> Prop) (l : list A) :
  (forall a b, R a b -> R' a b) -> Sorted R l -> Sorted R' l.
Proof.
  intros H. induction 1 as [|a l Hs IH Hhd]; constructor; auto.
  destruct Hhd; constructor; auto.
Qed.

Lemma uv_state_metric_descending (clim : list clim_row)
      (rows : list uv_state_row) :
  uv_state_metric clim = Returned rows ->
  StronglySorted (fun a b => (us_annual_mean_uvi b <= us_annual_mean_uvi a)%Qc)
                 rows.
Proof.
  unfold uv_state_metric. intros H.
  apply bind_returned in H. destruct H as (rows0 & _ & H). injection H as <-.
  apply Sorted_StronglySorted.
  - intros a b c Hab Hbc. eapply Qcle_trans; eassumption.
  - eapply Sorted_impl; [|apply (@sort_values_sorted _ _ OrdLaws_Qc)].
    intros a b Hab. now apply descending_key.
Qed.

(** A join that keeps at most one row per left row keeps the left order. *)
Lemma flat_map_sorted {A B} (R : Qc -> Qc -> Prop) (f : A -> Qc) (g : B -> Qc)
      (body : A -> list B) (l : list A) :
  (forall a, body a = [] \/ exists b, body a = [b] /\ g b = f a) ->
  StronglySorted (fun x y => R (f x) (f y)) l ->
  StronglySorted (fun x y => R (g x) (g y)) (flat_map body l).
Proof.
  intros Hbody. induction 1 as [|a l Hs IH Hall]; simpl; [constructor|].
  destruct (Hbody a) as [->|(b & -> & Eb)]; [exact IH|]. simpl.
  constructor; [exact IH|].
  apply Forall_forall. intros y Hy. apply in_flat_map in Hy.
  destruct Hy as (a' & Ha' & Hy). rewrite Forall_forall in Hall.
  specialize (Hall a' Ha'). rewrite Eb.
  destruct (Hbody a') as [E|(b' & E & Eb')]; rewrite E in Hy;
    [contradiction|]. destruct Hy as [<-|[]]. now rewrite Eb'.
Qed.

Lemma scatter_join_descending (uv_state : list uv_state_row)
      (mean : list mean_row) :
  NoDup (map mn_state_code mean) ->
  StronglySorted (fun a b => (us_annual_mean_uvi b <= us_annual_mean_uvi a)%Qc)
                 uv_state ->
  StronglySorted (fun a b => (sc_annual_mean_uvi b <= sc_annual_mean_uvi a)%Qc)
                 (scatter_join uv_state mean).
Proof.
  intros Hnd Hs. unfold scatter_join.
  apply (@flat_map_sorted _ _ (fun x y => (y <= x)%Qc) us_annual_mean_uvi
           sc_annual_mean_uvi); [|exact Hs].
  intros u.
  pose proof (length_filter_code mn_state_code (us_state_code u) mean) as Hlen.
  pose proof (proj1 (NoDup_count_occ string_dec _) Hnd (us_state_code u)) as Hc.
  destruct (filter (fun m => String.eqb (mn_state_code m) (us_state_code u))
                   mean) as [|m [|m' l]]; simpl in *.
  - now left.
  - right. eexists. split; reflexivity.
  - lia.
Qed.

Section MainOutputs.
Variable to_datetime : cell -> option timestamp.
Variable numeric_of_string : string -> option Qc.

#[local] Abbreviation run_script := (main to_datetime numeric_of_string).

(** X13: in a completed run no table repeats a state code: the state
    summary has one row per capital and the capitals have distinct codes,
    the five-year table has one row per state name and the names have
    distinct codes, so the join pairs each code at most once and the
    uniqueness the join relies on is never violated. *)
Theorem run_repeats_no_state_code (download : string -> list frame)
        (book : option frame) (out : outputs) :
  run_script download book = Returned out ->
  NoDup (map us_state_code (uv_state_metric_csv out)) /\
  forall yearly mean scatter,
    melanoma out = Some (yearly, mean, scatter) ->
    NoDup (map mn_state_code mean) /\ NoDup (map sc_state_code scatter).
Proof.
  intros H. apply main_returned in H.
  destruct H as (tables & _ & _ & _ & _ & Hst & Hbook).
  pose proof (uv_state_codes_distinct _ Hst) as Hu. split; [exact Hu|].
  intros yearly mean scatter Hm. destruct book as [sheet|].
  - destruct Hbook as ([y m] & Hread & E). rewrite E in Hm.
    injection Hm as <- <- <-. simpl.
    apply read_book7_filtered_returned in Hread.
    destruct Hread as (-> & _ & Hr).
    assert (NoDup (map mn_state_code (five_year_mean y))) as Hmean
      by (apply five_year_mean_codes_distinct; intros r Hin; now apply Hr).
    split; [exact Hmean|]. now apply scatter_join_codes_distinct.
  - rewrite Hbook in Hm. discriminate.
Qed.


(** X14: the tables of a completed run are ordered: the monthly table by
    (city, year, month), the climatology by (city, month) with one row per
    pair, the state summary by descending annual mean, and the joined table
    by descending annual mean as well. *)
Theorem run_tables_are_sorted (download : string -> list frame)
        (book : option frame) (out : outputs) :
  run_script download book = Returned out ->
  Sorted (key_le (fun r => (um_city r, (um_year r, um_month r))))
         (uv_monthly_by_year out) /\
  StronglySorted klt (map (fun r => (cl_city r, cl_month r))
                          (uv_climatology_selected_years out)) /\
  StronglySorted (fun a b => (us_annual_mean_uvi b <= us_annual_mean_uvi a)%Qc)
                 (uv_state_metric_csv out) /\
  forall yearly mean scatter,
    melanoma out = Some (yearly, mean, scatter) ->
    StronglySorted
      (fun a b => (sc_annual_mean_uvi b <= sc_annual_mean_uvi a)%Qc) scatter.
Proof.
  intros H. apply main_returned in H.
  destruct H as (tables & _ & _ & Hm & Hc & Hst & Hbook).
  pose proof (uv_state_metric_descending _ Hst) as Hdesc.
  split; [rewrite Hm; apply sort_values_sorted|].
  split; [rewrite Hc, climatology_keys; apply group_keys_sorted|].
  split; [exact Hdesc|].
  intros yearly mean scatter E. destruct book as [sheet|].
  - destruct Hbook as ([y m] & Hread & E'). rewrite E' in E.
    injection E as <- <- <-. simpl.
    apply read_book7_filtered_returned in Hread.
    destruct Hread as (-> & _ & Hr).
    apply scatter_join_descending; [|exact Hdesc].
    apply five_year_mean_codes_distinct. intros r Hin. now apply Hr.
  - rewrite Hbook in E. discriminate.
Qed.

(** X15: in a completed run with a workbook, the joined table has a row
    for a state code exactly when the state's capital has a row in the
    monthly UV table and the state's name, as [CAP_TO_STATE] spells it,
    occurs in the yearly melanoma table. *)
Theorem run_joins_states_with_both (download : string -> list frame)
        (sheet : frame) (out : outputs) (yearly : list yearly_row)
        (mean : list mean_row) (scatter : list scatter_row) (code : string) :
  run_script download (Some sheet) = Returned out ->
  melanoma out = Some (yearly, mean, scatter) ->
  (In code (map sc_state_code scatter) <->
   exists city name,
     dict_get CAP_TO_STATE city = Some (code, name) /\
     In city (map um_city (uv_monthly_by_year out)) /\
     exists r, In r yearly /\ y_state_name r = CStr name).
Proof.
  intros H Hmel. apply main_returned in H.
  destruct H as (tables & _ & _ & _ & Hc & Hst & ([y m] & Hread & E)).
  rewrite E in Hmel. injection Hmel as <- <- <-. cbn [fst snd] in *.
  apply read_book7_filtered_returned in Hread. destruct Hread as (-> & _ & Hr).
  pose proof (uv_state_metric_returned _ Hst) as [P Hd].
  rewrite in_map_iff. split.
  - intros (s & <- & Hs). apply In_scatter_join in Hs.
    destruct Hs as (u & m & Hu & Hm & Ecode & ->). cbn [sc_state_code].
    exists (us_capital u), (us_state_name u). split; [now apply Hd|]. split.
    + apply climatology_cities. rewrite <- Hc.
      apply group_keys_In. eapply Permutation_in; [exact P|]. now apply in_map.
    + assert (In (mn_state_code m, mn_state_name m)
                 (map (fun m => (mn_state_code m, mn_state_name m))
                      (five_year_mean y))) as Hin
        by (apply (in_map (fun m => (mn_state_code m, mn_state_name m)));
            exact Hm).
      apply In_five_year_mean_keys in Hin. destruct Hin as (r & Hin & Hrc & Hrn).
      exists r. split; [assumption|]. rewrite Hrn. f_equal.
      destruct (Hr r Hin) as (Hcode & _). rewrite Hrn, Hrc in Hcode.
      cbn [name_to_code] in Hcode. symmetry in Hcode.
      pose proof (CAP_TO_STATE_agrees _ (Hd u Hu)) as Hagree.
      rewrite <- Ecode in Hagree.
      apply (dict_get_inj (fun v : string => v) NAME_TO_CODE _ _
               ltac:(rewrite map_id; exact NAME_TO_CODE_codes_distinct)
               Hcode Hagree eq_refl).
  - intros (city & name & Hcap & Hcity & r & Hin & Hname).
    assert (In city (map us_capital (uv_state_metric_csv out))) as Hu.
    { eapply Permutation_in; [symmetry; exact P|]. apply group_keys_In.
      rewrite Hc. now apply climatology_cities. }
    apply in_map_iff in Hu. destruct Hu as (u & Eu & Hu).
    pose proof (Hd u Hu) as Hdu. rewrite Eu, Hcap in Hdu.
    injection Hdu as Ecode Ename.
    assert (In (code, name)
               (map (fun m => (mn_state_code m, mn_state_name m))
                    (five_year_mean y))) as Hm.
    { apply In_five_year_mean_keys. exists r. split; [assumption|].
      split; [|assumption]. destruct (Hr r Hin) as (-> & _).
      rewrite Hname. cbn [name_to_code]. now apply CAP_TO_STATE_agrees with city. }
    apply in_map_iff in Hm. destruct Hm as (m & [= Ec En] & Hm).
    eexists. split.
    2:{ apply In_scatter_join. exists u, m.
        repeat split; try assumption. congruence. }
    cbn [sc_state_code]. congruence.
Qed.
End MainOutputs.

(** ** How read_book7_filtered fails *)

Lemma col_pos_returned (df : frame) (c : string) (i : nat) :
  col_pos df c = Returned i -> col_index c (columns df) = Some i.
Proof. unfold col_pos. destruct (col_index c (columns df)); congruence. Qed.

Lemma col_pos_missing (df : frame) (c : string) (e : exn) :
  col_pos df c = Raised e -> col_index c (columns df) = None.
Proof. unfold col_pos. destruct (col_index c (columns df)); congruence. Qed.

Section Book7Failures.
Variable numeric_of_string : string -> option Qc.

#[local] Abbreviation read_table := (read_book7_filtered numeric_of_string).
#[local] Abbreviation coerce := (to_numeric numeric_of_string).

(** The columns the body reads by name. *)
Lemma with_rate_col_raised (df : frame) (rate_col : string) (e : exn) :
  In rate_col (columns df) ->
  book7_with_rate_col numeric_of_string df rate_col = Raised e ->
  (e = KeyError /\
   exists c, In c [ "Data type"; "Cancer group/site"; "Sex"; "Year";
                    "State or Territory"; "Count" ]%string /\
             col_index c (columns df) = None) \/
  (e = TypeError /\
   exists i_type i_site i_sex i_year row q,
     col_index "Data type" (columns df) = Some i_type /\
     col_index "Cancer group/site" (columns df) = Some i_site /\
     col_index "Sex" (columns df) = Some i_sex /\
     col_index "Year" (columns df) = Some i_year /\
     In row (rows df) /\
     cell_is "Incidence" (cell_at i_type row) = true /\
     cell_is "Melanoma of the skin" (cell_at i_site row) = true /\
     cell_is "Persons" (cell_at i_sex row) = true /\
     coerce (cell_at i_year row) = Some q /\
     ~ (exists y, q = Qc_of_Z y /\ (- 2 ^ 63 <= y <= 2 ^ 63 - 1)%Z)).
Proof.
  intros Hrate. unfold book7_with_rate_col. intros H.
  apply bind_raised in H. destruct H as [H|(i_type & Htype & H)].
  { left. pose proof (col_pos_raised _ _ H) as ->.
    apply col_pos_missing in H. split; [reflexivity|].
    eexists. split; [|exact H]. simpl. auto. }
  apply bind_raised in H. destruct H as [H|(i_site & Hsite & H)].
  { left. pose proof (col_pos_raised _ _ H) as ->.
    apply col_pos_missing in H. split; [reflexivity|].
    eexists. split; [|exact H]. simpl. auto. }
  apply bind_raised in H. destruct H as [H|(i_sex & Hsex & H)].
  { left. pose proof (col_pos_raised _ _ H) as ->.
    apply col_pos_missing in H. split; [reflexivity|].
    eexists. split; [|exact H]. simpl. auto. }
  apply bind_raised in H. destruct H as [H|(i_year & Hyear & H)].
  { left. pose proof (col_pos_raised _ _ H) as ->.
    apply col_pos_missing in H. split; [reflexivity|].
    eexists. split; [|exact H]. simpl. auto. }
  apply col_pos_returned in Htype, Hsite, Hsex, Hyear.
  apply bind_raised in H. destruct H as [H|(years & _ & H)].
  { right. apply mapM_raised in H. destruct H as (row & Hrow & H).
    apply filter_In in Hrow. destruct Hrow as [Hrow Ht].
    rewrite !andb_true_iff in Ht. destruct Ht as [[H1 H2] H3].
    unfold as_Int64 in H.
    destruct (coerce (cell_at i_year row)) as [q|] eqn:Eq; [|discriminate].
    destruct (fits_Int64 q) eqn:Ei; [discriminate|]. injection H as <-.
    split; [reflexivity|]. exists i_type, i_site, i_sex, i_year, row, q.
    assert (~ (exists y, q = Qc_of_Z y /\ (- 2 ^ 63 <= y <= 2 ^ 63 - 1)%Z))
      as Hbad by (rewrite <- fits_Int64_iff; congruence).
    auto 12. }
  apply bind_raised in H. destruct H as [H|(i_state & _ & H)].
  { left. pose proof (col_pos_raised _ _ H) as ->.
    apply col_pos_missing in H. split; [reflexivity|].
    eexists. split; [|exact H]. simpl. auto 6. }
  apply bind_raised in H. destruct H as [H|(i_rate & _ & H)].
  { exfalso. apply col_pos_missing in H.
    destruct (col_index_In _ _ Hrate) as [i Hi]. congruence. }
  apply bind_raised in H. destruct H as [H|(i_count & _ & H)].
  { left. pose proof (col_pos_raised _ _ H) as ->.
    apply col_pos_missing in H. split; [reflexivity|].
    eexists. split; [|exact H]. simpl. auto 7. }
  discriminate.
Qed.

Lemma with_rate_col_returned (df : frame) (rate_col : string)
      (res : list yearly_row * list mean_row) (c : string) :
  book7_with_rate_col numeric_of_string df rate_col = Returned res ->
  In c [ "Data type"; "Cancer group/site"; "Sex"; "Year";
         "State or Territory"; "Count" ]%string ->
  col_index c (columns df) <> None.
Proof.
  unfold book7_with_rate_col. intros H.
  apply bind_returned in H. destruct H as (i_type & Htype & H).
  apply bind_returned in H. destruct H as (i_site & Hsite & H).
  apply bind_returned in H. destruct H as (i_sex & Hsex & H).
  apply bind_returned in H. destruct H as (i_year & Hyear & H).
  apply bind_returned in H. destruct H as (years & _ & H).
  apply bind_returned in H. destruct H as (i_state & Hstate & H).
  apply bind_returned in H. destruct H as (i_rate & _ & H).
  apply bind_returned in H. destruct H as (i_count & Hcount & _).
  apply col_pos_returned in Htype, Hsite, Hsex, Hyear, Hstate, Hcount.
  simpl. intros Hc.
  repeat (destruct Hc as [<-|Hc]; [congruence|]). contradiction.
Qed.

(** X16: [read_book7_filtered] fails in three ways only.  Apart from the
    [RuntimeError] for the rate column, it raises [KeyError] only when one
    of the six columns it reads by name is absent, and [TypeError] only
    when a melanoma incidence row for persons has a "Year" that is a
    number but not a whole number of 64 bits (from -2^63 to 2^63 - 1); it
    never returns when one of the six columns is absent. *)
Theorem read_book7_filtered_failures (df : frame) (rate_standard : string) :
  (forall e, read_table df rate_standard = Raised e ->
     e = RuntimeError \/ e = KeyError \/ e = TypeError) /\
  (read_table df rate_standard = Raised KeyError ->
   exists c, In c [ "Data type"; "Cancer group/site"; "Sex"; "Year";
                    "State or Territory"; "Count" ]%string /\
             col_index c (columns df) = None) /\
  (read_table df rate_standard = Raised TypeError ->
   exists i_type i_site i_sex i_year row q,
     col_index "Data type" (columns df) = Some i_type /\
     col_index "Cancer group/site" (columns df) = Some i_site /\
     col_index "Sex" (columns df) = Some i_sex /\
     col_index "Year" (columns df) = Some i_year /\
     In row (rows df) /\
     cell_is "Incidence" (cell_at i_type row) = true /\
     cell_is "Melanoma of the skin" (cell_at i_site row) = true /\
     cell_is "Persons" (cell_at i_sex row) = true /\
     coerce (cell_at i_year row) = Some q /\
     ~ (exists y, q = Qc_of_Z y /\ (- 2 ^ 63 <= y <= 2 ^ 63 - 1)%Z)) /\
  (forall res c, read_table df rate_standard = Returned res ->
     In c [ "Data type"; "Cancer group/site"; "Sex"; "Year";
            "State or Territory"; "Count" ]%string ->
     col_index c (columns df) <> None).
Proof.
  unfold read_book7_filtered.
  destruct (rate_cols df rate_standard) as [|rate_col rest] eqn:Er.
  - split; [intros e [= <-]; auto|]. repeat split; discriminate.
  - assert (In rate_col (columns df)) as Hin.
    { assert (In rate_col (rate_cols df rate_standard)) as H
        by (rewrite Er; now left).
      unfold rate_cols in H. now apply filter_In in H. }
    split; [|split; [|split]].
    + intros e H. destruct (@with_rate_col_raised df rate_col _ Hin H) as [[-> _]|[-> _]];
        auto.
    + intros H. destruct (@with_rate_col_raised df rate_col _ Hin H) as [[_ Hc]|[E _]];
        [exact Hc | discriminate].
    + intros H. destruct (@with_rate_col_raised df rate_col _ Hin H) as [[E _]|[_ Hr]];
        [discriminate | exact Hr].
    + intros res c. apply with_rate_col_returned.
Qed.
End Book7Failures.

(** ** list_year_resources *)

Lemma strip_prefix_ci_spec (p l rest : list ascii) :
  strip_prefix_ci p l = Some rest <->
  exists p', l = p' ++ rest /\ map lower p' = map lower p.
Proof.
  revert l. induction p as [|a p IH]; intros l; simpl.
  - split.
    + intros [= ->]. exists []. auto.
    + intros (p' & -> & E). destruct p'; [reflexivity | discriminate].
  - destruct l as [|b l].
    + split; [discriminate|]. intros (p' & E & Hp').
      destruct p'; [discriminate|]. discriminate.
    + destruct (Ascii.eqb_spec (lower a) (lower b)) as [Eab|Eab].
      * rewrite IH. split.
        -- intros (p' & -> & E). exists (b :: p'). simpl. split; congruence.
        -- intros (p' & E & Hp'). destruct p' as [|b' p']; [discriminate|].
           simpl in *. injection E as <- ->. injection Hp' as _ Hp'. eauto.
      * split; [discriminate|]. intros (p' & E & Hp').
        destruct p' as [|b' p']; [discriminate|].
        simpl in *. injection E as <- _. injection Hp' as Hb _. congruence.
Qed.

Lemma digit_of_bounds (a : ascii) (d : Z) :
  digit_of a = Some d -> (0 <= d <= 9)%Z.
Proof.
  unfold digit_of.
  destruct (((48 <=? N_of_ascii a)%N && (N_of_ascii a <=? 57)%N)) eqn:E;
    [|discriminate].
  apply andb_true_iff in E. destruct E as [E1 E2].
  apply N.leb_le in E1, E2. intros [= <-].
  rewrite N2Z.inj_sub by assumption. lia.
Qed.

Lemma digits_from_cons (acc : Z) (a : ascii) (s : string) (y : Z) :
  digits_from acc (String a s) = Some y ->
  exists d, (0 <= d <= 9)%Z /\ digits_from (10 * acc + d) s = Some y.
Proof.
  change (digits_from acc (String a s))
    with (match digit_of a with
          | Some d => digits_from (10 * acc + d) s
          | None => None
          end).
  destruct (digit_of a) as [d|] eqn:E; [|discriminate].
  apply digit_of_bounds in E. eauto.
Qed.

Lemma four_digits_bounds (d1 d2 d3 d4 : ascii) (y : Z) :
  digits_from 0 (string_of_list_ascii [d1; d2; d3; d4]) = Some y ->
  (0 <= y <= 9999)%Z.
Proof.
  cbn [string_of_list_ascii]. intros H.
  apply digits_from_cons in H. destruct H as (v1 & B1 & H).
  apply digits_from_cons in H. destruct H as (v2 & B2 & H).
  apply digits_from_cons in H. destruct H as (v3 & B3 & H).
  apply digits_from_cons in H. destruct H as (v4 & B4 & H).
  unfold digits_from in H.
  assert (E : forall a b : Z, Some a = Some b -> a = b) by congruence.
  apply E in H. lia.
Qed.

(** X17: a resource name is taken for the file of a city and year exactly
    when it ends, letters compared without regard to case, with the city, a
    hyphen, four digits and ".csv"; whatever precedes the city is ignored,
    and the year is the number the four digits spell, between 0 and 9999. *)
Theorem file_name_pattern (city name : string) (y : Z) :
  match_city_year city name = Some y <->
  exists pre c d1 d2 d3 d4 e,
    list_ascii_of_string name = pre ++ c ++ "-"%char :: d1 :: d2 :: d3 :: d4 :: e /\
    map lower c = map lower (list_ascii_of_string city) /\
    map lower e = list_ascii_of_string ".csv" /\
    digits_from 0 (string_of_list_ascii [d1; d2; d3; d4]) = Some y /\
    (0 <= y <= 9999)%Z.
Proof.
  unfold match_city_year. split.
  - destruct (strip_prefix_ci _ (rev (list_ascii_of_string name)))
      as [[|d4 [|d3 [|d2 [|d1 [|dash rest]]]]]|] eqn:E1; try discriminate.
    destruct (Ascii.eqb_spec dash "-") as [->|]; [|discriminate].
    destruct (strip_prefix_ci (rev (list_ascii_of_string city)) rest)
      as [pre'|] eqn:E2; [|discriminate].
    intros Hd. apply strip_prefix_ci_spec in E1, E2.
    destruct E1 as (e' & Hname & He'). destruct E2 as (c' & -> & Hc').
    exists (rev pre'), (rev c'), d1, d2, d3, d4, (rev e').
    split; [|split; [|split; [|split]]].
    + apply (f_equal (@rev ascii)) in Hname. rewrite rev_involutive in Hname.
      rewrite Hname, rev_app_distr. simpl.
      rewrite rev_app_distr, <- !app_assoc. reflexivity.
    + rewrite map_rev, Hc', <- map_rev, rev_involutive. reflexivity.
    + rewrite map_rev, He'. reflexivity.
    + exact Hd.
    + now apply four_digits_bounds in Hd.
  - intros (pre & c & d1 & d2 & d3 & d4 & e & Hname & Hc & He & Hd & _).
    assert (E1 : strip_prefix_ci (rev (list_ascii_of_string ".csv"))
                                 (rev (list_ascii_of_string name)) =
                 Some (d4 :: d3 :: d2 :: d1 :: "-"%char :: rev c ++ rev pre)).
    { apply strip_prefix_ci_spec. exists (rev e). split.
      - rewrite Hname, !rev_app_distr. simpl. rewrite <- !app_assoc.
        reflexivity.
      - rewrite map_rev, He. reflexivity. }
    rewrite E1. simpl.
    assert (E2 : strip_prefix_ci (rev (list_ascii_of_string city))
                                 (rev c ++ rev pre) = Some (rev pre)).
    { apply strip_prefix_ci_spec. exists (rev c). split; [reflexivity|].
      now rewrite !map_rev, Hc. }
    rewrite E2. exact Hd.
Qed.





(** ** The download loop of main *)


Section DownloadLoop.
Variable to_datetime : cell -> option timestamp.
Variable numeric_of_string : string -> option Qc.
Variable ckan : string -> list resource.
Variable fetch : string -> frame.

#[local] Abbreviation run_on := (main to_datetime numeric_of_string).


End DownloadLoop.

(** * The further properties on concrete tables *)

Lemma resolution_ignores_header_spelling_witness :
  map norm (columns example_csv) = map norm (columns respelled_csv) /\
  (parse_uv_csv example_to_datetime example_numeric_of_string example_csv =
   Raised ValueError <->
   parse_uv_csv example_to_datetime example_numeric_of_string respelled_csv =
   Raised ValueError).
Proof.
  split; [reflexivity|].
  exact (proj2 (proj2 (@resolution_ignores_header_spelling
                         example_to_datetime example_numeric_of_string
                         example_csv respelled_csv eq_refl))).
Defined.

Lemma climatology_of_single_year_witness :
  filter (fun x => String.eqb (um_city x) "Sydney" && Z.eqb (um_month x) 1)
         tie_monthly =
  [ {| um_city := "Sydney"; um_year := 2023; um_month := 1;
       um_uvi := Qc_of_Z 9 |} ] /\
  In {| cl_city := "Sydney"; cl_month := 1;
        mean_daily_max_uvi_clim := Qc_of_Z 9 |} (climatology tie_monthly).
Proof.
  split; [reflexivity|].
  exact (@climatology_of_single_year tie_monthly
           {| um_city := "Sydney"; um_year := 2023; um_month := 1;
              um_uvi := Qc_of_Z 9 |} eq_refl).
Defined.

Lemma five_year_mean_preserves_total_witness :
  (nan_sum (map y_count (fst (fst example_tables))) <= Qc_of_Z (2 ^ 53))%Qc /\
  (forall m, In m (five_year_mean (fst (fst example_tables))) ->
     exists n, count_sum m = Qc_of_Z n /\ (0 <= n)%Z) /\
  agg_sum (map count_sum (five_year_mean (fst (fst example_tables)))) =
  nan_sum (map y_count
               (filter (fun r => match mean_key r with
                                 | Some _ => true
                                 | None => false
                                 end) (fst (fst example_tables)))).
Proof.
  assert (H : (nan_sum (map y_count (fst (fst example_tables)))
               <= Qc_of_Z (2 ^ 53))%Qc) by (vm_compute; discriminate).
  split; [exact H|].
  apply (@five_year_mean_preserves_total (fst (fst example_tables)));
    [|exact H].
  intros r q Hr. vm_compute in Hr.
  repeat (destruct Hr as [<-|Hr];
          [intros [= <-]; eexists (Qnum _);
           split; [apply is_integral_Qc_of_Z; reflexivity
                  |vm_compute; discriminate]|]).
  contradiction.
Defined.

Lemma read_book7_filtered_output_witness :
  read_book7_filtered example_numeric_of_string example_book RATE_STANDARD =
  Returned (fst (fst example_tables), snd (fst example_tables)) /\
  NoDup (map mn_state_code (snd (fst example_tables))).
Proof.
  assert (H : read_book7_filtered example_numeric_of_string example_book
                RATE_STANDARD =
              Returned (fst (fst example_tables), snd (fst example_tables)))
    by (vm_compute; reflexivity).
  split; [exact H|].
  exact (proj2 (proj2 (proj2 (@read_book7_filtered_output
                                example_numeric_of_string example_book
                                RATE_STANDARD _ _ H)))).
Defined.

Lemma run_repeats_no_state_code_witness :
  main example_to_datetime example_numeric_of_string example_download
       (Some example_book) = Returned example_outputs /\
  NoDup (map us_state_code (uv_state_metric_csv example_outputs)).
Proof.
  assert (H : main example_to_datetime example_numeric_of_string
                   example_download (Some example_book) =
              Returned example_outputs) by (vm_compute; reflexivity).
  split; [exact H|].
  exact (proj1 (@run_repeats_no_state_code
                  example_to_datetime example_numeric_of_string
                  example_download (Some example_book) example_outputs H)).
Defined.


Lemma run_tables_are_sorted_witness :
  main example_to_datetime example_numeric_of_string example_download
       (Some example_book) = Returned example_outputs /\
  Sorted (key_le (fun r => (um_city r, (um_year r, um_month r))))
         (uv_monthly_by_year example_outputs).
Proof.
  assert (H : main example_to_datetime example_numeric_of_string
                   example_download (Some example_book) =
              Returned example_outputs) by (vm_compute; reflexivity).
  split; [exact H|].
  exact (proj1 (@run_tables_are_sorted
                  example_to_datetime example_numeric_of_string
                  example_download (Some example_book) example_outputs H)).
Defined.

Lemma run_joins_states_with_both_witness :
  main example_to_datetime example_numeric_of_string example_download
       (Some example_book) = Returned example_outputs /\
  melanoma example_outputs =
  Some (fst (fst example_tables), snd (fst example_tables),
        snd example_tables) /\
  (In "VIC"%string (map sc_state_code (snd example_tables)) <->
   exists city name,
     dict_get CAP_TO_STATE city = Some ("VIC"%string, name) /\
     In city (map um_city (uv_monthly_by_year example_outputs)) /\
     exists r, In r (fst (fst example_tables)) /\ y_state_name r = CStr name).
Proof.
  assert (H : main example_to_datetime example_numeric_of_string
                   example_download (Some example_book) =
              Returned example_outputs) by (vm_compute; reflexivity).
  assert (Hm : melanoma example_outputs =
               Some (fst (fst example_tables), snd (fst example_tables),
                     snd example_tables)) by (vm_compute; reflexivity).
  split; [exact H|]. split; [exact Hm|].
  exact (@run_joins_states_with_both
           example_to_datetime example_numeric_of_string example_download
           example_book example_outputs _ _ _ "VIC"%string H Hm).
Defined.

(** Melbourne has UV data and Victoria melanoma rows: the join of the
    example run is the row of VIC. *)
Example run_joins_states_example :
  map sc_state_code (snd example_tables) = [ "VIC"%string ].
Proof. vm_compute. reflexivity. Qed.

(** Of the five listed resources, the two Sydney files of 2022 and 2023 are
    selected, the earlier year first. *)
Example list_year_resources_example :
  list_year_resources example_resources "Sydney" YEARS =
  [ (2022%Z, ("https://a", "UV Sydney-2022.CSV"));
    (2023%Z, ("https://b", "uv-sydney-2023.csv")) ]%string.
Proof. vm_compute. reflexivity. Qed.
